(** * coffeeshop: a shallow embedding of the request-serving pipeline

    The Go package [coffeeshop] serves a fixed product inventory over two
    read-only HTTP routes, behind a middleware chain (request-timeout guard,
    content-type setter, artificial delay).  This development embeds the
    package's data model and functions and states the properties of its
    specification over them.

    Conventions.
    - A Go [string] is a sequence of bytes: [String.string], whose characters
      are the bytes.  The double-quote byte is written [dq].
    - A Go [map[string]Product] is a [gmap string Product]; the nil map is
      [None].  The order in which Go ranges over a map is not specified: it
      is an explicit argument, a [MapOrder].
    - A Go slice field ([Properties []Property]) is an
      [option (list Property)]: [None] is the nil slice, [Some []] a slice
      that is empty and not nil.  Both have length 0; [reflect.DeepEqual]
      tells them apart.
    - [time.Duration] is a signed count of nanoseconds, a [Z].
    - Methods with a pointer receiver pass the receiver's state explicitly
      and return it. *)

From Stdlib Require Import ZArith Ascii String List Bool Lia Permutation Sorting.Mergesort Orders.
From stdpp Require Import base option list gmap strings sorting.

Set Warnings "-register-all".

Local Open Scope string_scope.
Local Open Scope Z_scope.

(** ** Bytes and strings *)

Definition byte_val (c : ascii) : Z := Z.of_N (N_of_ascii c).
Definition byte_of (z : Z) : ascii := ascii_of_N (Z.to_N z).

Definition dqc : ascii := "034"%char.
Definition dq : string := String dqc EmptyString.
Definition lf : string := String "010"%char EmptyString.

(** ** The data model (type declarations of the package) *)

Module Property.
Record Property : Type := mk { Name : string; Value : string }.
End Property.
Abbreviation Property := Property.Property.

Module Product.
Record Product : Type := mk {
  ID : string;
  Type_ : string;
  Brand : string;
  Name : string;
  Unit : string;
  Quantity : string;
  Price : string;
  Properties : option (list Property)
}.
(** The zero value [Product{}]: its slice is nil. *)
Definition zero : Product := mk "" "" "" "" "" "" "" None.
End Product.
Abbreviation Product := Product.Product.

#[global] Instance Property_eq_dec : EqDecision Property.
Proof. solve_decision. Defined.
#[global] Instance Product_eq_dec : EqDecision Product.
Proof. solve_decision. Defined.

(** [type Products map[string]Product]; [None] is the nil map. *)
Definition Products : Type := option (gmap string Product).

Definition entries (p : Products) : gmap string Product := default ∅ p.

(** ** Map iteration order

    [for k, v := range m] visits every entry once, in an order the language
    leaves open and that may change from one loop to the next.  A [MapOrder]
    is one such choice. *)
Record MapOrder : Type := {
  shuffle : list (string * Product) → list (string * Product);
  shuffle_perm : ∀ l, shuffle l ≡ₚ l
}.

Definition order_id : MapOrder := {| shuffle := id; shuffle_perm := λ l, reflexivity l |}.

Definition order_rev : MapOrder.
Proof. refine {| shuffle := reverse |}. intros l. apply reverse_Permutation. Defined.

(** [range m]: the entries of [m] in the chosen order. *)
Definition range (o : MapOrder) (m : Products) : list (string * Product) :=
  shuffle o (map_to_list (entries m)).

(** [maps.Values] of golang.org/x/exp/maps: ranges over the map and appends
    each value to a fresh slice. *)
Definition maps_Values (o : MapOrder) (m : Products) : list Product :=
  (range o m).*2.

(** ** The seed inventory (the package variable [inventory]) *)

Definition inventory_entries : list (string * Product) := [
  ("1", Product.mk "1" "Coffee" "Segafredo" "Intermezzo" "gram" "1000" "7.99"
     (Some [ Property.mk "flavour"
              "Acidic Robusta, Nuts, Aromatic Arabica, Caramel, Medium roasted beans";
            Property.mk "property" "1000 grams, Arabica/Robusta";
            Property.mk "intensity" "" ]));
  ("2", Product.mk "2" "Coffee" "Segafredo" "Caff√© Crema Gustoso" "gram" "1000" "11.99"
     (Some [ Property.mk "flavour" "Acidic Robusta, Nuts, Aromatic Arabica, Medium roasted beans";
            Property.mk "property" "1000 grams, Arabica/Robusta";
            Property.mk "intensity" "Medium (6/10)" ]));
  ("3", Product.mk "3" "Coffee" "Segafredo" "Selezione Espresso" "gram" "1000" "10.49"
     (Some [ Property.mk "flavour"
              "Dark Chocolate, Acidic Robusta, Dark roasted beans, Aromatic Arabica";
            Property.mk "property" "1000 grams, Arabica/Robusta" ]));
  ("4", Product.mk "4" "Coffee" "illy" "Intenso" "gram" "250" "7.99"
     (Some [ Property.mk "flavour" "Fruit, Chocolate, Dark roasted beans, Bitterness";
            Property.mk "property" "250 grams, Arabica";
            Property.mk "intensity" "Very strong (9/10)" ]));
  ("5", Product.mk "5" "Coffee" "illy" "Guatemala" "gram" "250" "7.99"
     (Some [ Property.mk "flavour" "Honey, Caramel, Sweetness";
            Property.mk "property" "250 gram, Arabica";
            Property.mk "intensity" "Medium (6/10)" ]));
  ("6", Product.mk "6" "Coffee" "Lavazza" "Espresso Barista Perfetto" "gram" "1000" "12.99"
     (Some [ Property.mk "flavour" "Aromatic Arabica, Medium roasted beans";
            Property.mk "property" "250 gram, Arabica";
            Property.mk "intensity" "Medium (6/10)" ]))
].

Definition inventory : Products := Some (list_to_map inventory_entries).

(** ** The in-memory store *)

(** [sync.RWMutex], as far as this package uses it: only read locks are ever
    taken ([Lock] is called nowhere), so [RLock] never blocks and the lock's
    state is the number of readers inside. *)
Record RWMutex : Type := { readerCount : Z }.

Definition RLock (mx : RWMutex) : RWMutex := {| readerCount := readerCount mx + 1 |}.
Definition RUnlock (mx : RWMutex) : RWMutex := {| readerCount := readerCount mx - 1 |}.

(** Go's [error] values that this package can meet: those it makes itself
    with [errors.New], and those of [encoding/json] and [time], told apart
    by kind. *)
Inductive error : Type :=
  | errors_New (msg : string)
  | json_SyntaxError
  | json_UnmarshalTypeError
  | time_InvalidDuration (orig : string)
  | time_MissingUnit (orig : string)
  | time_UnknownUnit (unit orig : string).

#[global] Instance error_eq_dec : EqDecision error.
Proof. solve_decision. Defined.

Module MemoryStore.
Record MemoryStore : Type := mk { mx : RWMutex; Products_ : Products }.

Definition withMx (f : RWMutex → RWMutex) (ms : MemoryStore) : MemoryStore :=
  mk (f (mx ms)) (Products_ ms).

(** [func (ms *MemoryStore) GetAll() []Product] *)
Definition GetAll (o : MapOrder) (ms : MemoryStore) : list Product * MemoryStore :=
  let ms := withMx RLock ms in
  let r := maps_Values o (Products_ ms) in
  (r, withMx RUnlock ms).

(** [func (ms *MemoryStore) GetProduct(id string) (Product, error)] *)
Definition GetProduct (id : string) (ms : MemoryStore)
  : (Product * option error) * MemoryStore :=
  let ms := withMx RLock ms in
  let r := match entries (Products_ ms) !! id with
           | None => (Product.zero, Some (errors_New "product not found"))
           | Some p => (p, None)
           end in
  (r, withMx RUnlock ms).
End MemoryStore.
Abbreviation MemoryStore := MemoryStore.MemoryStore.

(** [type Store interface { GetAll() []Product; GetProduct(id string) (Product, error) }] *)
Class Store (S : Type) : Type := {
  Store_GetAll : MapOrder → S → list Product * S;
  Store_GetProduct : string → S → (Product * option error) * S
}.

#[global] Instance MemoryStore_Store : Store MemoryStore := {|
  Store_GetAll := MemoryStore.GetAll;
  Store_GetProduct := MemoryStore.GetProduct
|}.

(** The store that [Run] builds: [MemoryStore{Products: inventory}]. *)
Definition seeded_store : MemoryStore :=
  MemoryStore.mk {| readerCount := 0 |} inventory.


(** ** unicode/utf8 and unicode/utf16, as used by encoding/json *)

(** String slicing: [s[n:]] and [s[:n]]. *)
Fixpoint sdrop (n : nat) (s : string) : string :=
  match n, s with
  | S n', String _ r => sdrop n' r
  | _, _ => s
  end.

Fixpoint stake (n : nat) (s : string) : string :=
  match n, s with
  | S n', String c r => String c (stake n' r)
  | _, _ => EmptyString
  end.

(** Conversion to [int32] with wrap-around. *)
Definition int32 (z : Z) : Z := (z + 2 ^ 31) mod 2 ^ 32 - 2 ^ 31.
(** Conversion to [byte] and to [uint32]. *)
Definition to_byte (z : Z) : Z := z mod 256.
Definition uint32 (z : Z) : Z := z mod 2 ^ 32.

Module utf8.
Definition RuneError : Z := 0xFFFD.
Definition RuneSelf : Z := 0x80.
Definition MaxRune : Z := 0x10FFFF.
Definition surrogateMin : Z := 0xD800.
Definition surrogateMax : Z := 0xDFFF.
Definition tx : Z := 0x80.
Definition t2 : Z := 0xC0.
Definition t3 : Z := 0xE0.
Definition t4 : Z := 0xF0.
Definition maskx : Z := 0x3F.
Definition mask2 : Z := 0x1F.
Definition mask3 : Z := 0x0F.
Definition mask4 : Z := 0x07.
Definition rune1Max : Z := 0x7F.
Definition rune2Max : Z := 0x7FF.
Definition rune3Max : Z := 0xFFFF.
Definition locb : Z := 0x80.
Definition hicb : Z := 0xBF.
(** Entries of the table [first]: [xx] invalid, [as_] ASCII, [s1]..[s7]
    give the accept range (high nibble) and the size (low nibble). *)
Definition xx : Z := 0xF1.
Definition as_ : Z := 0xF0.
Definition s1 : Z := 0x02.
Definition s2 : Z := 0x13.
Definition s3 : Z := 0x03.
Definition s4 : Z := 0x23.
Definition s5 : Z := 0x34.
Definition s6 : Z := 0x04.
Definition s7 : Z := 0x44.

(** The table [first[256]], by ranges of the first byte. *)
Definition first (b : Z) : Z :=
  if b <? 0x80 then as_
  else if b <? 0xC2 then xx
  else if b <? 0xE0 then s1
  else if b =? 0xE0 then s2
  else if b <? 0xED then s3
  else if b =? 0xED then s4
  else if b <? 0xF0 then s3
  else if b =? 0xF0 then s5
  else if b <? 0xF4 then s6
  else if b =? 0xF4 then s7
  else xx.

(** The table [acceptRanges[16]]: bounds on the second byte. *)
Definition acceptRanges (i : Z) : Z * Z :=
  if i =? 0 then (locb, hicb)
  else if i =? 1 then (0xA0, hicb)
  else if i =? 2 then (locb, 0x9F)
  else if i =? 3 then (0x90, hicb)
  else if i =? 4 then (locb, 0x8F)
  else (0, 0).

(** [func DecodeRuneInString(s string) (rune, int)] *)
Definition DecodeRuneInString (s : string) : Z * nat :=
  match s with
  | EmptyString => (RuneError, 0%nat)
  | String c0 r0 =>
    let s0 := byte_val c0 in
    let x := first s0 in
    if as_ <=? x then
      let mask := Z.shiftr (int32 (Z.shiftl x 31)) 31 in
      (Z.lor (Z.ldiff s0 mask) (Z.land RuneError mask), 1%nat)
    else
      let sz := Z.land x 7 in
      let accept := acceptRanges (Z.shiftr x 4) in
      if Z.of_nat (String.length s) <? sz then (RuneError, 1%nat) else
      match r0 with
      | EmptyString => (RuneError, 1%nat)
      | String c1 r1 =>
        let b1 := byte_val c1 in
        if (b1 <? accept.1) || (accept.2 <? b1) then (RuneError, 1%nat) else
        if sz <=? 2 then
          (Z.lor (Z.shiftl (Z.land s0 mask2) 6) (Z.land b1 maskx), 2%nat)
        else
        match r1 with
        | EmptyString => (RuneError, 1%nat)
        | String c2 r2 =>
          let b2 := byte_val c2 in
          if (b2 <? locb) || (hicb <? b2) then (RuneError, 1%nat) else
          if sz <=? 3 then
            (Z.lor (Z.lor (Z.shiftl (Z.land s0 mask3) 12)
                          (Z.shiftl (Z.land b1 maskx) 6))
                   (Z.land b2 maskx), 3%nat)
          else
          match r2 with
          | EmptyString => (RuneError, 1%nat)
          | String c3 _ =>
            let b3 := byte_val c3 in
            if (b3 <? locb) || (hicb <? b3) then (RuneError, 1%nat) else
            (Z.lor (Z.lor (Z.lor (Z.shiftl (Z.land s0 mask4) 18)
                                 (Z.shiftl (Z.land b1 maskx) 12))
                          (Z.shiftl (Z.land b2 maskx) 6))
                   (Z.land b3 maskx), 4%nat)
          end
        end
      end
  end.

Definition bytes (l : list Z) : string :=
  fold_right (λ z acc, String (byte_of z) acc) EmptyString l.

Definition encode3 (r : Z) : string :=
  bytes [ Z.lor t3 (to_byte (Z.shiftr r 12));
          Z.lor tx (Z.land (to_byte (Z.shiftr r 6)) maskx);
          Z.lor tx (Z.land (to_byte r) maskx) ].

(** [func EncodeRune(p []byte, r rune) int]: the bytes written to [p]. *)
Definition EncodeRune (r : Z) : string :=
  let i := uint32 r in
  if i <=? rune1Max then bytes [to_byte r]
  else if i <=? rune2Max then
    bytes [ Z.lor t2 (to_byte (Z.shiftr r 6)); Z.lor tx (Z.land (to_byte r) maskx) ]
  else if (MaxRune <? i) || ((surrogateMin <=? i) && (i <=? surrogateMax)) then
    encode3 RuneError
  else if i <=? rune3Max then encode3 r
  else
    bytes [ Z.lor t4 (to_byte (Z.shiftr r 18));
            Z.lor tx (Z.land (to_byte (Z.shiftr r 12)) maskx);
            Z.lor tx (Z.land (to_byte (Z.shiftr r 6)) maskx);
            Z.lor tx (Z.land (to_byte r) maskx) ].

(** [func ValidString(s string) bool]: [s] consists entirely of valid
    encoded runes.  [n] bounds the number of runes. *)
Fixpoint valid_loop (n : nat) (s : string) : bool :=
  match s with
  | EmptyString => true
  | String _ _ =>
    match n with
    | O => false
    | S n' =>
      let '(r, size) := DecodeRuneInString s in
      if (r =? RuneError) && (size =? 1)%nat then false
      else valid_loop n' (sdrop size s)
    end
  end.

Definition ValidString (s : string) : bool := valid_loop (String.length s) s.
End utf8.

Module utf16.
Definition surr1 : Z := 0xd800.
Definition surr2 : Z := 0xdc00.
Definition surr3 : Z := 0xe000.
Definition surrSelf : Z := 0x10000.
Definition replacementChar : Z := 0xFFFD.

Definition IsSurrogate (r : Z) : bool := (surr1 <=? r) && (r <? surr3).

Definition DecodeRune (r1 r2 : Z) : Z :=
  if (surr1 <=? r1) && (r1 <? surr2) && (surr2 <=? r2) && (r2 <? surr3)
  then Z.lor (Z.shiftl (r1 - surr1) 10) (r2 - surr2) + surrSelf
  else replacementChar.
End utf16.

(** ** encoding/json

    The package relies on [json.Marshal], [json.MarshalIndent] and
    [json.Unmarshal] for the types [Product], [[]Product] and
    [map[string]Product].  What the library does for these types is modelled
    here: the encoder ([encodeState.string], the struct, slice and map
    encoders, [Indent]) and the decoder (the scanner's grammar, [unquote],
    and the struct, slice and map cases of [decodeState]). *)

Module json.

(** A JSON text, parsed.  Strings are held unquoted; numbers as written. *)
Inductive value : Type :=
  | JNull
  | JBool (b : bool)
  | JNumber (lit : string)
  | JString (s : string)
  | JArray (l : list value)
  | JObject (l : list (string * value)).

(** *** Encoding *)

Definition hex (z : Z) : ascii :=
  match String.get (Z.to_nat z) "0123456789abcdef" with
  | Some c => c
  | None => "0"%char
  end.

(** The table [htmlSafeSet]: the ASCII bytes written as they are. *)
Definition htmlSafeSet (b : Z) : bool :=
  (0x20 <=? b) && (b <? 0x80) && negb (b =? 0x22) && negb (b =? 0x26)
  && negb (b =? 0x3C) && negb (b =? 0x3E) && negb (b =? 0x5C).

(** What follows the backslash when an ASCII byte is escaped. *)
Definition escape_byte (c : ascii) : string :=
  let b := byte_val c in
  if (b =? 0x5C) || (b =? 0x22) then String c ""
  else if b =? 0x0A then "n"
  else if b =? 0x0D then "r"
  else if b =? 0x09 then "t"
  else "u00" ++ String (hex (Z.shiftr b 4)) (String (hex (Z.land b 0xF)) "").

(** The loop of [func (e *encodeState) string(s string, escapeHTML bool)]
    with [escapeHTML] set, between the two quotes. *)
Fixpoint string_loop (n : nat) (s : string) : string :=
  match n, s with
  | S n', String c rest =>
    let b := byte_val c in
    if b <? utf8.RuneSelf then
      if htmlSafeSet b then String c (string_loop n' rest)
      else "\" ++ escape_byte c ++ string_loop n' rest
    else
      let '(r, size) := utf8.DecodeRuneInString s in
      if (r =? utf8.RuneError) && (size =? 1)%nat then
        "\uff" ++ "fd" ++ string_loop n' (sdrop size s)
      else if (r =? 0x2028) || (r =? 0x2029) then
        "\u202" ++ String (hex (Z.land r 0xF)) "" ++ string_loop n' (sdrop size s)
      else stake size s ++ string_loop n' (sdrop size s)
  | _, _ => ""
  end.

Definition encode_string (s : string) : string :=
  dq ++ string_loop (String.length s) s ++ dq.

Fixpoint join (sep : string) (l : list string) : string :=
  match l with
  | [] => ""
  | [x] => x
  | x :: l' => x ++ sep ++ join sep l'
  end.

(** The compact text of a value. *)
Fixpoint render (j : value) : string :=
  match j with
  | JNull => "null"
  | JBool true => "true"
  | JBool false => "false"
  | JNumber lit => lit
  | JString s => encode_string s
  | JArray l => "[" ++ join "," (List.map render l) ++ "]"
  | JObject l =>
    "{" ++ join "," (List.map (λ kv, encode_string (fst kv) ++ ":" ++ render (snd kv)) l) ++ "}"
  end.

Fixpoint repeat_string (n : nat) (s : string) : string :=
  match n with
  | O => ""
  | S n' => s ++ repeat_string n' s
  end.

(** [Indent] with prefix [prefix] and indentation [indent], on the parsed
    text: a line break and [depth] indentations after every opening bracket
    and comma and before every closing bracket, a space after every colon;
    empty arrays and objects stay closed. *)
Definition newline (prefix indent : string) (depth : nat) : string :=
  lf ++ prefix ++ repeat_string depth indent.

Fixpoint render_indent (prefix indent : string) (depth : nat) (j : value) : string :=
  match j with
  | JArray [] => "[]"
  | JObject [] => "{}"
  | JArray l =>
    "[" ++ newline prefix indent (S depth)
    ++ join ("," ++ newline prefix indent (S depth))
            (List.map (render_indent prefix indent (S depth)) l)
    ++ newline prefix indent depth ++ "]"
  | JObject l =>
    "{" ++ newline prefix indent (S depth)
    ++ join ("," ++ newline prefix indent (S depth))
            (List.map (λ kv, encode_string (fst kv) ++ ": "
                             ++ render_indent prefix indent (S depth) (snd kv)) l)
    ++ newline prefix indent depth ++ "}"
  | _ => render j
  end.

(** The struct encoder for [Property]: both fields, always. *)
Definition Property_to_json (p : Property) : value :=
  JObject [ ("name", JString (Property.Name p)); ("value", JString (Property.Value p)) ].

Definition omitempty_string (name s : string) : list (string * value) :=
  if String.eqb s "" then [] else [(name, JString s)].

(** The struct encoder for [Product], from its field tags: [id], [type],
    [brand] and [name] always; [unit], [quantity], [price] and [properties]
    only when not empty ([omitempty] leaves out a string or a slice of
    length 0, the nil slice and the empty one alike). *)
Definition Product_to_json (p : Product) : value :=
  JObject ([ ("id", JString (Product.ID p));
             ("type", JString (Product.Type_ p));
             ("brand", JString (Product.Brand p));
             ("name", JString (Product.Name p)) ]
           ++ omitempty_string "unit" (Product.Unit p)
           ++ omitempty_string "quantity" (Product.Quantity p)
           ++ omitempty_string "price" (Product.Price p)
           ++ match Product.Properties p with
              | None | Some [] => []
              | Some ps => [("properties", JArray (List.map Property_to_json ps))]
              end).

(** The slice encoder for a non-nil [[]Product]. *)
Definition list_to_json (l : list Product) : value := JArray (List.map Product_to_json l).

(** The map encoder sorts the entries by key, as byte strings. *)
Definition key_le (a b : string * Product) : Prop := String.le a.1 b.1.
#[global] Instance key_le_dec a b : Decision (key_le a b).
Proof. unfold key_le. apply _. Defined.

Definition sorted_entries (m : gmap string Product) : list (string * Product) :=
  merge_sort key_le (map_to_list m).

Definition map_to_json (m : Products) : value :=
  match m with
  | None => JNull
  | Some g => JObject (List.map (λ kp, (fst kp, Product_to_json (snd kp))) (sorted_entries g))
  end.

(** [json.Marshal] returns the text and an error; for the types of this
    package (strings, structs of strings, slices and string-keyed maps of
    them) the encoder has no failing case. *)
Definition Marshal_Product (p : Product) : string * option error :=
  (render (Product_to_json p), None).

Definition Marshal_map (m : Products) : string * option error :=
  (render (map_to_json m), None).

Definition MarshalIndent_list (l : list Product) (prefix indent : string)
  : string * option error :=
  (render_indent prefix indent 0 (list_to_json l), None).

(** *** Decoding: the grammar of the scanner and [unquote] *)

Definition is_ws (c : ascii) : bool :=
  let b := byte_val c in (b =? 0x20) || (b =? 0x09) || (b =? 0x0D) || (b =? 0x0A).

Fixpoint skip_ws (s : string) : string :=
  match s with
  | String c r => if is_ws c then skip_ws r else s
  | EmptyString => EmptyString
  end.

Definition is_digit (c : ascii) : bool :=
  let b := byte_val c in (0x30 <=? b) && (b <=? 0x39).

(** The value of a hexadecimal digit, or [-1]. *)
Definition hex_val (c : ascii) : Z :=
  let b := byte_val c in
  if (0x30 <=? b) && (b <=? 0x39) then b - 0x30
  else if (0x61 <=? b) && (b <=? 0x66) then b - 0x61 + 10
  else if (0x41 <=? b) && (b <=? 0x46) then b - 0x41 + 10
  else -1.

(** [func getu4(s []byte) rune]: the rune of a leading [\uXXXX], or [-1]. *)
Definition getu4 (s : string) : Z :=
  match s with
  | String c0 (String c1 (String h0 (String h1 (String h2 (String h3 _))))) =>
    if negb (byte_val c0 =? 0x5C) || negb (byte_val c1 =? 0x75) then -1
    else
      fold_left (λ r c, if r <? 0 then -1
                        else if hex_val c <? 0 then -1
                        else r * 16 + hex_val c) [h0; h1; h2; h3] 0
  | _ => -1
  end.

(** The byte a one-letter escape stands for. *)
Definition unescape (be : Z) : option ascii :=
  if (be =? 0x22) || (be =? 0x5C) || (be =? 0x2F) then Some (byte_of be)
  else if be =? 0x62 then Some (byte_of 0x08)
  else if be =? 0x66 then Some (byte_of 0x0C)
  else if be =? 0x6E then Some (byte_of 0x0A)
  else if be =? 0x72 then Some (byte_of 0x0D)
  else if be =? 0x74 then Some (byte_of 0x09)
  else None.

Definition prepend (p : string) (o : option (string * string)) : option (string * string) :=
  match o with
  | Some (t, r) => Some (p ++ t, r)
  | None => None
  end.

(** A string literal after its opening quote: the unquoted string and the
    input after the closing quote.  The scanner refuses control bytes and
    unknown escapes; [unquote] turns escapes into bytes and coerces the rest
    to valid UTF-8.  [n] bounds the number of steps; the length of the input
    is enough. *)
Fixpoint string_body (n : nat) (s : string) : option (string * string) :=
  match n with
  | O => None
  | S n' =>
    match s with
    | EmptyString => None
    | String c rest =>
      let b := byte_val c in
      if b =? 0x22 then Some ("", rest)
      else if b =? 0x5C then
        match rest with
        | EmptyString => None
        | String e rest' =>
          let be := byte_val e in
          if be =? 0x75 then
            let rr := getu4 s in
            if rr <? 0 then None
            else
              let after := sdrop 6 s in
              if utf16.IsSurrogate rr then
                let dec := utf16.DecodeRune rr (getu4 after) in
                if negb (dec =? utf16.replacementChar)
                then prepend (utf8.EncodeRune dec) (string_body n' (sdrop 6 after))
                else prepend (utf8.EncodeRune utf16.replacementChar) (string_body n' after)
              else prepend (utf8.EncodeRune rr) (string_body n' after)
          else
            match unescape be with
            | Some ch => prepend (String ch "") (string_body n' rest')
            | None => None
            end
        end
      else if b <? 0x20 then None
      else if b <? utf8.RuneSelf then prepend (String c "") (string_body n' rest)
      else
        let '(rr, size) := utf8.DecodeRuneInString s in
        prepend (utf8.EncodeRune rr) (string_body n' (sdrop size s))
    end
  end.

Fixpoint take_digits (s : string) : string * string :=
  match s with
  | String c r =>
    if is_digit c then let '(d, r') := take_digits r in (String c d, r')
    else ("", s)
  | EmptyString => ("", "")
  end.

Fixpoint strip_prefix (p s : string) : option string :=
  match p, s with
  | EmptyString, _ => Some s
  | String a p', String b s' => if Ascii.eqb a b then strip_prefix p' s' else None
  | _, _ => None
  end.

(** A number literal: an optional minus sign; a zero, or a digit from 1 to 9
    and any digits; optionally a point and one digit or more; optionally an
    exponent ([e] or [E], an optional sign, one digit or more). *)
Definition scan_number (s : string) : option (string * string) :=
  let '(sign, s1) := match strip_prefix "-" s with
                     | Some r => ("-", r)
                     | None => ("", s)
                     end in
  match s1 with
  | EmptyString => None
  | String c r =>
    let int_part :=
      if byte_val c =? 0x30 then Some (String c "", r)
      else if is_digit c then let '(d, r') := take_digits r in Some (String c d, r')
      else None in
    match int_part with
    | None => None
    | Some (int, s2) =>
      let frac_part :=
        match strip_prefix "." s2 with
        | None => Some ("", s2)
        | Some r2 =>
          let '(d, r') := take_digits r2 in
          if String.eqb d "" then None else Some ("." ++ d, r')
        end in
      match frac_part with
      | None => None
      | Some (frac, s3) =>
        match s3 with
        | String e r3 =>
          if (byte_val e =? 0x65) || (byte_val e =? 0x45) then
            let '(sg, r4) :=
              match r3 with
              | String g r' =>
                if (byte_val g =? 0x2B) || (byte_val g =? 0x2D) then (String g "", r')
                else ("", r3)
              | EmptyString => ("", r3)
              end in
            let '(d, r5) := take_digits r4 in
            if String.eqb d "" then None
            else Some (sign ++ int ++ frac ++ String e (sg ++ d), r5)
          else Some (sign ++ int ++ frac, s3)
        | EmptyString => Some (sign ++ int ++ frac, s3)
        end
      end
    end
  end.

(** The scanner refuses nesting deeper than this. *)
Definition maxNestingDepth : Z := 10000.

(** One value, the rest of an array after its opening bracket, the rest of
    an object after its opening brace.  [d] is the number of arrays and
    objects open around; [n] bounds the recursion (the length of the input
    and one more is enough). *)
Fixpoint parse_value (n : nat) (d : Z) (s : string) {struct n} : option (value * string) :=
  match n with
  | O => None
  | S n' =>
    match skip_ws s with
    | EmptyString => None
    | String c r =>
      let b := byte_val c in
      if b =? 0x22 then
        match string_body (String.length r) r with
        | Some (t, r') => Some (JString t, r')
        | None => None
        end
      else if b =? 0x5B then
        if maxNestingDepth <? d + 1 then None
        else
          match skip_ws r with
          | EmptyString => None
          | String c' r' =>
            if byte_val c' =? 0x5D then Some (JArray [], r')
            else
              match parse_elems n' (d + 1) r with
              | Some (l, r'') => Some (JArray l, r'')
              | None => None
              end
          end
      else if b =? 0x7B then
        if maxNestingDepth <? d + 1 then None
        else
          match skip_ws r with
          | EmptyString => None
          | String c' r' =>
            if byte_val c' =? 0x7D then Some (JObject [], r')
            else
              match parse_members n' (d + 1) r with
              | Some (l, r'') => Some (JObject l, r'')
              | None => None
              end
          end
      else if b =? 0x74 then
        match strip_prefix "rue" r with
        | Some r' => Some (JBool true, r')
        | None => None
        end
      else if b =? 0x66 then
        match strip_prefix "alse" r with
        | Some r' => Some (JBool false, r')
        | None => None
        end
      else if b =? 0x6E then
        match strip_prefix "ull" r with
        | Some r' => Some (JNull, r')
        | None => None
        end
      else
        match scan_number (String c r) with
        | Some (lit, r') => Some (JNumber lit, r')
        | None => None
        end
    end
  end
with parse_elems (n : nat) (d : Z) (s : string) {struct n} : option (list value * string) :=
  match n with
  | O => None
  | S n' =>
    match parse_value n' d s with
    | None => None
    | Some (v, r) =>
      match skip_ws r with
      | EmptyString => None
      | String c r' =>
        if byte_val c =? 0x2C then
          match parse_elems n' d r' with
          | Some (l, r'') => Some (v :: l, r'')
          | None => None
          end
        else if byte_val c =? 0x5D then Some ([v], r')
        else None
      end
    end
  end
with parse_members (n : nat) (d : Z) (s : string) {struct n}
  : option (list (string * value) * string) :=
  match n with
  | O => None
  | S n' =>
    match skip_ws s with
    | EmptyString => None
    | String c r =>
      if negb (byte_val c =? 0x22) then None
      else
        match string_body (String.length r) r with
        | None => None
        | Some (k, r1) =>
          match skip_ws r1 with
          | EmptyString => None
          | String c1 r2 =>
            if negb (byte_val c1 =? 0x3A) then None
            else
              match parse_value n' d r2 with
              | None => None
              | Some (v, r3) =>
                match skip_ws r3 with
                | EmptyString => None
                | String c3 r4 =>
                  if byte_val c3 =? 0x2C then
                    match parse_members n' d r4 with
                    | Some (l, r5) => Some ((k, v) :: l, r5)
                    | None => None
                    end
                  else if byte_val c3 =? 0x7D then Some ([(k, v)], r4)
                  else None
                end
              end
          end
        end
    end
  end.

(** [checkValid] and the scan of the decoder: one value, white space around
    it, nothing else. *)
Definition parse (data : string) : option value :=
  match parse_value (S (String.length data)) 0 data with
  | Some (v, r) => if String.eqb (skip_ws r) "" then Some v else None
  | None => None
  end.

(** *** Decoding: storing a parsed value into a Go value *)

(** The decoder keeps the first error it meets and carries on. *)
Definition saveError (saved e : option error) : option error :=
  match saved with
  | Some _ => saved
  | None => e
  end.

(** Field names are matched exactly first, then through the fold function
    that [foldFunc] picks for the name. *)
Definition caseMask : Z := 0xDF.
Definition kelvin : Z := 0x212A.
Definition smallLongEss : Z := 0x017F.

Fixpoint simpleLetterEqualFold (s t : string) : bool :=
  match s, t with
  | EmptyString, EmptyString => true
  | String a s', String b t' =>
    (Z.land (byte_val a) caseMask =? Z.land (byte_val b) caseMask)
    && simpleLetterEqualFold s' t'
  | _, _ => false
  end.

Definition is_letter (b : Z) : bool :=
  ((0x61 <=? b) && (b <=? 0x7A)) || ((0x41 <=? b) && (b <=? 0x5A)).

Fixpoint asciiEqualFold (s t : string) : bool :=
  match s, t with
  | EmptyString, EmptyString => true
  | String a s', String b t' =>
    let sb := byte_val a in
    let tb := byte_val b in
    (if sb =? tb then true
     else is_letter sb && (Z.land sb caseMask =? Z.land tb caseMask))
    && asciiEqualFold s' t'
  | _, _ => false
  end.

Fixpoint equalFoldRight (s t : string) : bool :=
  match s with
  | EmptyString => String.eqb t ""
  | String a s' =>
    match t with
    | EmptyString => false
    | String b t' =>
      let sb := byte_val a in
      let tb := byte_val b in
      if tb <? utf8.RuneSelf then
        (if sb =? tb then true
         else
           let sbUpper := Z.land sb caseMask in
           (0x41 <=? sbUpper) && (sbUpper <=? 0x5A)
           && (sbUpper =? Z.land tb caseMask))
        && equalFoldRight s' t'
      else
        let '(tr, size) := utf8.DecodeRuneInString t in
        (if (sb =? 0x73) || (sb =? 0x53) then tr =? smallLongEss
         else if (sb =? 0x6B) || (sb =? 0x4B) then tr =? kelvin
         else false)
        && equalFoldRight s' (sdrop size t)
    end
  end.

(** [foldFunc]: names with a non-ASCII byte get [bytes.EqualFold] (no field
    of this package has one; the case stands for exact equality here), names
    with a [k] or an [s] get [equalFoldRight], names with a non-letter
    [asciiEqualFold], all others [simpleLetterEqualFold]. *)
Definition foldFunc (name : string) : string → string → bool :=
  let bs := List.map byte_val (list_ascii_of_string name) in
  if existsb (λ b, utf8.RuneSelf <=? b) bs then String.eqb
  else if existsb (λ b, let u := Z.land b caseMask in (u =? 0x4B) || (u =? 0x53)) bs
  then equalFoldRight
  else if existsb (λ b, let u := Z.land b caseMask in (u <? 0x41) || (0x5A <? u)) bs
  then asciiEqualFold
  else simpleLetterEqualFold.

(** The field a key of the input selects, among the fields in declaration
    order. *)
Definition find_field {F : Type} (fields : list (string * F)) (key : string) : option F :=
  match List.find (λ nf, String.eqb (fst nf) key) fields with
  | Some nf => Some (snd nf)
  | None =>
    match List.find (λ nf, foldFunc (fst nf) (fst nf) key) fields with
    | Some nf => Some (snd nf)
    | None => None
    end
  end.

(** A string target: a JSON string is stored, [null] changes nothing, any
    other value is a type error. *)
Definition decode_string (v : value) (old : string) : string * option error :=
  match v with
  | JString s => (s, None)
  | JNull => (old, None)
  | _ => (old, Some json_UnmarshalTypeError)
  end.

Inductive PropertyField : Type := fPName | fPValue.

Definition Property_fields : list (string * PropertyField) :=
  [("name", fPName); ("value", fPValue)].

Definition decode_Property_member (acc : Property * option error) (kv : string * value)
  : Property * option error :=
  let '(p, err) := acc in
  match find_field Property_fields (fst kv) with
  | None => acc
  | Some fPName =>
    let '(s, e) := decode_string (snd kv) (Property.Name p) in
    (Property.mk s (Property.Value p), saveError err e)
  | Some fPValue =>
    let '(s, e) := decode_string (snd kv) (Property.Value p) in
    (Property.mk (Property.Name p) s, saveError err e)
  end.

(** A struct target: the members of an object are stored one after the
    other into the fields they select, unknown keys are skipped; [null]
    changes nothing. *)
Definition decode_Property (v : value) (old : Property) : Property * option error :=
  match v with
  | JObject ms => fold_left decode_Property_member ms (old, None)
  | JNull => (old, None)
  | _ => (old, Some json_UnmarshalTypeError)
  end.

Definition Property_zero : Property := Property.mk "" "".

(** The elements of an array are decoded one after the other into the
    elements of the slice's backing array, and into zero values past its
    end, where the slice has grown. *)
Fixpoint decode_elems (l : list value) (backing : list Property) (err : option error)
  : list Property * option error :=
  match l with
  | [] => ([], err)
  | v :: l' =>
    let '(p, e) := decode_Property v (hd Property_zero backing) in
    let '(ps, err') := decode_elems l' (tl backing) (saveError err e) in
    (p :: ps, err')
  end.

(** A slice target.  An array with elements sets the slice to them, in the
    backing array it has: its own elements, then those that an earlier,
    longer value has left behind its end ([spare]); what the array does not
    reach stays behind the new end.  The array without elements sets the
    slice to a new empty slice, which is not nil; [null] sets it to nil.
    Any other value is a type error and changes nothing. *)
Definition decode_Properties (v : value) (old : option (list Property))
  (spare : list Property) : option (list Property) * list Property * option error :=
  match v with
  | JArray [] => (Some [], [], None)
  | JArray l =>
    let backing := (default [] old ++ spare)%list in
    let '(ps, err) := decode_elems l backing None in
    (Some ps, skipn (length l) backing, err)
  | JNull => (None, [], None)
  | _ => (old, spare, Some json_UnmarshalTypeError)
  end.

Inductive ProductField : Type :=
  fID | fType | fBrand | fName | fUnit | fQuantity | fPrice | fProperties.

Definition Product_fields : list (string * ProductField) :=
  [ ("id", fID); ("type", fType); ("brand", fBrand); ("name", fName);
    ("unit", fUnit); ("quantity", fQuantity); ("price", fPrice);
    ("properties", fProperties) ].

Definition get_string_field (f : ProductField) (p : Product) : string :=
  match f with
  | fID => Product.ID p
  | fType => Product.Type_ p
  | fBrand => Product.Brand p
  | fName => Product.Name p
  | fUnit => Product.Unit p
  | fQuantity => Product.Quantity p
  | fPrice => Product.Price p
  | fProperties => ""
  end.

Definition set_string_field (f : ProductField) (s : string) (p : Product) : Product :=
  let '(Product.mk id ty br na un qu pr ps) := p in
  match f with
  | fID => Product.mk s ty br na un qu pr ps
  | fType => Product.mk id s br na un qu pr ps
  | fBrand => Product.mk id ty s na un qu pr ps
  | fName => Product.mk id ty br s un qu pr ps
  | fUnit => Product.mk id ty br na s qu pr ps
  | fQuantity => Product.mk id ty br na un s pr ps
  | fPrice => Product.mk id ty br na un qu s ps
  | fProperties => p
  end.

Definition set_Properties (l : option (list Property)) (p : Product) : Product :=
  let '(Product.mk id ty br na un qu pr _) := p in
  Product.mk id ty br na un qu pr l.

(** One member of an object stored into a [Product]: the product so far,
    what lies behind the end of its slice, and the error saved. *)
Definition decode_Product_member (acc : Product * list Property * option error)
  (kv : string * value) : Product * list Property * option error :=
  let '(p, spare, err) := acc in
  match find_field Product_fields (fst kv) with
  | None => acc
  | Some fProperties =>
    let '(l, spare', e) := decode_Properties (snd kv) (Product.Properties p) spare in
    (set_Properties l p, spare', saveError err e)
  | Some f =>
    let '(s, e) := decode_string (snd kv) (get_string_field f p) in
    (set_string_field f s p, spare, saveError err e)
  end.

(** The slice of the target is taken to have no capacity beyond its length,
    as the slice of the zero [Product] and a slice literal have. *)
Definition decode_Product (v : value) (old : Product) : Product * option error :=
  match v with
  | JObject ms =>
    let '(p, _, err) := fold_left decode_Product_member ms (old, [], None) in
    (p, err)
  | JNull => (old, None)
  | _ => (old, Some json_UnmarshalTypeError)
  end.

(** A map target: a nil map is made first; every member is decoded into a
    fresh zero [Product] and stored under its key, a later member replacing
    an earlier one with the same key; [null] sets the map to nil. *)
Definition decode_map_member (acc : gmap string Product * option error)
  (kv : string * value) : gmap string Product * option error :=
  let '(m, err) := acc in
  let '(p, e) := decode_Product (snd kv) Product.zero in
  (<[fst kv := p]> m, saveError err e).

Definition decode_map (v : value) (old : Products) : Products * option error :=
  match v with
  | JObject ms =>
    let '(m, err) := fold_left decode_map_member ms (entries old, None) in
    (Some m, err)
  | JNull => (None, None)
  | _ => (old, Some json_UnmarshalTypeError)
  end.

(** [json.Unmarshal(data, &target)]: nothing is stored unless the whole
    input is valid; the result is the target afterwards and the error. *)
Definition Unmarshal {A : Type} (decode : value → A → A * option error)
  (data : string) (target : A) : A * option error :=
  match parse data with
  | None => (target, Some json_SyntaxError)
  | Some v => decode v target
  end.

Definition Unmarshal_Product : string → Product → Product * option error :=
  Unmarshal decode_Product.

Definition Unmarshal_map : string → Products → Products * option error :=
  Unmarshal decode_map.

End json.

(** ** The custom codec of [Products] *)

(** [func (p Products) MarshalJSON() ([]byte, error)]: the map is converted
    to [ProductsAlias], the same map type without methods, and marshalled. *)
Definition MarshalJSON (p : Products) : string * option error :=
  let pa := p in
  let '(data, err) := json.Marshal_map pa in
  match err with
  | Some e => ("", Some e)
  | None => (data, None)
  end.

(** [func (p *Products) UnmarshalJSON(data []byte) error]: the result is
    [*p] afterwards and the error. *)
Definition UnmarshalJSON (data : string) (p : Products) : Products * option error :=
  let pa : Products := None in
  let '(pa, err) := json.Unmarshal_map data pa in
  match err with
  | Some e => (p, Some e)
  | None => (pa, None)
  end.

(** ** time.ParseDuration and the construction of the server

    [time.ParseDuration] works on unsigned 64-bit integers, except for the
    contribution of a fractional part, [uint64(float64(f) * (float64(unit) /
    scale))], which it computes in floating point.  That one computation is
    a parameter of this section, [float_frac f unit scale], with [scale] the
    power of ten reached; everything else is as in the library. *)

Definition Nanosecond : Z := 1.
Definition Microsecond : Z := 1000 * Nanosecond.
Definition Millisecond : Z := 1000 * Microsecond.
Definition Second : Z := 1000 * Millisecond.
Definition Minute : Z := 60 * Second.
Definition Hour : Z := 60 * Minute.

Definition uint64 (z : Z) : Z := z mod 2 ^ 64.

(** [var unitMap] *)
Definition unitMap (u : string) : option Z :=
  if String.eqb u "ns" then Some Nanosecond
  else if String.eqb u "us" then Some Microsecond
  else if String.eqb u "µs" then Some Microsecond
  else if String.eqb u "μs" then Some Microsecond
  else if String.eqb u "ms" then Some Millisecond
  else if String.eqb u "s" then Some Second
  else if String.eqb u "m" then Some Minute
  else if String.eqb u "h" then Some Hour
  else None.

(** [func leadingInt(s) (x uint64, rem, err)], from the value [x] read so
    far; [None] is [errLeadingInt]. *)
Fixpoint leadingInt (x : Z) (s : string) : option (Z * string) :=
  match s with
  | EmptyString => Some (x, s)
  | String c r =>
    if negb (json.is_digit c) then Some (x, s)
    else if 2 ^ 63 / 10 <? x then None
    else
      let x' := x * 10 + (byte_val c - 0x30) in
      if 2 ^ 63 <? x' then None else leadingInt x' r
  end.

(** [func leadingFraction(s) (x uint64, scale float64, rem string)] *)
Fixpoint leadingFraction (x scale : Z) (overflow : bool) (s : string) : Z * Z * string :=
  match s with
  | EmptyString => (x, scale, s)
  | String c r =>
    if negb (json.is_digit c) then (x, scale, s)
    else if overflow then leadingFraction x scale true r
    else if (2 ^ 63 - 1) / 10 <? x then leadingFraction x scale true r
    else
      let y := x * 10 + (byte_val c - 0x30) in
      if 2 ^ 63 <? y then leadingFraction x scale true r
      else leadingFraction y (scale * 10) false r
  end.

(** The unit: the bytes up to the next digit or point. *)
Fixpoint span_unit (s : string) : string * string :=
  match s with
  | EmptyString => ("", "")
  | String c r =>
    if (byte_val c =? 0x2E) || json.is_digit c then ("", s)
    else let '(u, r') := span_unit r in (String c u, r')
  end.

Section Construction.

Variable float_frac : Z → Z → Z → Z.

(** The main loop of [ParseDuration]: [d] is the sum so far.  Every
    round consumes a unit, one byte at least, so the length of [s] bounds
    the rounds. *)
Fixpoint duration_loop (n : nat) (orig : string) (d : Z) (s : string) : Z + error :=
  match s with
  | EmptyString => inl d
  | String c0 _ =>
    match n with
    | O => inr (time_InvalidDuration orig)
    | S n' =>
      if negb ((byte_val c0 =? 0x2E) || json.is_digit c0) then inr (time_InvalidDuration orig)
      else
        match leadingInt 0 s with
        | None => inr (time_InvalidDuration orig)
        | Some (v, s1) =>
          let pre := negb (String.length s =? String.length s1)%nat in
          let '(f, scale, s2, post) :=
            match s1 with
            | String c1 r1 =>
              if byte_val c1 =? 0x2E then
                let '(f, scale, s2) := leadingFraction 0 1 false r1 in
                (f, scale, s2, negb (String.length r1 =? String.length s2)%nat)
              else (0, 1, s1, false)
            | EmptyString => (0, 1, s1, false)
            end in
          if negb pre && negb post then inr (time_InvalidDuration orig)
          else
            let '(u, s3) := span_unit s2 in
            if String.eqb u "" then inr (time_MissingUnit orig)
            else
              match unitMap u with
              | None => inr (time_UnknownUnit u orig)
              | Some unit =>
                if 2 ^ 63 / unit <? v then inr (time_InvalidDuration orig)
                else
                  let v := v * unit in
                  let v' := if 0 <? f then uint64 (v + float_frac f unit scale) else v in
                  if (0 <? f) && (2 ^ 63 <? v') then inr (time_InvalidDuration orig)
                  else
                    let d' := uint64 (d + v') in
                    if 2 ^ 63 <? d' then inr (time_InvalidDuration orig)
                    else duration_loop n' orig d' s3
              end
        end
    end
  end.

(** [func ParseDuration(s string) (Duration, error)] *)
Definition ParseDuration (s : string) : Z * option error :=
  let orig := s in
  let '(neg, s) :=
    match s with
    | String c r =>
      if (byte_val c =? 0x2D) || (byte_val c =? 0x2B) then (byte_val c =? 0x2D, r)
      else (false, s)
    | EmptyString => (false, s)
    end in
  if String.eqb s "0" then (0, None)
  else if String.eqb s "" then (0, Some (time_InvalidDuration orig))
  else
    match duration_loop (String.length s) orig 0 s with
    | inr e => (0, Some e)
    | inl d =>
      if neg then (- d, None)
      else if 2 ^ 63 - 1 <? d then (0, Some (time_InvalidDuration orig))
      else (d, None)
    end.

(** The process environment read by [os.LookupEnv]. *)
Definition Env : Type := gmap string string.

(** A call returns, or panics with the value given to [panic]. *)
Inductive outcome (A : Type) : Type :=
  | Return (a : A)
  | Panic (e : error).
Arguments Return {A} a.
Arguments Panic {A} e.

(** [func latencyFromEnv(key, fallback string) time.Duration] *)
Definition latencyFromEnv (env : Env) (key fallback : string) : outcome Z :=
  match env !! key with
  | Some value =>
    let '(v, err) := ParseDuration value in
    match err with
    | Some e => Panic e
    | None => Return v
    end
  | None =>
    let '(value, err) := ParseDuration fallback in
    match err with
    | Some e => Panic e
    | None => Return value
    end
  end.

(** [type Server struct] with the fields of [*http.Server] that [New]
    sets.  [S] is the type of the store behind the [Store] interface. *)
Record HTTPServer : Type := {
  Addr : string;
  ReadTimeout : Z;
  WriteTimeout : Z
}.

Record Server (S : Type) : Type := {
  HTTPServer_ : HTTPServer;
  URL : string;
  Latency : Z;
  Store_ : S
}.
Arguments HTTPServer_ {S} _.
Arguments URL {S} _.
Arguments Latency {S} _.
Arguments Store_ {S} _.

(** [type option func(s *Server) error]: the server afterwards and the error. *)
Definition option_ (S : Type) : Type := Server S → Server S * option error.

(** [func WithLatency(latency string) option] *)
Definition WithLatency {S : Type} (latency : string) : option_ S :=
  λ s,
    let '(v, err) := ParseDuration latency in
    match err with
    | Some e => (s, Some e)
    | None =>
      ({| HTTPServer_ := HTTPServer_ s; URL := URL s; Latency := v; Store_ := Store_ s |},
       None)
    end.

(** [func New(addr string, store Store, options ...option) *Server]: the
    options are applied in order and what each returns is dropped. *)
Definition New {S : Type} (env : Env) (addr : string) (store : S)
  (options : list (option_ S)) : outcome (Server S) :=
  match latencyFromEnv env "COFFEESHOP_LATENCY" "100ms" with
  | Panic e => Panic e
  | Return latency =>
    let srv := {| HTTPServer_ := {| Addr := addr;
                                    ReadTimeout := 30 * Second;
                                    WriteTimeout := 30 * Second |};
                  URL := "http://" ++ addr ++ "/";
                  Latency := latency;
                  Store_ := store |} in
    Return (fold_left (λ srv (o : option_ S), fst (o srv)) options srv)
  end.

End Construction.

Arguments Return {A} a.
Arguments Panic {A} e.
Arguments HTTPServer_ {S} _.
Arguments URL {S} _.
Arguments Latency {S} _.
Arguments Store_ {S} _.

(** The fraction computed exactly: the integer part of [f * unit / scale].
    It stands for the floating-point computation where a run of the model
    needs one. *)
Definition exact_frac (f unit scale : Z) : Z := f * unit / scale.

(** ** net/http: requests, the response writer, [http.Error] *)

Definition StatusOK : Z := 200.
Definition StatusNotFound : Z := 404.
Definition StatusMethodNotAllowed : Z := 405.
Definition StatusInternalServerError : Z := 500.
Definition StatusGatewayTimeout : Z := 504.

(** A request as the handlers see it: the method, the path that is routed,
    the deadline of its context if it has one, and the URL parameters that
    the router has bound. *)
Record Request : Type := {
  Method : string;
  Path : string;
  Deadline : option Z;
  URLParams : list (string * string)
}.

(** [http.ResponseWriter]: the header map the handler works on; whether the
    status line has been written, and then the status and the copy of the
    header map written with it; the body written.  net/http holds what is
    written in its buffers until the handler has returned: whether it
    reaches the client is [delivered]. *)
Record ResponseWriter : Type := {
  Header : gmap string (list string);
  wroteHeader : bool;
  status : Z;
  sentHeader : gmap string (list string);
  body : string
}.

Definition new_ResponseWriter : ResponseWriter :=
  {| Header := ∅; wroteHeader := false; status := 0; sentHeader := ∅; body := "" |}.

(** What a handler runs in: the clock (nanoseconds), the response writer,
    whether the response writer takes what is written to it, the write
    deadline of the connection if it has one, the order of this request's
    range over the store's map, and the store that [cs.Store] points to. *)
Record HState (S : Type) : Type := {
  now : Z;
  w : ResponseWriter;
  conn_ok : bool;
  writeDeadline : option Z;
  order : MapOrder;
  store : S
}.
Arguments now {S} _.
Arguments w {S} _.
Arguments conn_ok {S} _.
Arguments writeDeadline {S} _.
Arguments order {S} _.
Arguments store {S} _.

Definition set_w {S : Type} (f : ResponseWriter → ResponseWriter) (st : HState S) : HState S :=
  {| now := now st; w := f (w st); conn_ok := conn_ok st; writeDeadline := writeDeadline st;
     order := order st; store := store st |}.

Definition set_now {S : Type} (t : Z) (st : HState S) : HState S :=
  {| now := t; w := w st; conn_ok := conn_ok st; writeDeadline := writeDeadline st;
     order := order st; store := store st |}.

Definition set_store {S : Type} (s : S) (st : HState S) : HState S :=
  {| now := now st; w := w st; conn_ok := conn_ok st; writeDeadline := writeDeadline st;
     order := order st; store := s |}.

(** net/http's [conn.readRequest]: when the header of a request has been
    read, the write deadline of the connection is set to [WriteTimeout]
    from then, if [WriteTimeout] is positive. *)
Definition SetWriteDeadline (srv : HTTPServer) (t0 : Z) : option Z :=
  if 0 <? WriteTimeout srv then Some (t0 + WriteTimeout srv) else None.

(** net/http's [finishRequest]: what the handler has written is buffered and
    goes out when the handler has returned.  It reaches the client when the
    connection takes it and the write deadline has not passed by then. *)
Definition delivered {S : Type} (st : HState S) : bool :=
  conn_ok st
  && match writeDeadline st with
     | Some d => now st <? d
     | None => true
     end.

Definition Handler (S : Type) : Type := Request → HState S → HState S.

(** [w.Header().Set(key, value)] *)
Definition Header_Set (key value : string) (rw : ResponseWriter) : ResponseWriter :=
  {| Header := <[key := [value]]> (Header rw); wroteHeader := wroteHeader rw;
     status := status rw; sentHeader := sentHeader rw; body := body rw |}.

(** [w.WriteHeader(code)]: the first call writes the status line with a copy
    of the header map; a later call is superfluous and changes nothing. *)
Definition WriteHeader (code : Z) (rw : ResponseWriter) : ResponseWriter :=
  if wroteHeader rw then rw
  else {| Header := Header rw; wroteHeader := true; status := code;
          sentHeader := Header rw; body := body rw |}.

Definition bodyAllowedForStatus (code : Z) : bool :=
  negb (((100 <=? code) && (code <=? 199)) || (code =? 204) || (code =? 304)).

(** [w.Write(data)]: writes the status line with [StatusOK] if none has been
    written, then the data; fails when the status allows no body, or when
    the response writer takes no write.  net/http buffers what a handler
    writes and passes it on when its buffers are full: a write that it
    passes on to a connection that is broken, or whose write deadline has
    passed, fails, and is the case [conn_ok = false]. *)
Definition Write {S : Type} (data : string) (st : HState S) : HState S * option error :=
  let st := set_w (WriteHeader StatusOK) st in
  if negb (bodyAllowedForStatus (status (w st))) then
    (st, Some (errors_New "http: request method or response status code does not allow body"))
  else if conn_ok st then
    (set_w (λ rw, {| Header := Header rw; wroteHeader := wroteHeader rw; status := status rw;
                     sentHeader := sentHeader rw; body := body rw ++ data |}) st, None)
  else (st, Some (errors_New "write: broken pipe")).

(** [func Error(w ResponseWriter, error string, code int)]: a plain-text
    content type, the status, and the message as a line. *)
Definition http_Error {S : Type} (msg : string) (code : Z) (st : HState S) : HState S :=
  let st := set_w (Header_Set "Content-Type" "text/plain; charset=utf-8") st in
  let st := set_w (Header_Set "X-Content-Type-Options" "nosniff") st in
  let st := set_w (WriteHeader code) st in
  fst (Write (msg ++ lf) st).

(** [func NotFound(w ResponseWriter, r *Request)] *)
Definition http_NotFound {S : Type} : Handler S :=
  λ r st, http_Error "404 page not found" StatusNotFound st.

(** ** The middlewares *)

(** [time.Sleep(d)] pauses for at least [d]; the least pause is taken. *)
Definition time_Sleep {S : Type} (d : Z) (st : HState S) : HState S :=
  set_now (now st + Z.max d 0) st.

(** [func Delay(d time.Duration) func(next http.Handler) http.Handler] *)
Definition Delay {S : Type} (d : Z) (next : Handler S) : Handler S :=
  λ r st,
    let st := time_Sleep d st in
    next r st.

(** chi's [middleware.Timeout(timeout)]: gives the request a context that
    ends [timeout] from now, runs [next], and afterwards, when the deadline
    has passed, calls [w.WriteHeader(StatusGatewayTimeout)].  It relies on
    [next] to watch the context: it stops nothing itself. *)
Definition middleware_Timeout {S : Type} (timeout : Z) (next : Handler S) : Handler S :=
  λ r st,
    let deadline := match Deadline r with
                    | Some d0 => Z.min d0 (now st + timeout)
                    | None => now st + timeout
                    end in
    let r := {| Method := Method r; Path := Path r; Deadline := Some deadline;
                URLParams := URLParams r |} in
    let st := next r st in
    if deadline <=? now st then set_w (WriteHeader StatusGatewayTimeout) st else st.

(** chi's [middleware.SetHeader(key, value)] *)
Definition middleware_SetHeader {S : Type} (key value : string) (next : Handler S) : Handler S :=
  λ r st, next r (set_w (Header_Set key value) st).

(** ** The handlers *)

(** [chi.URLParam(r, key)]: the last value bound to [key], or the empty
    string. *)
Definition URLParam (r : Request) (key : string) : string :=
  match List.find (λ kv, String.eqb (fst kv) key) (rev (URLParams r)) with
  | Some kv => snd kv
  | None => ""
  end.

Section Handlers.

Context {S : Type} `{Store S}.

(** [func (cs *Server) GetProducts(w http.ResponseWriter, r *http.Request)] *)
Definition GetProducts (cs : Server S) : Handler S :=
  λ r st,
    let '(products, s') := Store_GetAll (order st) (store st) in
    let st := set_store s' st in
    let '(data, err) := json.MarshalIndent_list products "" "  " in
    match err with
    | Some _ => set_w (WriteHeader StatusInternalServerError) st
    | None =>
      let '(st, err) := Write data st in
      match err with
      | Some _ => http_Error "internal error" StatusInternalServerError st
      | None => st
      end
    end.

(** [func (cs *Server) GetProduct(w http.ResponseWriter, r *http.Request)] *)
Definition GetProduct (cs : Server S) : Handler S :=
  λ r st,
    let productID := URLParam r "productID" in
    let '((product, err), s') := Store_GetProduct productID (store st) in
    let st := set_store s' st in
    match err with
    | Some _ => http_Error "product not found" StatusNotFound st
    | None =>
      let '(data, err) := json.Marshal_Product product in
      match err with
      | Some _ => http_Error "internal error" StatusInternalServerError st
      | None =>
        let '(st, err) := Write data st in
        match err with
        | Some _ => http_Error "internal error" StatusInternalServerError st
        | None => st
        end
      end
    end.

(** ** The router *)

(** The methods chi knows ([methodMap]). *)
Definition methodMap : list string :=
  ["CONNECT"; "DELETE"; "GET"; "HEAD"; "OPTIONS"; "PATCH"; "POST"; "PUT"; "TRACE"].

(** chi's default handler for a method that is not allowed. *)
Definition methodNotAllowedHandler : Handler S :=
  λ r st,
    let st := set_w (WriteHeader StatusMethodNotAllowed) st in
    fst (Write "" st).

Fixpoint has_slash (s : string) : bool :=
  match s with
  | EmptyString => false
  | String c r => (byte_val c =? 0x2F) || has_slash r
  end.

(** The patterns registered by [ListenAndServe], as chi's tree matches
    them: [/products], and [/products/{productID}] where the parameter is
    one path segment, not empty. *)
Inductive Route : Type :=
  | RouteProducts
  | RouteProduct (productID : string)
  | NoRoute.

Definition FindRoute (path : string) : Route :=
  if String.eqb path "/products" then RouteProducts
  else
    match json.strip_prefix "/products/" path with
    | Some rest =>
      if String.eqb rest "" || has_slash rest then NoRoute else RouteProduct rest
    | None => NoRoute
    end.

(** chi's [func (mx *Mux) routeHTTP], with the two routes of this server,
    both registered for GET. *)
Definition routeHTTP (cs : Server S) : Handler S :=
  λ r st,
    let routePath := if String.eqb (Path r) "" then "/" else Path r in
    if negb (existsb (String.eqb (Method r)) methodMap) then methodNotAllowedHandler r st
    else
      match FindRoute routePath with
      | RouteProducts =>
        if String.eqb (Method r) "GET" then GetProducts cs r st
        else methodNotAllowedHandler r st
      | RouteProduct id =>
        if String.eqb (Method r) "GET" then
          GetProduct cs {| Method := Method r; Path := Path r; Deadline := Deadline r;
                           URLParams := URLParams r ++ [("productID", id)] |} st
        else methodNotAllowedHandler r st
      | NoRoute => http_NotFound r st
      end.

(** [func (cs *Server) ListenAndServe() error]: the handler it installs in
    [cs.HTTPServer].  The middlewares given to [mux.Use] wrap the router, the
    first outermost.  Accepting connections is not part of the model. *)
Definition ListenAndServe (cs : Server S) : Handler S :=
  middleware_Timeout (120 * Second)
    (middleware_SetHeader "Content-Type" "application/json; charset=utf-8"
       (Delay (Latency cs) (routeHTTP cs))).

(** A request served from start to end by [cs.HTTPServer], from the time
    [t0] when its header has been read: the write deadline of the
    connection, a fresh response writer, the installed handler, and the
    implicit [StatusOK] of a handler that returns without having written.
    What the state holds at the end is what net/http then sends, if it can
    ([delivered]). *)
Definition serve (cs : Server S) (r : Request) (t0 : Z) (conn : bool) (o : MapOrder)
  : HState S :=
  let st := {| now := t0; w := new_ResponseWriter; conn_ok := conn;
               writeDeadline := SetWriteDeadline (HTTPServer_ cs) t0; order := o;
               store := Store_ cs |} in
  let st := ListenAndServe cs r st in
  set_w (WriteHeader StatusOK) st.

End Handlers.

(** The first value of a header of the response that went out. *)
Definition response_header (key : string) (rw : ResponseWriter) : string :=
  match sentHeader rw !! key with
  | Some (v :: _) => v
  | _ => ""
  end.

(** A request from the network: no deadline, no parameter bound yet. *)
Definition request (method path : string) : Request :=
  {| Method := method; Path := path; Deadline := None; URLParams := [] |}.

(** [func Run() error]: the server it creates, before it starts serving. *)
Definition Run (float_frac : Z → Z → Z → Z) (env : Env) : outcome (Server MemoryStore) :=
  let store := seeded_store in
  let addr := ":" ++ "8088" in
  New float_frac env addr store [].

(** ** Scenarios used by the statements below *)

(** A sequence of calls on a [MemoryStore], each with the order of its own
    range over the map. *)
Inductive call : Type :=
  | Call_GetAll (o : MapOrder)
  | Call_GetProduct (id : string).

Definition run_call (ms : MemoryStore) (c : call) : MemoryStore :=
  match c with
  | Call_GetAll o => snd (MemoryStore.GetAll o ms)
  | Call_GetProduct id => snd (MemoryStore.GetProduct id ms)
  end.

Definition run_calls (cs : list call) (ms : MemoryStore) : MemoryStore :=
  fold_left run_call cs ms.

(** The server of [Run] when [COFFEESHOP_LATENCY] is not set. *)
Definition default_server : Server MemoryStore :=
  {| HTTPServer_ := {| Addr := ":8088"; ReadTimeout := 30 * Second; WriteTimeout := 30 * Second |};
     URL := "http://:8088/";
     Latency := 100 * Millisecond;
     Store_ := seeded_store |}.

(** The server over the seeded store with the latency [latency]. *)
Definition seeded_server (latency : Z) : Server MemoryStore :=
  {| HTTPServer_ := {| Addr := ":8088"; ReadTimeout := 30 * Second; WriteTimeout := 30 * Second |};
     URL := "http://:8088/";
     Latency := latency;
     Store_ := seeded_store |}.

(** The same server with a latency of 150 seconds. *)
Definition slow_server : Server MemoryStore :=
  {| HTTPServer_ := HTTPServer_ default_server;
     URL := URL default_server;
     Latency := 150 * Second;
     Store_ := seeded_store |}.

(** The first product of the seed inventory. *)
Definition product_1 : Product :=
  Product.mk "1" "Coffee" "Segafredo" "Intermezzo" "gram" "1000" "7.99"
    (Some [ Property.mk "flavour"
              "Acidic Robusta, Nuts, Aromatic Arabica, Caramel, Medium roasted beans";
            Property.mk "property" "1000 grams, Arabica/Robusta";
            Property.mk "intensity" "" ]).

(** The chain of [ListenAndServe] without its request-timeout guard: what
    the content-type setter, the delay and the router do on their own. *)
Definition serve_unguarded {S : Type} `{Store S} (cs : Server S) (r : Request) (t0 : Z)
  (conn : bool) (o : MapOrder) : HState S :=
  let st := {| now := t0; w := new_ResponseWriter; conn_ok := conn;
               writeDeadline := SetWriteDeadline (HTTPServer_ cs) t0; order := o;
               store := Store_ cs |} in
  let st := middleware_SetHeader "Content-Type" "application/json; charset=utf-8"
              (Delay (Latency cs) (routeHTTP cs)) r st in
  set_w (WriteHeader StatusOK) st.

Definition json_content_type : string := "application/json; charset=utf-8".
Definition text_content_type : string := "text/plain; charset=utf-8".

(** What a handler runs in when it is called on its own, with a fresh
    response writer and no write deadline. *)
Definition start {S : Type} (t0 : Z) (conn : bool) (o : MapOrder) (s : S) : HState S :=
  {| now := t0; w := new_ResponseWriter; conn_ok := conn; writeDeadline := None; order := o;
     store := s |}.

(** A request as the router hands it to the single-item handler, with
    [productID] bound to [id]. *)
Definition single_item_request (id : string) : Request :=
  {| Method := "GET"; Path := "/products/" ++ id; Deadline := None;
     URLParams := [("productID", id)] |}.

(** What every handler of this server does to a response that has not
    started: it sends the status line, takes no time, and answers 200, 404
    or 405; a 404 goes out as plain text, the others with the content type
    the header map had. *)
Definition answers (S : Type) (h : Handler S) : Prop :=
  ∀ r st, wroteHeader (w st) = false →
    let st' := h r st in
    wroteHeader (w st') = true
    ∧ now st' = now st
    ∧ (status (w st') = StatusOK ∨ status (w st') = StatusNotFound
       ∨ status (w st') = StatusMethodNotAllowed)
    ∧ sentHeader (w st') !! "Content-Type"
      = (if status (w st') =? StatusNotFound then Some [text_content_type]
         else Header (w st) !! "Content-Type").

(** ** Well-formed JSON values

    [value_ok d j]: [j] holds no number, every string and key in it is valid
    UTF-8, and with [d] arrays and objects open around it, it stays within
    the nesting the scanner allows. *)
Fixpoint value_ok (d : Z) (j : json.value) : bool :=
  match j with
  | json.JNull | json.JBool _ => true
  | json.JNumber _ => false
  | json.JString s => utf8.ValidString s
  | json.JArray l => (d + 1 <=? json.maxNestingDepth) && forallb (value_ok (d + 1)) l
  | json.JObject l =>
    (d + 1 <=? json.maxNestingDepth)
    && forallb (λ kv, utf8.ValidString (fst kv) && value_ok (d + 1) (snd kv)) l
  end.

Fixpoint value_size (j : json.value) : nat :=
  match j with
  | json.JArray l => S (list_sum (List.map (λ x, S (value_size x)) l))
  | json.JObject l => S (list_sum (List.map (λ kv, S (value_size (snd kv))) l))
  | _ => 1%nat
  end.

(** The strings of a product, of a mapping: all valid UTF-8. *)
Definition valid_Property (p : Property) : bool :=
  utf8.ValidString (Property.Name p) && utf8.ValidString (Property.Value p).

Definition valid_Product (p : Product) : bool :=
  utf8.ValidString (Product.ID p) && utf8.ValidString (Product.Type_ p)
  && utf8.ValidString (Product.Brand p) && utf8.ValidString (Product.Name p)
  && utf8.ValidString (Product.Unit p) && utf8.ValidString (Product.Quantity p)
  && utf8.ValidString (Product.Price p)
  && forallb valid_Property (default [] (Product.Properties p)).

Definition valid_Products (m : Products) : bool :=
  forallb (λ kp, utf8.ValidString (fst kp) && valid_Product (snd kp)) (map_to_list (entries m)).

(** The keys of a JSON object. *)
Definition object_keys (j : json.value) : list string :=
  match j with
  | json.JObject l => List.map fst l
  | _ => []
  end.

(** A product whose identifier is the single byte 0xFF, which is not valid
    UTF-8, and what it comes back as. *)
Definition odd_product : Product :=
  Product.mk (utf8.bytes [0xFF]) "" "" "" "" "" "" None.

Definition odd_product_back : Product :=
  Product.mk (utf8.bytes [0xEF; 0xBF; 0xBD]) "" "" "" "" "" "" None.

(** What a slice comes back as from JSON that left it out when it was
    empty: the empty slice comes back nil, any other as it was. *)
Definition nil_if_empty {A : Type} (s : option (list A)) : option (list A) :=
  match s with
  | Some [] => None
  | _ => s
  end.

(** The product with the empty slice of its properties made nil. *)
Definition nil_if_empty_Product (p : Product) : Product :=
  json.set_Properties (nil_if_empty (Product.Properties p)) p.

Definition nil_if_empty_Products (m : Products) : Products :=
  fmap (M := gmap string) nil_if_empty_Product <$> m.

(** [Product{ID: "7", Properties: []Property{}}]: a product whose slice is
    empty and not nil, and the same product with a nil slice. *)
Definition empty_slice_product : Product := Product.mk "7" "" "" "" "" "" "" (Some []).

Definition nil_slice_product : Product := Product.mk "7" "" "" "" "" "" "" None.

(** A byte outside the range from [lo] to [hi]. *)
Definition out_of (lo hi : Z) (c : ascii) : bool := (byte_val c <? lo) || (hi <? byte_val c).

(** The text of one member of an object. *)
Definition member_text (kv : string * json.value) : string :=
  json.encode_string (fst kv) ++ ":" ++ json.render (snd kv).

(** ** Decimal numerals

    [string_forall f s]: every byte of [s] satisfies [f].  [decimal_value s]
    is the number that a string of decimal digits writes. *)
Fixpoint string_forall (f : ascii → bool) (s : string) : bool :=
  match s with
  | EmptyString => true
  | String c r => f c && string_forall f r
  end.

Fixpoint decimal_from (x : Z) (s : string) : Z :=
  match s with
  | EmptyString => x
  | String c r => decimal_from (x * 10 + (byte_val c - 0x30)) r
  end.

Definition decimal_value (s : string) : Z := decimal_from 0 s.

(** A server with another latency, all else the same. *)
Definition set_Latency {S : Type} (d : Z) (s : Server S) : Server S :=
  {| HTTPServer_ := HTTPServer_ s; URL := URL s; Latency := d; Store_ := Store_ s |}.

(** ** What goes out

    The part of a response writer that the client sees when the response
    is delivered: the status, the header map written with it, and the
    body. *)
Definition response (rw : ResponseWriter) : Z * gmap string (list string) * string :=
  (status rw, sentHeader rw, body rw).

(** The header map as the content-type setter leaves it, and as [http.Error]
    leaves it after that. *)
Definition json_headers : gmap string (list string) :=
  <["Content-Type" := ["application/json; charset=utf-8"]]> ∅.

Definition error_headers : gmap string (list string) :=
  <["X-Content-Type-Options" := ["nosniff"]]>
    (<["Content-Type" := ["text/plain; charset=utf-8"]]> json_headers).

(** The bytes that a response writer takes: all of them, or none when it
    takes no write. *)
Definition sent (conn : bool) (data : string) : string := if conn then data else "".

(** The path that chi routes: [/] for the empty path. *)
Definition routePath (r : Request) : string :=
  if String.eqb (Path r) "" then "/" else Path r.

(** Whether chi knows the method of a request. *)
Definition known_method (r : Request) : bool := existsb (String.eqb (Method r)) methodMap.

(** A handler's outcome, as far as anyone but the handler sees it: the
    response, the clock and the store; and the response has started. *)
Definition outcome_is {S : Type} (st : HState S)
  (resp : Z * gmap string (list string) * string) (t : Z) (sto : S) : Prop :=
  response (w st) = resp ∧ now st = t ∧ store st = sto ∧ wroteHeader (w st) = true.

(** ** Bytes of a response body

    [html_free c]: [c] is none of the bytes that HTML gives a meaning to
    (the angle brackets and the ampersand).  [plain_byte c]: [c] is such a
    byte and not below 0x20, the range of control bytes that JSON does not
    allow in a string.  DEL (0x7F) is a plain byte: the encoder writes it as
    it is. *)
Definition html_free (c : ascii) : bool :=
  let b := byte_val c in negb (b =? 0x3C) && negb (b =? 0x3E) && negb (b =? 0x26).

Definition plain_byte (c : ascii) : bool := html_free c && (0x20 <=? byte_val c).

(** A JSON value with no number in it: what the encoders of this package
    produce. *)
Fixpoint no_number (j : json.value) : bool :=
  match j with
  | json.JNumber _ => false
  | json.JArray l => forallb no_number l
  | json.JObject l => forallb (λ kv, no_number (snd kv)) l
  | _ => true
  end.

(** A JSON object with the key [7] twice: first with an empty object, then
    with an object that has an [id]. *)
Definition duplicate_members : string :=
  "{" ++ dq ++ "7" ++ dq ++ ":{}," ++ dq ++ "7" ++ dq ++ ":{" ++ dq ++ "id" ++ dq ++ ":"
  ++ dq ++ "x" ++ dq ++ "}}".

(** ** Strings that are not UTF-8

    What a Go string becomes when it goes through runes
    ([string([]rune(s))]), and through JSON: every byte that starts no valid
    sequence is replaced by the three bytes of U+FFFD, valid sequences stay.
    [n] bounds the number of runes. *)
Fixpoint coerce_loop (n : nat) (s : string) : string :=
  match n, s with
  | S n', String _ _ =>
    let '(r, size) := utf8.DecodeRuneInString s in
    if (r =? utf8.RuneError) && (size =? 1)%nat
    then utf8.EncodeRune utf8.RuneError ++ coerce_loop n' (sdrop 1 s)
    else stake size s ++ coerce_loop n' (sdrop size s)
  | _, _ => ""
  end.

Definition coerce_utf8 (s : string) : string := coerce_loop (String.length s) s.

Definition coerce_Property (p : Property) : Property :=
  Property.mk (coerce_utf8 (Property.Name p)) (coerce_utf8 (Property.Value p)).

(** What a product becomes when it goes through JSON: its strings coerced,
    and a slice of properties that is empty made nil. *)
Definition coerce_Product (p : Product) : Product :=
  Product.mk (coerce_utf8 (Product.ID p)) (coerce_utf8 (Product.Type_ p))
    (coerce_utf8 (Product.Brand p)) (coerce_utf8 (Product.Name p))
    (coerce_utf8 (Product.Unit p)) (coerce_utf8 (Product.Quantity p))
    (coerce_utf8 (Product.Price p))
    (List.map coerce_Property <$> nil_if_empty (Product.Properties p)).

Fixpoint coerce_value (j : json.value) : json.value :=
  match j with
  | json.JString s => json.JString (coerce_utf8 s)
  | json.JArray l => json.JArray (List.map coerce_value l)
  | json.JObject l =>
    json.JObject (List.map (λ kv, (coerce_utf8 (fst kv), coerce_value (snd kv))) l)
  | _ => j
  end.

(** [shape_ok d j]: [j] holds no number and stays within the nesting that
    the scanner allows; its strings are any bytes. *)
Fixpoint shape_ok (d : Z) (j : json.value) : bool :=
  match j with
  | json.JNull | json.JBool _ | json.JString _ => true
  | json.JNumber _ => false
  | json.JArray l => (d + 1 <=? json.maxNestingDepth) && forallb (shape_ok (d + 1)) l
  | json.JObject l =>
    (d + 1 <=? json.maxNestingDepth) && forallb (λ kv, shape_ok (d + 1) (snd kv)) l
  end.

(** * Properties *)

(** ** The store *)

Lemma inventory_keys_NoDup : NoDup (inventory_entries.*1).
Proof. apply (bool_decide_unpack _). vm_compute. reflexivity. Qed.

Lemma entries_inventory : entries inventory = list_to_map inventory_entries.
Proof. reflexivity. Qed.

Lemma inventory_to_list : map_to_list (entries inventory) ≡ₚ inventory_entries.
Proof. rewrite entries_inventory. apply map_to_list_to_map, inventory_keys_NoDup. Qed.

Lemma inventory_lookup (id : string) (p : Product) :
  entries inventory !! id = Some p ↔ (id, p) ∈ inventory_entries.
Proof.
  rewrite entries_inventory. symmetry.
  apply elem_of_list_to_map, inventory_keys_NoDup.
Qed.

Lemma maps_Values_perm (o : MapOrder) (m : Products) :
  maps_Values o m ≡ₚ (map_to_list (entries m)).*2.
Proof. unfold maps_Values, range. apply fmap_Permutation, shuffle_perm. Qed.

(** C4. [GetAll] on the seeded store returns, whatever the order of the
    range over the map, a permutation of the six products of the seed
    inventory: six products, none twice, none missing, each with its own
    identifier; it has no failing case. *)
Theorem C4_GetAll_seeded (o : MapOrder) :
  let l := fst (MemoryStore.GetAll o seeded_store) in
  l ≡ₚ inventory_entries.*2
  ∧ length l = 6%nat
  ∧ NoDup l
  ∧ NoDup (Product.ID <$> l)
  ∧ (∀ p, p ∈ l ↔ ∃ id, entries inventory !! id = Some p).
Proof.
  intros l.
  assert (Hl : l ≡ₚ inventory_entries.*2).
  { unfold l. change (fst (MemoryStore.GetAll o seeded_store)) with (maps_Values o inventory).
    rewrite maps_Values_perm, inventory_to_list. reflexivity. }
  split; [exact Hl|].
  split; [rewrite Hl; reflexivity|].
  split; [rewrite Hl; apply (bool_decide_unpack _); vm_compute; reflexivity|].
  split; [rewrite Hl; apply (bool_decide_unpack _); vm_compute; reflexivity|].
  intros p. rewrite Hl. split.
  - intros Hp. apply list_elem_of_fmap in Hp as [[id q] [-> Hq]].
    exists id. apply inventory_lookup. exact Hq.
  - intros [id Hid]. apply inventory_lookup in Hid.
    apply list_elem_of_fmap. exists (id, p). split; [reflexivity|exact Hid].
Qed.

(** C9. Whenever [MemoryStore.GetProduct] returns an error, the product
    returned with it is the zero value. *)
Theorem C9_GetProduct_error_zero (ms : MemoryStore) (id : string) (p : Product) (e : error) :
  fst (MemoryStore.GetProduct id ms) = (p, Some e) → p = Product.zero.
Proof.
  unfold MemoryStore.GetProduct. simpl.
  destruct (entries (MemoryStore.Products_ ms) !! id); intros Heq; congruence.
Qed.

Lemma C9_GetProduct_error_zero_witness :
  fst (MemoryStore.GetProduct "999" seeded_store)
  = (Product.zero, Some (errors_New "product not found"))
  ∧ Product.zero = Product.zero.
Proof.
  split; [vm_compute; reflexivity|].
  apply (C9_GetProduct_error_zero seeded_store "999" Product.zero
           (errors_New "product not found")).
  vm_compute; reflexivity.
Defined.

Lemma run_call_id (ms : MemoryStore) (c : call) : run_call ms c = ms.
Proof.
  destruct ms as [[n] m], c as [o|id]; unfold run_call; simpl;
    unfold MemoryStore.withMx, RLock, RUnlock; simpl; do 2 f_equal; lia.
Qed.

(** C10. [GetAll] and [GetProduct] leave the mapping of the store as it
    was: after any sequence of calls the mapping is the same (and so is the
    whole store, its lock released as often as taken). *)
Theorem C10_reads_leave_store (cs : list call) (ms : MemoryStore) :
  MemoryStore.Products_ (run_calls cs ms) = MemoryStore.Products_ ms
  ∧ run_calls cs ms = ms.
Proof.
  assert (H : run_calls cs ms = ms).
  { unfold run_calls. induction cs as [|c cs IH] in ms |- *; simpl; [reflexivity|].
    rewrite run_call_id. apply IH. }
  rewrite H. split; reflexivity.
Qed.

(** ** The construction of the server *)

Section ConstructionProps.

Variable float_frac : Z → Z → Z → Z.

Lemma ParseDuration_100ms : ParseDuration float_frac "100ms" = (100 * Millisecond, None).
Proof. vm_compute. reflexivity. Qed.

Lemma ParseDuration_150s : ParseDuration float_frac "150s" = (150 * Second, None).
Proof. vm_compute. reflexivity. Qed.

Lemma ParseDuration_abc :
  ParseDuration float_frac "abc" = (0, Some (time_InvalidDuration "abc")).
Proof. vm_compute. reflexivity. Qed.

Lemma latencyFromEnv_unset (env : Env) (key : string) :
  env !! key = None →
  latencyFromEnv float_frac env key "100ms" = Return (100 * Millisecond).
Proof. intros Hk. unfold latencyFromEnv. rewrite Hk, ParseDuration_100ms. reflexivity. Qed.

Lemma latencyFromEnv_set (env : Env) (key fallback value : string) (d : Z) :
  env !! key = Some value → ParseDuration float_frac value = (d, None) →
  latencyFromEnv float_frac env key fallback = Return d.
Proof. intros Hk Hv. unfold latencyFromEnv. rewrite Hk, Hv. reflexivity. Qed.

Lemma latencyFromEnv_invalid (env : Env) (key fallback value : string) (e : error) :
  env !! key = Some value → snd (ParseDuration float_frac value) = Some e →
  latencyFromEnv float_frac env key fallback = Panic e.
Proof.
  intros Hk Hv. unfold latencyFromEnv. rewrite Hk.
  destruct (ParseDuration float_frac value) as [v err]. simpl in Hv. subst err. reflexivity.
Qed.

Lemma WithLatency_error {S : Type} (latency : string) (e : error) (srv : Server S) :
  snd (ParseDuration float_frac latency) = Some e →
  WithLatency float_frac latency srv = (srv, Some e).
Proof.
  intros He. unfold WithLatency.
  destruct (ParseDuration float_frac latency) as [v err]. simpl in He. subst err. reflexivity.
Qed.

Lemma WithLatency_ok {S : Type} (latency : string) (d : Z) (srv : Server S) :
  ParseDuration float_frac latency = (d, None) →
  Latency (fst (WithLatency float_frac latency srv)) = d.
Proof. intros Hd. unfold WithLatency. rewrite Hd. reflexivity. Qed.

(** The latency is 100ms when nothing is configured. *)
Lemma New_default_latency {S : Type} (env : Env) (addr : string) (store : S) :
  env !! "COFFEESHOP_LATENCY" = None →
  ∃ srv, New float_frac env addr store [] = Return srv ∧ Latency srv = 100 * Millisecond.
Proof.
  intros Hk. unfold New. rewrite (latencyFromEnv_unset _ _ Hk). eexists. split; reflexivity.
Qed.

(** The environment variable overrides the default. *)
Lemma New_env_latency {S : Type} (env : Env) (addr value : string) (store : S) (d : Z) :
  env !! "COFFEESHOP_LATENCY" = Some value → ParseDuration float_frac value = (d, None) →
  ∃ srv, New float_frac env addr store [] = Return srv ∧ Latency srv = d.
Proof.
  intros Hk Hv. unfold New. rewrite (latencyFromEnv_set _ _ _ _ _ Hk Hv).
  eexists. split; reflexivity.
Qed.

(** A [WithLatency] option that parses overrides both. *)
Lemma New_option_latency {S : Type} (env : Env) (addr latency : string) (store : S) (d d0 : Z) :
  latencyFromEnv float_frac env "COFFEESHOP_LATENCY" "100ms" = Return d0 →
  ParseDuration float_frac latency = (d, None) →
  ∃ srv, New float_frac env addr store [WithLatency float_frac latency] = Return srv
         ∧ Latency srv = d.
Proof.
  intros Hk Hv. unfold New. rewrite Hk. eexists. split; [reflexivity|].
  cbn [fold_left]. apply WithLatency_ok, Hv.
Qed.

(** An environment variable that does not parse makes [New] panic, whatever
    the options: the server is never built, let alone started. *)
Lemma New_env_invalid_panics {S : Type} (env : Env) (addr value : string) (store : S)
  (options : list (option_ S)) (e : error) :
  env !! "COFFEESHOP_LATENCY" = Some value → snd (ParseDuration float_frac value) = Some e →
  New float_frac env addr store options = Panic e.
Proof.
  intros Hk Hv. unfold New. rewrite (latencyFromEnv_invalid _ _ _ _ _ Hk Hv). reflexivity.
Qed.

(** [Run] with no latency in the environment builds [default_server]. *)
Lemma Run_default (env : Env) :
  env !! "COFFEESHOP_LATENCY" = None → Run float_frac env = Return default_server.
Proof.
  intros Hk. unfold Run, New. rewrite (latencyFromEnv_unset _ _ Hk). reflexivity.
Qed.

(** C6 (the code at the failing input).  With no environment variable and
    the option [WithLatency("abc")], whose duration does not parse, [New]
    returns a server, with the default latency: the error of the option is
    not fatal. *)
Theorem C6_invalid_option_not_fatal :
  ParseDuration float_frac "abc" = (0, Some (time_InvalidDuration "abc"))
  ∧ New float_frac ∅ ":8088" seeded_store [WithLatency float_frac "abc"]
    = Return default_server.
Proof.
  split; [apply ParseDuration_abc|].
  unfold New. rewrite latencyFromEnv_unset by reflexivity. cbn [fold_left].
  rewrite WithLatency_error with (e := time_InvalidDuration "abc")
    by (rewrite ParseDuration_abc; reflexivity).
  reflexivity.
Qed.

(** C8. An option [WithLatency] whose string does not parse is discarded
    with its error: [New] returns what it returns without that option, so
    construction succeeds whenever the environment's latency is valid, and
    the server keeps that latency, the default 100ms when the variable is not
    set. *)
Theorem C8_WithLatency_error_discarded {S : Type} (env : Env) (addr latency : string)
  (store : S) (e : error) (before after : list (option_ S)) :
  snd (ParseDuration float_frac latency) = Some e →
  New float_frac env addr store (before ++ WithLatency float_frac latency :: after)
  = New float_frac env addr store (before ++ after)
  ∧ (∀ d, latencyFromEnv float_frac env "COFFEESHOP_LATENCY" "100ms" = Return d →
          ∃ srv, New float_frac env addr store [WithLatency float_frac latency] = Return srv
                 ∧ Latency srv = d)
  ∧ (env !! "COFFEESHOP_LATENCY" = None →
     ∃ srv, New float_frac env addr store [WithLatency float_frac latency] = Return srv
            ∧ Latency srv = 100 * Millisecond).
Proof.
  intros He.
  assert (Hd : ∀ d, latencyFromEnv float_frac env "COFFEESHOP_LATENCY" "100ms" = Return d →
               ∃ srv, New float_frac env addr store [WithLatency float_frac latency] = Return srv
                      ∧ Latency srv = d).
  { intros d Hk. unfold New. rewrite Hk. eexists. split; [reflexivity|].
    cbn [fold_left]. rewrite (WithLatency_error _ _ _ He). reflexivity. }
  split; [|split; [exact Hd|]].
  - unfold New. destruct (latencyFromEnv _ _ _ _) as [d|e']; [|reflexivity].
    f_equal. rewrite !fold_left_app. cbn [fold_left].
    rewrite (WithLatency_error _ _ _ He). reflexivity.
  - intros Hk. apply Hd, latencyFromEnv_unset, Hk.
Qed.

End ConstructionProps.

Lemma C8_WithLatency_error_discarded_witness :
  snd (ParseDuration exact_frac "abc") = Some (time_InvalidDuration "abc")
  ∧ New exact_frac ∅ ":8088" seeded_store ([] ++ WithLatency exact_frac "abc" :: [])
    = New exact_frac ∅ ":8088" seeded_store ([] ++ []).
Proof.
  split; [vm_compute; reflexivity|].
  apply (C8_WithLatency_error_discarded exact_frac ∅ ":8088" "abc" seeded_store
           (time_InvalidDuration "abc") [] []).
  vm_compute; reflexivity.
Defined.

(** ** The handlers and the middleware chain *)

Section HandlerProps.

Context {S : Type} `{Store S}.


(** Reduction of the operations on a response writer given as a record. *)
Ltac rw_step :=
  cbn [set_w set_now set_store now w conn_ok order store Header_Set WriteHeader Header
       wroteHeader status sentHeader body fst snd negb andb].

Lemma http_Error_fresh (msg : string) (code : Z) (st : HState S) :
  wroteHeader (w st) = false →
  let st' := http_Error msg code st in
  wroteHeader (w st') = true ∧ now st' = now st ∧ status (w st') = code
  ∧ sentHeader (w st') !! "Content-Type" = Some [text_content_type]
  ∧ body (w st') = (if conn_ok st && bodyAllowedForStatus code
                    then body (w st) ++ msg ++ lf else body (w st))
  ∧ store st' = store st.
Proof.
  destruct st as [t [h wh s sh b] c o sto]. cbn [w wroteHeader]. intros ->.
  unfold http_Error; rw_step. unfold Write; rw_step.
  destruct (bodyAllowedForStatus code), c; rw_step;
    (repeat split; try reflexivity);
    (rewrite lookup_insert_ne by discriminate; apply lookup_insert_eq).
Qed.

Lemma http_Error_started (msg : string) (code : Z) (st : HState S) :
  wroteHeader (w st) = true →
  let st' := http_Error msg code st in
  wroteHeader (w st') = true ∧ now st' = now st ∧ status (w st') = status (w st)
  ∧ sentHeader (w st') = sentHeader (w st).
Proof.
  destruct st as [t [h wh s sh b] c o sto]. cbn [w wroteHeader]. intros ->.
  unfold http_Error; rw_step. unfold Write; rw_step.
  destruct (bodyAllowedForStatus s), c; rw_step; repeat split; reflexivity.
Qed.

Lemma Write_fresh (data : string) (st : HState S) :
  wroteHeader (w st) = false →
  let st' := fst (Write data st) in
  wroteHeader (w st') = true ∧ now st' = now st ∧ status (w st') = StatusOK
  ∧ sentHeader (w st') = Header (w st)
  ∧ body (w st') = (if conn_ok st then body (w st) ++ data else body (w st))
  ∧ store st' = store st
  ∧ snd (Write data st) = (if conn_ok st then None else Some (errors_New "write: broken pipe")).
Proof.
  destruct st as [t [h wh s sh b] c o sto]. cbn [w wroteHeader]. intros ->.
  unfold Write; rw_step. change (bodyAllowedForStatus StatusOK) with true. rw_step.
  destruct c; rw_step; repeat split; reflexivity.
Qed.

Lemma http_NotFound_answers : answers S http_NotFound.
Proof.
  intros r st Hst. unfold http_NotFound.
  destruct (http_Error_fresh "404 page not found" StatusNotFound st Hst)
    as (Hw & Hn & Hs & Hc & _).
  simpl. rewrite Hs. simpl. repeat split; auto.
Qed.

Lemma methodNotAllowedHandler_answers : answers S methodNotAllowedHandler.
Proof.
  intros r [t [h wh s sh b] c o sto]. cbn [w wroteHeader]. intros ->.
  unfold methodNotAllowedHandler; rw_step. unfold Write; rw_step.
  change (bodyAllowedForStatus StatusMethodNotAllowed) with true. rw_step.
  destruct c; rw_step; repeat split; auto.
Qed.

Lemma GetProducts_answers (cs : Server S) : answers S (GetProducts cs).
Proof.
  intros r st Hst. unfold GetProducts.
  destruct (Store_GetAll (order st) (store st)) as [products s'].
  unfold json.MarshalIndent_list.
  pose proof (Write_fresh (json.render_indent "" "  " 0 (json.list_to_json products))
                (set_store s' st) Hst) as (Hw & Hn & Hs & Hc & _ & _ & He).
  destruct (Write _ (set_store s' st)) as [st1 err]. simpl in *.
  destruct err as [e|].
  - destruct (http_Error_started "internal error" StatusInternalServerError st1 Hw)
      as (Hw' & Hn' & Hs' & Hc').
    rewrite Hs', Hc', Hs, Hc, Hn', Hn. simpl. repeat split; auto.
  - rewrite Hs, Hc, Hn. simpl. repeat split; auto.
Qed.

Lemma GetProduct_answers (cs : Server S) : answers S (GetProduct cs).
Proof.
  intros r st Hst. unfold GetProduct.
  destruct (Store_GetProduct (URLParam r "productID") (store st)) as [[product err] s'].
  destruct err as [e|].
  - destruct (http_Error_fresh "product not found" StatusNotFound (set_store s' st) Hst)
      as (Hw & Hn & Hs & Hc & _).
    simpl in *. rewrite Hs, Hc, Hn. simpl. repeat split; auto.
  - unfold json.Marshal_Product.
    pose proof (Write_fresh (json.render (json.Product_to_json product))
                  (set_store s' st) Hst) as (Hw & Hn & Hs & Hc & _ & _ & He).
    destruct (Write _ (set_store s' st)) as [st1 err]. simpl in *.
    destruct err as [e|].
    + destruct (http_Error_started "internal error" StatusInternalServerError st1 Hw)
        as (Hw' & Hn' & Hs' & Hc').
      rewrite Hs', Hc', Hs, Hc, Hn', Hn. simpl. repeat split; auto.
    + rewrite Hs, Hc, Hn. simpl. repeat split; auto.
Qed.

Lemma routeHTTP_answers (cs : Server S) : answers S (routeHTTP cs).
Proof.
  intros r st Hst. unfold routeHTTP.
  destruct (negb _); [apply methodNotAllowedHandler_answers, Hst|].
  destruct (FindRoute _) as [|id|].
  - destruct (String.eqb (Method r) "GET");
      [apply GetProducts_answers, Hst|apply methodNotAllowedHandler_answers, Hst].
  - destruct (String.eqb (Method r) "GET");
      [apply GetProduct_answers, Hst|apply methodNotAllowedHandler_answers, Hst].
  - apply http_NotFound_answers, Hst.
Qed.

(** The handlers never look at the deadline of the request. *)
Lemma routeHTTP_ignores_deadline (cs : Server S) (r : Request) (d : option Z) (st : HState S) :
  routeHTTP cs {| Method := Method r; Path := Path r; Deadline := d; URLParams := URLParams r |} st
  = routeHTTP cs r st.
Proof. reflexivity. Qed.

Lemma WriteHeader_started (code : Z) (rw : ResponseWriter) :
  wroteHeader rw = true → WriteHeader code rw = rw.
Proof. intros Hw. unfold WriteHeader. rewrite Hw. reflexivity. Qed.

Lemma set_w_started (code : Z) (st : HState S) :
  wroteHeader (w st) = true → set_w (WriteHeader code) st = st.
Proof.
  intros Hw. destruct st as [t rw c o sto]. unfold set_w. simpl in *.
  rewrite WriteHeader_started by exact Hw. reflexivity.
Qed.

(** The request-timeout guard changes no response of this server: when it
    comes to write its status, the handler has written one already. *)
Lemma serve_guard_no_effect (cs : Server S) (r : Request) (t0 : Z) (conn : bool) (o : MapOrder) :
  serve cs r t0 conn o = serve_unguarded cs r t0 conn o.
Proof.
  unfold serve, serve_unguarded, ListenAndServe, middleware_Timeout.
  set (st0 := {| now := t0; w := new_ResponseWriter; conn_ok := conn;
                 writeDeadline := SetWriteDeadline (HTTPServer_ cs) t0; order := o;
                 store := Store_ cs |}).
  set (dl := match Deadline r with Some d0 => _ | None => _ end).
  unfold middleware_SetHeader, Delay.
  rewrite routeHTTP_ignores_deadline.
  destruct (routeHTTP_answers cs r
              (time_Sleep (Latency cs)
                 (set_w (Header_Set "Content-Type" "application/json; charset=utf-8") st0)))
    as (Hw & _); [reflexivity|].
  destruct (dl <=? _); [|reflexivity].
  rewrite (set_w_started StatusGatewayTimeout) by exact Hw. reflexivity.
Qed.

Lemma serve_unguarded_spec (cs : Server S) (r : Request) (t0 : Z) (conn : bool) (o : MapOrder) :
  let st := serve_unguarded cs r t0 conn o in
  now st = t0 + Z.max (Latency cs) 0
  ∧ (status (w st) = StatusOK ∨ status (w st) = StatusNotFound
     ∨ status (w st) = StatusMethodNotAllowed)
  ∧ response_header "Content-Type" (w st)
    = (if status (w st) =? StatusNotFound then text_content_type else json_content_type).
Proof.
  unfold serve_unguarded, middleware_SetHeader, Delay.
  set (st0 := {| now := t0; w := new_ResponseWriter; conn_ok := conn;
                 writeDeadline := SetWriteDeadline (HTTPServer_ cs) t0; order := o;
                 store := Store_ cs |}).
  destruct (routeHTTP_answers cs r
              (time_Sleep (Latency cs)
                 (set_w (Header_Set "Content-Type" "application/json; charset=utf-8") st0)))
    as (Hw & Hn & Hs & Hc); [reflexivity|].
  cbv zeta. rewrite (set_w_started StatusOK) by exact Hw.
  split; [rewrite Hn; reflexivity|]. split; [exact Hs|].
  unfold response_header. rewrite Hc.
  destruct (status _ =? StatusNotFound); reflexivity.
Qed.

(** No stage of the chain touches the connection: what it takes and its
    write deadline are at the end what they were when the request came
    in. *)
Lemma Write_connection (data : string) (st : HState S) :
  conn_ok (fst (Write data st)) = conn_ok st
  ∧ writeDeadline (fst (Write data st)) = writeDeadline st.
Proof.
  unfold Write, set_w. cbn [now w conn_ok writeDeadline order store].
  destruct (negb _); [split; reflexivity|].
  destruct (conn_ok st) eqn:Hc; cbn [fst conn_ok writeDeadline]; split; auto.
Qed.

Lemma http_Error_connection (msg : string) (code : Z) (st : HState S) :
  conn_ok (http_Error msg code st) = conn_ok st
  ∧ writeDeadline (http_Error msg code st) = writeDeadline st.
Proof.
  unfold http_Error.
  match goal with |- context [Write ?d ?st'] =>
    pose proof (Write_connection d st') as [Hc Hd] end.
  split; [rewrite Hc|rewrite Hd]; reflexivity.
Qed.

Lemma payload_connection (data : string) (st : HState S) :
  let st' := (let '(st1, err) := Write data st in
              match err with
              | Some _ => http_Error "internal error" StatusInternalServerError st1
              | None => st1
              end) in
  conn_ok st' = conn_ok st ∧ writeDeadline st' = writeDeadline st.
Proof.
  cbv zeta. pose proof (Write_connection data st) as [Hc Hd].
  destruct (Write data st) as [st1 [e|]]; cbn [fst] in Hc, Hd.
  - pose proof (http_Error_connection "internal error" StatusInternalServerError st1)
      as [Hc' Hd'].
    split; congruence.
  - split; assumption.
Qed.

Lemma routeHTTP_connection (cs : Server S) (r : Request) (st : HState S) :
  conn_ok (routeHTTP cs r st) = conn_ok st
  ∧ writeDeadline (routeHTTP cs r st) = writeDeadline st.
Proof.
  assert (Hm : conn_ok (methodNotAllowedHandler r st) = conn_ok st
               ∧ writeDeadline (methodNotAllowedHandler r st) = writeDeadline st)
    by (unfold methodNotAllowedHandler;
        match goal with |- context [Write ?d ?st'] =>
          pose proof (Write_connection d st') as [Hc Hd] end;
        split; [rewrite Hc|rewrite Hd]; reflexivity).
  unfold routeHTTP.
  destruct (negb (existsb (String.eqb (Method r)) methodMap)); [exact Hm|].
  destruct (FindRoute _) as [|id|].
  - destruct (String.eqb (Method r) "GET"); [|exact Hm].
    unfold GetProducts. destruct (Store_GetAll (order st) (store st)) as [products s'].
    unfold json.MarshalIndent_list. apply (payload_connection _ (set_store s' st)).
  - destruct (String.eqb (Method r) "GET"); [|exact Hm].
    unfold GetProduct.
    destruct (Store_GetProduct _ (store st)) as [[product [e|]] s'].
    + apply (http_Error_connection _ _ (set_store s' st)).
    + unfold json.Marshal_Product. apply (payload_connection _ (set_store s' st)).
  - unfold http_NotFound. apply http_Error_connection.
Qed.

Lemma serve_connection (cs : Server S) (r : Request) (t0 : Z) (conn : bool) (o : MapOrder) :
  conn_ok (serve cs r t0 conn o) = conn
  ∧ writeDeadline (serve cs r t0 conn o) = SetWriteDeadline (HTTPServer_ cs) t0.
Proof.
  rewrite serve_guard_no_effect.
  unfold serve_unguarded, middleware_SetHeader, Delay, time_Sleep.
  match goal with |- context [routeHTTP cs r ?st] =>
    pose proof (routeHTTP_connection cs r st) as [Hc Hd] end.
  cbn [set_w conn_ok writeDeadline set_now] in *. split; assumption.
Qed.

(** When the handler has returned, the response reaches the client if the
    connection takes it and the latency is under the server's write
    timeout, where it has one. *)
Lemma serve_delivered (cs : Server S) (r : Request) (t0 : Z) (conn : bool) (o : MapOrder) :
  delivered (serve cs r t0 conn o)
  = conn && (negb (0 <? WriteTimeout (HTTPServer_ cs))
             || (Z.max (Latency cs) 0 <? WriteTimeout (HTTPServer_ cs))).
Proof.
  unfold delivered. destruct (serve_connection cs r t0 conn o) as [-> ->].
  assert (Hn : now (serve cs r t0 conn o) = t0 + Z.max (Latency cs) 0)
    by (rewrite serve_guard_no_effect; apply serve_unguarded_spec).
  rewrite Hn. unfold SetWriteDeadline.
  destruct (0 <? WriteTimeout (HTTPServer_ cs)); cbn [negb orb]; [|reflexivity].
  f_equal. apply eq_true_iff_eq. rewrite !Z.ltb_lt. lia.
Qed.

(** C2 (amended).  Every response has status 200, 404 or 405.  A 404, which
    this server always sends through [http.Error] (an unknown product, an
    unmatched route), has the content type [text/plain; charset=utf-8]; every
    other response has [application/json; charset=utf-8]. *)
Theorem C2_content_type_by_status (cs : Server S) (r : Request) (t0 : Z) (conn : bool)
  (o : MapOrder) :
  let rw := w (serve cs r t0 conn o) in
  (status rw = StatusOK ∨ status rw = StatusNotFound ∨ status rw = StatusMethodNotAllowed)
  ∧ response_header "Content-Type" rw
    = (if status rw =? StatusNotFound then "text/plain; charset=utf-8"
       else "application/json; charset=utf-8").
Proof.
  rewrite serve_guard_no_effect.
  destruct (serve_unguarded_spec cs r t0 conn o) as (_ & Hs & Hc). split; assumption.
Qed.

(** C1 (the code at the failing inputs).  When the latency exceeds the 120
    seconds of the guard, no request is aborted.  [Delay] sleeps for the
    whole latency without watching the context of the request; the routed
    handler runs after it and writes what it would write with no guard in
    the chain; the guard's 504 comes when the handler has written its own
    status, and changes nothing: no response has the status 504.  When the
    server has a write timeout of no more than the latency, as the 30
    seconds that [New] sets, the write deadline of the connection has passed
    by then, and nothing reaches the client, neither a timeout nor the
    payload. *)
Theorem C1_guard_does_not_abort (cs : Server S) (r : Request) (t0 : Z) (conn : bool)
  (o : MapOrder) :
  120 * Second < Latency cs →
  let st := serve cs r t0 conn o in
  now st = t0 + Latency cs
  ∧ st = serve_unguarded cs r t0 conn o
  ∧ (status (w st) =? StatusGatewayTimeout) = false
  ∧ delivered st = conn && (negb (0 <? WriteTimeout (HTTPServer_ cs))
                            || (Latency cs <? WriteTimeout (HTTPServer_ cs))).
Proof.
  intros Hlat. cbv zeta.
  assert (Hpos : Z.max (Latency cs) 0 = Latency cs)
    by (unfold Second, Millisecond, Microsecond, Nanosecond in Hlat; lia).
  rewrite serve_delivered, Hpos. rewrite serve_guard_no_effect.
  destruct (serve_unguarded_spec cs r t0 conn o) as (Hn & Hs & _).
  split; [rewrite Hn, Hpos; reflexivity|].
  split; [reflexivity|]. split; [|reflexivity].
  destruct Hs as [-> | [-> | ->]]; reflexivity.
Qed.

End HandlerProps.

(** C1 (the failing input).  The server built with [WithLatency("150s")] has
    the latency of 150 seconds and the write timeout of 30 seconds.  Its
    handler chain is done with [GET /products/1] 150 seconds after the
    request came in, the whole delay; it has written the status 200 and the
    product as payload, not the guard's 504; and of this nothing reaches the
    client, even on a connection that takes writes. *)
Lemma C1_guard_does_not_abort_witness :
  New exact_frac ∅ ":8088" seeded_store [WithLatency exact_frac "150s"] = Return slow_server
  ∧ 120 * Second < Latency slow_server
  ∧ (let st := serve slow_server (request "GET" "/products/1") 0 true order_id in
     (now st = 0 + Latency slow_server
      ∧ st = serve_unguarded slow_server (request "GET" "/products/1") 0 true order_id
      ∧ (status (w st) =? StatusGatewayTimeout) = false
      ∧ delivered st
        = true && (negb (0 <? WriteTimeout (HTTPServer_ slow_server))
                   || (Latency slow_server <? WriteTimeout (HTTPServer_ slow_server))))
     ∧ now st = 150 * Second
     ∧ status (w st) = StatusOK
     ∧ body (w st) = fst (json.Marshal_Product product_1)
     ∧ delivered st = false).
Proof.
  split; [vm_compute; reflexivity|]. split; [reflexivity|]. cbv zeta.
  split; [|vm_compute; repeat split; reflexivity].
  apply (C1_guard_does_not_abort slow_server (request "GET" "/products/1") 0 true order_id).
  reflexivity.
Defined.

(** C2 (counterexample).  The answer to [GET /products/999], a product that
    does not exist, has status 404 and the content type
    [text/plain; charset=utf-8]. *)
Lemma C2_not_found_counterexample :
  let rw := w (serve default_server (request "GET" "/products/999") 0 true order_id) in
  status rw = StatusNotFound
  ∧ response_header "Content-Type" rw = "text/plain; charset=utf-8"
  ∧ String.eqb (response_header "Content-Type" rw) "application/json; charset=utf-8" = false.
Proof. vm_compute. repeat split; reflexivity. Qed.

Lemma inventory_ID (id : string) (p : Product) :
  entries inventory !! id = Some p → Product.ID p = id.
Proof.
  intros Hp. apply inventory_lookup in Hp. unfold inventory_entries in Hp.
  repeat (apply elem_of_cons in Hp as [Hp|Hp]; [inversion Hp; reflexivity|]).
  apply elem_of_nil in Hp. destruct Hp.
Qed.

(** The single-item handler on an identifier the store does not hold. *)
Lemma GetProduct_not_found (cs : Server MemoryStore) (r : Request) (st : HState MemoryStore) :
  entries (MemoryStore.Products_ (store st)) !! URLParam r "productID" = None →
  wroteHeader (w st) = false →
  let st' := GetProduct cs r st in
  wroteHeader (w st') = true
  ∧ status (w st') = StatusNotFound
  ∧ body (w st') = (if conn_ok st then body (w st) ++ "product not found" ++ lf
                    else body (w st)).
Proof.
  intros Hid Hst. unfold GetProduct.
  change (Store_GetProduct (URLParam r "productID") (store st))
    with (MemoryStore.GetProduct (URLParam r "productID") (store st)).
  unfold MemoryStore.GetProduct.
  cbn [MemoryStore.withMx MemoryStore.Products_ MemoryStore.mx].
  rewrite Hid. cbv zeta.
  match goal with |- context [set_store ?s st] =>
    destruct (http_Error_fresh "product not found" StatusNotFound (set_store s st) Hst)
      as (Hw & _ & Hs & _ & Hb & _)
  end.
  cbn [set_store conn_ok w] in Hb. rewrite andb_true_r in Hb.
  split; [exact Hw|]. split; [exact Hs|exact Hb].
Qed.

(** Through the router: a path [/products/<id>] whose last segment is not
    empty and has no slash reaches the single-item handler with that
    identifier. *)
Lemma FindRoute_product (id : string) :
  String.eqb id "" || has_slash id = false → FindRoute ("/products/" ++ id) = RouteProduct id.
Proof.
  intros Hid. unfold FindRoute.
  replace (String.eqb ("/products/" ++ id) "/products") with false by reflexivity.
  replace (json.strip_prefix "/products/" ("/products/" ++ id)) with (Some id) by reflexivity.
  rewrite Hid. reflexivity.
Qed.

(** C3 (amended).  For an identifier of the seed inventory, [GetProduct]
    returns the product stored under it, whose [id] is that identifier, and no
    error.  For any other identifier it returns the error [product not found],
    and the single-item handler answers 404 with the body
    [product not found] followed by a line feed; so does the server to
    [GET /products/<id>] when the identifier is a path segment (not empty, no
    slash), whatever its latency. *)
Theorem C3_GetProduct_found_or_404 (id : string) (latency t0 : Z) (o : MapOrder) :
  match entries inventory !! id with
  | Some p =>
    fst (MemoryStore.GetProduct id seeded_store) = (p, None) ∧ Product.ID p = id
  | None =>
    fst (MemoryStore.GetProduct id seeded_store)
    = (Product.zero, Some (errors_New "product not found"))
    ∧ (let st := GetProduct (seeded_server latency) (single_item_request id)
                   (start t0 true o seeded_store) in
       status (w st) = StatusNotFound
       ∧ body (w st) = "product not found" ++ lf)
    ∧ (String.eqb id "" || has_slash id = false →
       let st := serve (seeded_server latency) (request "GET" ("/products/" ++ id))
                   t0 true o in
       status (w st) = StatusNotFound
       ∧ body (w st) = "product not found" ++ lf)
  end.
Proof.
  destruct (entries inventory !! id) as [p|] eqn:Hid.
  - split; [|apply inventory_ID, Hid].
    unfold MemoryStore.GetProduct. cbn [fst MemoryStore.withMx MemoryStore.Products_ seeded_store].
    rewrite Hid. reflexivity.
  - split; [|split].
    + unfold MemoryStore.GetProduct.
      cbn [fst MemoryStore.withMx MemoryStore.Products_ MemoryStore.mx seeded_store].
      rewrite Hid. reflexivity.
    + destruct (GetProduct_not_found (seeded_server latency) (single_item_request id)
                  (start t0 true o seeded_store) Hid eq_refl) as (_ & Hs & Hb).
      split; [exact Hs|exact Hb].
    + intros Hseg. cbv zeta. rewrite serve_guard_no_effect.
      unfold serve_unguarded, middleware_SetHeader, Delay, routeHTTP.
      cbn [Path Method request].
      change (String.eqb ("/products/" ++ id) "") with false. cbv iota.
      change (negb (existsb (String.eqb "GET") methodMap)) with false. cbv iota.
      rewrite (FindRoute_product id Hseg).
      change (String.eqb "GET" "GET") with true. cbv iota.
      match goal with |- context [GetProduct ?cs ?r ?st] =>
        destruct (GetProduct_not_found cs r st Hid eq_refl) as (Hw & Hs & Hb)
      end.
      rewrite (set_w_started StatusOK) by exact Hw.
      split; [exact Hs|exact Hb].
Qed.

Lemma C3_GetProduct_found_or_404_witness :
  entries inventory !! "999" = None
  ∧ (String.eqb "999" "" || has_slash "999" = false)
  ∧ (let st := serve (seeded_server (100 * Millisecond)) (request "GET" ("/products/" ++ "999"))
                 0 true order_id in
     status (w st) = StatusNotFound
     ∧ body (w st) = "product not found" ++ lf).
Proof.
  split; [vm_compute; reflexivity|]. split; [vm_compute; reflexivity|].
  pose proof (C3_GetProduct_found_or_404 "999" (100 * Millisecond) 0 order_id) as H.
  replace (entries inventory !! "999") with (@None Product) in H by (vm_compute; reflexivity).
  destruct H as (_ & _ & H). apply H. vm_compute; reflexivity.
Defined.

(** The first product of the seed inventory is stored under ["1"]. *)
Lemma inventory_product_1 : entries inventory !! "1" = Some product_1.
Proof. vm_compute. reflexivity. Qed.

(** C3 (counterexample).  ["999"] is not in the seed inventory; the body of
    the answer to [GET /products/999] is not [product not found]: a line
    feed follows the message. *)
Lemma C3_body_counterexample :
  let st := serve default_server (request "GET" "/products/999") 0 true order_id in
  entries inventory !! "999" = None
  ∧ status (w st) = StatusNotFound
  ∧ body (w st) = "product not found" ++ lf
  ∧ String.eqb (body (w st)) "product not found" = false.
Proof. vm_compute. repeat split; reflexivity. Qed.


(** ** UTF-8: decoding a valid sequence and encoding it back *)

Lemma byte_val_range (c : ascii) : 0 ≤ byte_val c < 256.
Proof.
  unfold byte_val. pose proof (N_ascii_bounded c) as Hc. lia.
Qed.

Lemma byte_of_val (c : ascii) : byte_of (byte_val c) = c.
Proof. unfold byte_of, byte_val. rewrite N2Z.id. apply ascii_N_embedding. Qed.

Lemma byte_val_inj (a b : ascii) : byte_val a = byte_val b → a = b.
Proof. intros Hab. rewrite <- (byte_of_val a), <- (byte_of_val b), Hab. reflexivity. Qed.

Lemma land_pow2_small (x y k : Z) : 0 ≤ k → 0 ≤ y < 2 ^ k → Z.land (x * 2 ^ k) y = 0.
Proof.
  intros Hk Hy. apply Z.bits_inj'. intros n Hn.
  rewrite Z.land_spec, Z.bits_0.
  destruct (Z.lt_ge_cases n k) as [Hlt|Hge].
  - rewrite Z.mul_pow2_bits_low by exact Hlt. reflexivity.
  - destruct (Z.eq_dec y 0) as [->|Hy0]; [rewrite Z.bits_0; apply andb_false_r|].
    rewrite (Z.bits_above_log2 y n); [apply andb_false_r|lia|].
    apply Z.lt_le_trans with k; [|exact Hge].
    apply Z.log2_lt_pow2; lia.
Qed.

Lemma lor_disjoint (u y : Z) (x k : Z) :
  0 ≤ k → u = x * 2 ^ k → 0 ≤ y < 2 ^ k → Z.lor u y = u + y.
Proof.
  intros Hk -> Hy. pose proof (Z.add_lor_land (x * 2 ^ k) y) as Hadd.
  rewrite land_pow2_small in Hadd by assumption. lia.
Qed.

Lemma land_3F (a : Z) : Z.land a 0x3F = a mod 64.
Proof. change 0x3F with (Z.ones 6). rewrite Z.land_ones by lia. reflexivity. Qed.
Lemma land_1F (a : Z) : Z.land a 0x1F = a mod 32.
Proof. change 0x1F with (Z.ones 5). rewrite Z.land_ones by lia. reflexivity. Qed.
Lemma land_0F (a : Z) : Z.land a 0x0F = a mod 16.
Proof. change 0x0F with (Z.ones 4). rewrite Z.land_ones by lia. reflexivity. Qed.
Lemma land_07 (a : Z) : Z.land a 0x07 = a mod 8.
Proof. change 0x07 with (Z.ones 3). rewrite Z.land_ones by lia. reflexivity. Qed.

Lemma shiftl_6 (a : Z) : Z.shiftl a 6 = a * 64.
Proof. rewrite Z.shiftl_mul_pow2 by lia. reflexivity. Qed.
Lemma shiftl_12 (a : Z) : Z.shiftl a 12 = a * 4096.
Proof. rewrite Z.shiftl_mul_pow2 by lia. reflexivity. Qed.
Lemma shiftl_18 (a : Z) : Z.shiftl a 18 = a * 262144.
Proof. rewrite Z.shiftl_mul_pow2 by lia. reflexivity. Qed.
Lemma shiftr_6 (a : Z) : Z.shiftr a 6 = a / 64.
Proof. rewrite Z.shiftr_div_pow2 by lia. reflexivity. Qed.
Lemma shiftr_12 (a : Z) : Z.shiftr a 12 = a / 4096.
Proof. rewrite Z.shiftr_div_pow2 by lia. reflexivity. Qed.
Lemma shiftr_18 (a : Z) : Z.shiftr a 18 = a / 262144.
Proof. rewrite Z.shiftr_div_pow2 by lia. reflexivity. Qed.

(** The rune of a two-, three- and four-byte sequence, in arithmetic. *)
Lemma rune2_arith (s0 b1 : Z) :
  0xC2 ≤ s0 ≤ 0xDF → 0x80 ≤ b1 ≤ 0xBF →
  Z.lor (Z.shiftl (Z.land s0 utf8.mask2) 6) (Z.land b1 utf8.maskx)
  = (s0 - 0xC0) * 64 + (b1 - 0x80).
Proof.
  intros H0 H1. unfold utf8.mask2, utf8.maskx. rewrite land_1F, land_3F, shiftl_6.
  rewrite (lor_disjoint _ _ (s0 mod 32) 6) by (try reflexivity; Z.div_mod_to_equations; lia).
  Z.div_mod_to_equations; lia.
Qed.

Lemma rune3_arith (s0 b1 b2 : Z) :
  0xE0 ≤ s0 ≤ 0xEF → 0x80 ≤ b1 ≤ 0xBF → 0x80 ≤ b2 ≤ 0xBF →
  Z.lor (Z.lor (Z.shiftl (Z.land s0 utf8.mask3) 12) (Z.shiftl (Z.land b1 utf8.maskx) 6))
        (Z.land b2 utf8.maskx)
  = (s0 - 0xE0) * 4096 + (b1 - 0x80) * 64 + (b2 - 0x80).
Proof.
  intros H0 H1 H2. unfold utf8.mask3, utf8.maskx.
  rewrite land_0F, !land_3F, shiftl_6, shiftl_12.
  rewrite (lor_disjoint (s0 mod 16 * 4096) _ (s0 mod 16) 12)
    by (try reflexivity; Z.div_mod_to_equations; lia).
  rewrite (lor_disjoint _ _ (s0 mod 16 * 64 + b1 mod 64) 6)
    by (try (Z.div_mod_to_equations; lia)).
  Z.div_mod_to_equations; lia.
Qed.

Lemma rune4_arith (s0 b1 b2 b3 : Z) :
  0xF0 ≤ s0 ≤ 0xF4 → 0x80 ≤ b1 ≤ 0xBF → 0x80 ≤ b2 ≤ 0xBF → 0x80 ≤ b3 ≤ 0xBF →
  Z.lor (Z.lor (Z.lor (Z.shiftl (Z.land s0 utf8.mask4) 18)
                      (Z.shiftl (Z.land b1 utf8.maskx) 12))
               (Z.shiftl (Z.land b2 utf8.maskx) 6))
        (Z.land b3 utf8.maskx)
  = (s0 - 0xF0) * 262144 + (b1 - 0x80) * 4096 + (b2 - 0x80) * 64 + (b3 - 0x80).
Proof.
  intros H0 H1 H2 H3. unfold utf8.mask4, utf8.maskx.
  rewrite land_07, !land_3F, shiftl_6, shiftl_12, shiftl_18.
  rewrite (lor_disjoint (s0 mod 8 * 262144) _ (s0 mod 8) 18)
    by (try reflexivity; Z.div_mod_to_equations; lia).
  rewrite (lor_disjoint _ (b2 mod 64 * 64) (s0 mod 8 * 64 + b1 mod 64) 12)
    by (try (Z.div_mod_to_equations; lia)).
  rewrite (lor_disjoint _ (b3 mod 64) (s0 mod 8 * 4096 + b1 mod 64 * 64 + b2 mod 64) 6)
    by (try (Z.div_mod_to_equations; lia)).
  Z.div_mod_to_equations; lia.
Qed.

Ltac ztests :=
  repeat match goal with
         | |- context [?a <? ?b] => destruct (Z.ltb_spec a b); try lia
         | |- context [?a <=? ?b] => destruct (Z.leb_spec a b); try lia
         | |- context [?a =? ?b] => destruct (Z.eqb_spec a b); try lia
         end.

Ltac utf8_consts :=
  unfold utf8.rune1Max, utf8.rune2Max, utf8.rune3Max, utf8.MaxRune, utf8.surrogateMin,
    utf8.surrogateMax, utf8.RuneError, utf8.RuneSelf, utf8.locb, utf8.hicb, utf8.as_,
    utf8.xx, utf8.s1, utf8.s2, utf8.s3, utf8.s4, utf8.s5, utf8.s6, utf8.s7 in *.

Lemma uint32_small (r : Z) : 0 ≤ r < 2 ^ 32 → uint32 r = r.
Proof. intros Hr. unfold uint32. apply Z.mod_small, Hr. Qed.

Lemma EncodeRune_1 (s0 : Z) : 0 ≤ s0 < 0x80 → utf8.EncodeRune s0 = utf8.bytes [s0].
Proof.
  intros H0. unfold utf8.EncodeRune. rewrite uint32_small by lia.
  utf8_consts. ztests. unfold to_byte. rewrite Z.mod_small by lia. reflexivity.
Qed.

Lemma EncodeRune_2 (s0 b1 : Z) :
  0xC2 ≤ s0 ≤ 0xDF → 0x80 ≤ b1 ≤ 0xBF →
  utf8.EncodeRune ((s0 - 0xC0) * 64 + (b1 - 0x80)) = utf8.bytes [s0; b1].
Proof.
  intros H0 H1. unfold utf8.EncodeRune. rewrite uint32_small by lia.
  utf8_consts. ztests.
  unfold to_byte, utf8.t2, utf8.tx, utf8.maskx. rewrite land_3F, shiftr_6.
  rewrite (lor_disjoint 0xC0 _ 3 6) by (try reflexivity; Z.div_mod_to_equations; lia).
  rewrite (lor_disjoint 0x80 _ 1 7) by (try reflexivity; Z.div_mod_to_equations; lia).
  do 2 f_equal; [|f_equal]; f_equal; Z.div_mod_to_equations; lia.
Qed.

Lemma EncodeRune_3 (s0 b1 b2 : Z) :
  0xE0 ≤ s0 ≤ 0xEF → 0x80 ≤ b1 ≤ 0xBF → 0x80 ≤ b2 ≤ 0xBF →
  (s0 = 0xE0 → 0xA0 ≤ b1) → (s0 = 0xED → b1 ≤ 0x9F) →
  utf8.EncodeRune ((s0 - 0xE0) * 4096 + (b1 - 0x80) * 64 + (b2 - 0x80))
  = utf8.bytes [s0; b1; b2].
Proof.
  intros H0 H1 H2 HE0 HED. unfold utf8.EncodeRune. rewrite uint32_small by lia.
  utf8_consts.
  ztests; simpl orb; cbv iota.
  all: unfold utf8.encode3, to_byte, utf8.t3, utf8.tx, utf8.maskx;
    rewrite !land_3F, shiftr_6, shiftr_12.
  all: rewrite (lor_disjoint 0xE0 _ 7 5) by (try reflexivity; Z.div_mod_to_equations; lia).
  all: rewrite !(lor_disjoint 0x80 _ 1 7) by (try reflexivity; Z.div_mod_to_equations; lia).
  all: unfold utf8.bytes, fold_right; repeat f_equal; Z.div_mod_to_equations; lia.
Qed.

Lemma EncodeRune_4 (s0 b1 b2 b3 : Z) :
  0xF0 ≤ s0 ≤ 0xF4 → 0x80 ≤ b1 ≤ 0xBF → 0x80 ≤ b2 ≤ 0xBF → 0x80 ≤ b3 ≤ 0xBF →
  (s0 = 0xF0 → 0x90 ≤ b1) → (s0 = 0xF4 → b1 ≤ 0x8F) →
  utf8.EncodeRune ((s0 - 0xF0) * 262144 + (b1 - 0x80) * 4096 + (b2 - 0x80) * 64 + (b3 - 0x80))
  = utf8.bytes [s0; b1; b2; b3].
Proof.
  intros H0 H1 H2 H3 HF0 HF4. unfold utf8.EncodeRune. rewrite uint32_small by lia.
  utf8_consts.
  ztests; simpl orb; cbv iota.
  all: unfold to_byte, utf8.t4, utf8.tx, utf8.maskx;
    rewrite !land_3F, shiftr_6, shiftr_12, shiftr_18.
  all: rewrite (lor_disjoint 0xF0 _ 15 4) by (try reflexivity; Z.div_mod_to_equations; lia).
  all: rewrite !(lor_disjoint 0x80 _ 1 7) by (try reflexivity; Z.div_mod_to_equations; lia).
  all: unfold utf8.bytes, fold_right; repeat f_equal; Z.div_mod_to_equations; lia.
Qed.

Lemma bytes_val_1 (c0 : ascii) : utf8.bytes [byte_val c0] = String c0 "".
Proof. unfold utf8.bytes, fold_right. rewrite byte_of_val. reflexivity. Qed.

Lemma first_class (s0 : Z) :
  0 ≤ s0 < 256 →
  (s0 < 0x80 ∧ utf8.first s0 = utf8.as_)
  ∨ utf8.first s0 = utf8.xx
  ∨ (0xC2 ≤ s0 ≤ 0xDF ∧ utf8.first s0 = utf8.s1)
  ∨ (s0 = 0xE0 ∧ utf8.first s0 = utf8.s2)
  ∨ (0xE1 ≤ s0 ≤ 0xEF ∧ s0 ≠ 0xED ∧ utf8.first s0 = utf8.s3)
  ∨ (s0 = 0xED ∧ utf8.first s0 = utf8.s4)
  ∨ (s0 = 0xF0 ∧ utf8.first s0 = utf8.s5)
  ∨ (0xF1 ≤ s0 ≤ 0xF3 ∧ utf8.first s0 = utf8.s6)
  ∨ (s0 = 0xF4 ∧ utf8.first s0 = utf8.s7).
Proof.
  intros H0. unfold utf8.first.
  repeat match goal with
         | |- context [if ?a <? ?b then _ else _] => destruct (Z.ltb_spec a b)
         | |- context [if ?a =? ?b then _ else _] => destruct (Z.eqb_spec a b)
         end; intuition lia.
Qed.

Lemma Decode_eq1 (c0 : ascii) (t : string) :
  utf8.first (byte_val c0) = utf8.as_ →
  utf8.DecodeRuneInString (String c0 t) = (byte_val c0, 1%nat).
Proof.
  intros Hx. unfold utf8.DecodeRuneInString. rewrite Hx.
  change (utf8.as_ <=? utf8.as_) with true. cbv iota.
  change (Z.shiftr (int32 (Z.shiftl utf8.as_ 31)) 31) with 0.
  rewrite Z.ldiff_0_r, Z.land_0_r, Z.lor_0_r. reflexivity.
Qed.

Lemma Decode_eqxx (c0 : ascii) (t : string) :
  utf8.first (byte_val c0) = utf8.xx →
  utf8.DecodeRuneInString (String c0 t) = (utf8.RuneError, 1%nat).
Proof.
  intros Hx. unfold utf8.DecodeRuneInString. rewrite Hx.
  change (utf8.as_ <=? utf8.xx) with true. cbv iota.
  change (Z.shiftr (int32 (Z.shiftl utf8.xx 31)) 31) with (-1).
  rewrite Z.ldiff_m1_r, Z.land_m1_r. reflexivity.
Qed.

Lemma length_lt_false (n : nat) (k : Z) :
  k ≤ Z.of_nat n → (Z.of_nat n <? k) = false.
Proof. intros Hk. apply Z.ltb_ge. exact Hk. Qed.

Lemma length_lt_true (n : nat) (k : Z) :
  Z.of_nat n < k → (Z.of_nat n <? k) = true.
Proof. intros Hk. apply Z.ltb_lt. exact Hk. Qed.

Lemma Decode_eq2 (c0 : ascii) (t : string) (x lo hi : Z) :
  utf8.first (byte_val c0) = x → (utf8.as_ <=? x) = false → Z.land x 7 = 2 →
  utf8.acceptRanges (Z.shiftr x 4) = (lo, hi) →
  utf8.DecodeRuneInString (String c0 t)
  = match t with
    | String c1 _ =>
      if out_of lo hi c1 then (utf8.RuneError, 1%nat)
      else (Z.lor (Z.shiftl (Z.land (byte_val c0) utf8.mask2) 6)
                  (Z.land (byte_val c1) utf8.maskx), 2%nat)
    | EmptyString => (utf8.RuneError, 1%nat)
    end.
Proof.
  intros Hx Has Hsz Hacc. unfold utf8.DecodeRuneInString. rewrite Hx, Has, Hsz, Hacc.
  cbv iota. cbn [fst snd String.length]. destruct t as [|c1 t1].
  - rewrite length_lt_true by (cbn [String.length]; lia). reflexivity.
  - rewrite length_lt_false by (cbn [String.length]; lia).
    change (2 <=? 2) with true. reflexivity.
Qed.

Lemma Decode_eq3 (c0 : ascii) (t : string) (x lo hi : Z) :
  utf8.first (byte_val c0) = x → (utf8.as_ <=? x) = false → Z.land x 7 = 3 →
  utf8.acceptRanges (Z.shiftr x 4) = (lo, hi) →
  utf8.DecodeRuneInString (String c0 t)
  = match t with
    | String c1 (String c2 _) =>
      if out_of lo hi c1 then (utf8.RuneError, 1%nat)
      else if out_of utf8.locb utf8.hicb c2 then (utf8.RuneError, 1%nat)
      else (Z.lor (Z.lor (Z.shiftl (Z.land (byte_val c0) utf8.mask3) 12)
                         (Z.shiftl (Z.land (byte_val c1) utf8.maskx) 6))
                  (Z.land (byte_val c2) utf8.maskx), 3%nat)
    | _ => (utf8.RuneError, 1%nat)
    end.
Proof.
  intros Hx Has Hsz Hacc. unfold utf8.DecodeRuneInString. rewrite Hx, Has, Hsz, Hacc.
  cbv iota. cbn [fst snd]. destruct t as [|c1 [|c2 t2]].
  - rewrite length_lt_true by (cbn [String.length]; lia). reflexivity.
  - rewrite length_lt_true by (cbn [String.length]; lia). reflexivity.
  - rewrite length_lt_false by (cbn [String.length]; lia).
    change (3 <=? 2) with false. change (3 <=? 3) with true. reflexivity.
Qed.

Lemma Decode_eq4 (c0 : ascii) (t : string) (x lo hi : Z) :
  utf8.first (byte_val c0) = x → (utf8.as_ <=? x) = false → Z.land x 7 = 4 →
  utf8.acceptRanges (Z.shiftr x 4) = (lo, hi) →
  utf8.DecodeRuneInString (String c0 t)
  = match t with
    | String c1 (String c2 (String c3 _)) =>
      if out_of lo hi c1 then (utf8.RuneError, 1%nat)
      else if out_of utf8.locb utf8.hicb c2 then (utf8.RuneError, 1%nat)
      else if out_of utf8.locb utf8.hicb c3 then (utf8.RuneError, 1%nat)
      else (Z.lor (Z.lor (Z.lor (Z.shiftl (Z.land (byte_val c0) utf8.mask4) 18)
                                (Z.shiftl (Z.land (byte_val c1) utf8.maskx) 12))
                         (Z.shiftl (Z.land (byte_val c2) utf8.maskx) 6))
                  (Z.land (byte_val c3) utf8.maskx), 4%nat)
    | _ => (utf8.RuneError, 1%nat)
    end.
Proof.
  intros Hx Has Hsz Hacc. unfold utf8.DecodeRuneInString. rewrite Hx, Has, Hsz, Hacc.
  cbv iota. cbn [fst snd]. destruct t as [|c1 [|c2 [|c3 t3]]].
  - rewrite length_lt_true by (cbn [String.length]; lia). reflexivity.
  - rewrite length_lt_true by (cbn [String.length]; lia). reflexivity.
  - rewrite length_lt_true by (cbn [String.length]; lia). reflexivity.
  - rewrite length_lt_false by (cbn [String.length]; lia).
    change (4 <=? 2) with false. change (4 <=? 3) with false. reflexivity.
Qed.

Lemma out_of_false (lo hi : Z) (c : ascii) :
  out_of lo hi c = false → lo ≤ byte_val c ≤ hi.
Proof. unfold out_of. intros Ho. apply orb_false_elim in Ho as [H1 H2]. lia. Qed.

Lemma bytes_val_2 (c0 c1 : ascii) :
  utf8.bytes [byte_val c0; byte_val c1] = String c0 (String c1 "").
Proof. unfold utf8.bytes, fold_right. rewrite !byte_of_val. reflexivity. Qed.

Lemma bytes_val_3 (c0 c1 c2 : ascii) :
  utf8.bytes [byte_val c0; byte_val c1; byte_val c2] = String c0 (String c1 (String c2 "")).
Proof. unfold utf8.bytes, fold_right. rewrite !byte_of_val. reflexivity. Qed.

Lemma bytes_val_4 (c0 c1 c2 c3 : ascii) :
  utf8.bytes [byte_val c0; byte_val c1; byte_val c2; byte_val c3]
  = String c0 (String c1 (String c2 (String c3 ""))).
Proof. unfold utf8.bytes, fold_right. rewrite !byte_of_val. reflexivity. Qed.

(** The shape of a decoding that is not the error of width one: the string
    starts with the sequence [pre], which encodes [r]; [r] is decoded from
    [pre] whatever follows. *)
Lemma DecodeRune_good (c0 : ascii) (t : string) (r : Z) (size : nat) :
  utf8.DecodeRuneInString (String c0 t) = (r, size) →
  (r =? utf8.RuneError) && (size =? 1)%nat = false →
  ∃ pre post,
    String c0 t = pre ++ post
    ∧ String.length pre = size
    ∧ (1 ≤ size ≤ 4)%nat
    ∧ utf8.EncodeRune r = pre
    ∧ (∀ rest, utf8.DecodeRuneInString (pre ++ rest) = (r, size)).
Proof.
  pose proof (byte_val_range c0) as Hc0.
  assert (Hthree : ∀ x lo hi,
    utf8.first (byte_val c0) = x → (utf8.as_ <=? x) = false → Z.land x 7 = 3 →
    utf8.acceptRanges (Z.shiftr x 4) = (lo, hi) →
    0xE0 ≤ byte_val c0 ≤ 0xEF → 0x80 ≤ lo → hi ≤ 0xBF →
    (byte_val c0 = 0xE0 → 0xA0 ≤ lo) → (byte_val c0 = 0xED → hi ≤ 0x9F) →
    utf8.DecodeRuneInString (String c0 t) = (r, size) →
    (r =? utf8.RuneError) && (size =? 1)%nat = false →
    ∃ pre post,
      String c0 t = pre ++ post ∧ String.length pre = size ∧ (1 ≤ size ≤ 4)%nat
      ∧ utf8.EncodeRune r = pre
      ∧ (∀ rest, utf8.DecodeRuneInString (pre ++ rest) = (r, size))).
  { intros x lo hi Hx Has Hsz Hacc H0 Hlo Hhi HE0 HED.
    pose proof (λ t', Decode_eq3 c0 t' x lo hi Hx Has Hsz Hacc) as Heq.
    rewrite Heq. destruct t as [|c1 [|c2 t2]]; try (intros [= <- <-]; discriminate).
    destruct (out_of lo hi c1) eqn:Ho1; [intros [= <- <-]; discriminate|].
    destruct (out_of utf8.locb utf8.hicb c2) eqn:Ho2; [intros [= <- <-]; discriminate|].
    pose proof (out_of_false _ _ _ Ho1) as Hb1.
    pose proof (out_of_false _ _ _ Ho2) as Hb2. unfold utf8.locb, utf8.hicb in Hb2.
    intros [= <- <-] _.
    exists (String c0 (String c1 (String c2 ""))), t2.
    split; [reflexivity|]. split; [reflexivity|]. split; [lia|].
    rewrite rune3_arith by lia.
    split; [rewrite EncodeRune_3 by lia; apply bytes_val_3|].
    intros rest.
    change (String c0 (String c1 (String c2 "")) ++ rest)
      with (String c0 (String c1 (String c2 rest))).
    rewrite Heq, Ho1, Ho2, rune3_arith by lia. reflexivity. }
  assert (Hfour : ∀ x lo hi,
    utf8.first (byte_val c0) = x → (utf8.as_ <=? x) = false → Z.land x 7 = 4 →
    utf8.acceptRanges (Z.shiftr x 4) = (lo, hi) →
    0xF0 ≤ byte_val c0 ≤ 0xF4 → 0x80 ≤ lo → hi ≤ 0xBF →
    (byte_val c0 = 0xF0 → 0x90 ≤ lo) → (byte_val c0 = 0xF4 → hi ≤ 0x8F) →
    utf8.DecodeRuneInString (String c0 t) = (r, size) →
    (r =? utf8.RuneError) && (size =? 1)%nat = false →
    ∃ pre post,
      String c0 t = pre ++ post ∧ String.length pre = size ∧ (1 ≤ size ≤ 4)%nat
      ∧ utf8.EncodeRune r = pre
      ∧ (∀ rest, utf8.DecodeRuneInString (pre ++ rest) = (r, size))).
  { intros x lo hi Hx Has Hsz Hacc H0 Hlo Hhi HF0 HF4.
    pose proof (λ t', Decode_eq4 c0 t' x lo hi Hx Has Hsz Hacc) as Heq.
    rewrite Heq. destruct t as [|c1 [|c2 [|c3 t3]]]; try (intros [= <- <-]; discriminate).
    destruct (out_of lo hi c1) eqn:Ho1; [intros [= <- <-]; discriminate|].
    destruct (out_of utf8.locb utf8.hicb c2) eqn:Ho2; [intros [= <- <-]; discriminate|].
    destruct (out_of utf8.locb utf8.hicb c3) eqn:Ho3; [intros [= <- <-]; discriminate|].
    pose proof (out_of_false _ _ _ Ho1) as Hb1.
    pose proof (out_of_false _ _ _ Ho2) as Hb2. unfold utf8.locb, utf8.hicb in Hb2.
    pose proof (out_of_false _ _ _ Ho3) as Hb3. unfold utf8.locb, utf8.hicb in Hb3.
    intros [= <- <-] _.
    exists (String c0 (String c1 (String c2 (String c3 "")))), t3.
    split; [reflexivity|]. split; [reflexivity|]. split; [lia|].
    rewrite rune4_arith by lia.
    split; [rewrite EncodeRune_4 by lia; apply bytes_val_4|].
    intros rest.
    change (String c0 (String c1 (String c2 (String c3 ""))) ++ rest)
      with (String c0 (String c1 (String c2 (String c3 rest)))).
    rewrite Heq, Ho1, Ho2, Ho3, rune4_arith by lia. reflexivity. }
  destruct (first_class (byte_val c0) Hc0)
    as [[H0 Hx]|[Hx|[[H0 Hx]|[[H0 Hx]|[(H0 & H0' & Hx)|[[H0 Hx]|[[H0 Hx]|[[H0 Hx]|[H0 Hx]]]]]]]]].
  - (* ASCII *)
    rewrite (Decode_eq1 _ _ Hx). intros [= <- <-] _.
    exists (String c0 ""), t. split; [reflexivity|]. split; [reflexivity|]. split; [lia|].
    split; [rewrite EncodeRune_1 by lia; apply bytes_val_1|].
    intros rest. apply (Decode_eq1 _ _ Hx).
  - (* a byte that starts no sequence *)
    rewrite (Decode_eqxx _ _ Hx). intros [= <- <-]. discriminate.
  - (* two bytes *)
    pose proof (λ t', Decode_eq2 c0 t' _ 0x80 0xBF Hx eq_refl eq_refl eq_refl) as Heq.
    rewrite Heq. destruct t as [|c1 t1]; [intros [= <- <-]; discriminate|].
    destruct (out_of 0x80 0xBF c1) eqn:Ho1; [intros [= <- <-]; discriminate|].
    pose proof (out_of_false _ _ _ Ho1) as Hb1. intros [= <- <-] _.
    exists (String c0 (String c1 "")), t1.
    split; [reflexivity|]. split; [reflexivity|]. split; [lia|].
    rewrite rune2_arith by lia.
    split; [rewrite EncodeRune_2 by lia; apply bytes_val_2|].
    intros rest. change (String c0 (String c1 "") ++ rest) with (String c0 (String c1 rest)).
    rewrite Heq, Ho1, rune2_arith by lia. reflexivity.
  - apply (Hthree _ 0xA0 0xBF Hx eq_refl eq_refl eq_refl); lia.
  - apply (Hthree _ 0x80 0xBF Hx eq_refl eq_refl eq_refl); lia.
  - apply (Hthree _ 0x80 0x9F Hx eq_refl eq_refl eq_refl); lia.
  - apply (Hfour _ 0x90 0xBF Hx eq_refl eq_refl eq_refl); lia.
  - apply (Hfour _ 0x80 0xBF Hx eq_refl eq_refl eq_refl); lia.
  - apply (Hfour _ 0x80 0x8F Hx eq_refl eq_refl eq_refl); lia.
Qed.

(** ** JSON strings: what the encoder writes, the decoder reads back *)

Lemma app_cons (c : ascii) (a b : string) : String c a ++ b = String c (a ++ b).
Proof. reflexivity. Qed.

Lemma app_nil_l (b : string) : "" ++ b = b.
Proof. reflexivity. Qed.

Lemma sdrop_app (pre post : string) : sdrop (String.length pre) (pre ++ post) = post.
Proof.
  induction pre as [|c pre IH]; [destruct post; reflexivity|].
  rewrite app_cons. exact IH.
Qed.

Lemma stake_app (pre post : string) : stake (String.length pre) (pre ++ post) = pre.
Proof.
  induction pre as [|c pre IH]; [destruct post; reflexivity|].
  rewrite app_cons. cbn [String.length stake]. rewrite IH. reflexivity.
Qed.

Lemma string_app_assoc (a b c : string) : (a ++ b) ++ c = a ++ (b ++ c).
Proof. induction a as [|x a IH]; [reflexivity|]. rewrite !app_cons, IH. reflexivity. Qed.

Lemma string_length_app (a b : string) :
  String.length (a ++ b) = (String.length a + String.length b)%nat.
Proof.
  induction a as [|x a IH]; [reflexivity|].
  rewrite app_cons. cbn [String.length]. rewrite IH. reflexivity.
Qed.

Lemma string_body_S (n : nat) (s : string) :
  json.string_body (S n) s
  = match s with
    | EmptyString => None
    | String c rest =>
      let b := byte_val c in
      if b =? 0x22 then Some ("", rest)
      else if b =? 0x5C then
        match rest with
        | EmptyString => None
        | String e rest' =>
          let be := byte_val e in
          if be =? 0x75 then
            let rr := json.getu4 s in
            if rr <? 0 then None
            else
              let after := sdrop 6 s in
              if utf16.IsSurrogate rr then
                let dec := utf16.DecodeRune rr (json.getu4 after) in
                if negb (dec =? utf16.replacementChar)
                then json.prepend (utf8.EncodeRune dec) (json.string_body n (sdrop 6 after))
                else json.prepend (utf8.EncodeRune utf16.replacementChar) (json.string_body n after)
              else json.prepend (utf8.EncodeRune rr) (json.string_body n after)
          else
            match json.unescape be with
            | Some ch => json.prepend (String ch "") (json.string_body n rest')
            | None => None
            end
        end
      else if b <? 0x20 then None
      else if b <? utf8.RuneSelf then json.prepend (String c "") (json.string_body n rest)
      else
        let '(rr, size) := utf8.DecodeRuneInString s in
        json.prepend (utf8.EncodeRune rr) (json.string_body n (sdrop size s))
    end.
Proof. reflexivity. Qed.

(** A byte written as it is. *)
Lemma string_body_safe (c : ascii) (m : nat) (x : string) :
  json.htmlSafeSet (byte_val c) = true →
  json.string_body (S m) (String c x) = json.prepend (String c "") (json.string_body m x).
Proof.
  intros Hsafe. rewrite string_body_S. cbv zeta.
  unfold json.htmlSafeSet in Hsafe.
  repeat (apply andb_prop in Hsafe as [Hsafe ?]).
  repeat match goal with H : negb _ = true |- _ => apply negb_true_iff in H end.
  unfold utf8.RuneSelf.
  ztests; reflexivity.
Qed.


(** A byte written as an escape. *)
Lemma string_body_escape (c : ascii) (m : nat) (x : string) :
  byte_val c < 0x80 → json.htmlSafeSet (byte_val c) = false →
  json.string_body (S m) ("\" ++ json.escape_byte c ++ x)
  = json.prepend (String c "") (json.string_body m x).
Proof.
  intros Hlt Hsafe. rewrite string_body_S. generalize (json.string_body m). intros f.
  destruct c as [b0 b1 b2 b3 b4 b5 b6 [|]];
    [exfalso; revert Hlt; destruct b0, b1, b2, b3, b4, b5, b6; vm_compute; discriminate|].
  destruct b0, b1, b2, b3, b4, b5, b6;
    try (vm_compute in Hsafe; discriminate Hsafe);
    vm_compute; reflexivity.
Qed.

(** A valid multi-byte sequence, written as it is. *)
Lemma string_body_multibyte (c0 : ascii) (pre' x : string) (r : Z) (m : nat) :
  0x80 ≤ byte_val c0 →
  utf8.DecodeRuneInString (String c0 pre' ++ x) = (r, String.length (String c0 pre')) →
  utf8.EncodeRune r = String c0 pre' →
  json.string_body (S m) (String c0 pre' ++ x)
  = json.prepend (String c0 pre') (json.string_body m x).
Proof.
  intros Hb Hdec Henc. rewrite app_cons, string_body_S. cbv zeta.
  replace (byte_val c0 =? 0x22) with false by (symmetry; apply Z.eqb_neq; lia).
  replace (byte_val c0 =? 0x5C) with false by (symmetry; apply Z.eqb_neq; lia).
  replace (byte_val c0 <? 0x20) with false by (symmetry; apply Z.ltb_ge; lia).
  replace (byte_val c0 <? utf8.RuneSelf) with false
    by (symmetry; apply Z.ltb_ge; unfold utf8.RuneSelf; lia).
  rewrite <- app_cons, Hdec, Henc, sdrop_app. reflexivity.
Qed.

(** The line and paragraph separators, written as escapes. *)
Lemma string_body_separator (r : Z) (m : nat) (x : string) :
  (r =? 0x2028) || (r =? 0x2029) = true →
  json.string_body (S m) ("\u202" ++ String (json.hex (Z.land r 0xF)) "" ++ x)
  = json.prepend (utf8.EncodeRune r) (json.string_body m x).
Proof.
  intros Hr. rewrite string_body_S. generalize (json.string_body m). intros f.
  apply orb_true_iff in Hr as [Hr|Hr]; apply Z.eqb_eq in Hr; subst r;
    vm_compute; reflexivity.
Qed.

Lemma first_ascii (b : Z) : 0 ≤ b < 0x80 → utf8.first b = utf8.as_.
Proof. intros Hb. unfold utf8.first. ztests; reflexivity. Qed.

Lemma string_loop_S (n : nat) (c : ascii) (rest : string) :
  json.string_loop (S n) (String c rest)
  = let s := String c rest in
    let b := byte_val c in
    if b <? utf8.RuneSelf then
      if json.htmlSafeSet b then String c (json.string_loop n rest)
      else "\" ++ json.escape_byte c ++ json.string_loop n rest
    else
      let '(r, size) := utf8.DecodeRuneInString s in
      if (r =? utf8.RuneError) && (size =? 1)%nat then
        "\uff" ++ "fd" ++ json.string_loop n (sdrop size s)
      else if (r =? 0x2028) || (r =? 0x2029) then
        "\u202" ++ String (json.hex (Z.land r 0xF)) "" ++ json.string_loop n (sdrop size s)
      else stake size s ++ json.string_loop n (sdrop size s).
Proof. reflexivity. Qed.

Lemma string_body_end (m : nat) (rest : string) :
  (0 < m)%nat → json.string_body m (dq ++ rest) = Some ("", rest).
Proof. intros Hm. destruct m as [|m]; [lia|]. reflexivity. Qed.

Lemma prepend_Some (p t r : string) : json.prepend p (Some (t, r)) = Some (p ++ t, r).
Proof. reflexivity. Qed.

(** What the encoder writes between the quotes for a valid string, the
    decoder reads back as that string. *)
Lemma string_loop_roundtrip (n : nat) :
  ∀ s, (String.length s ≤ n)%nat → utf8.valid_loop n s = true →
  ∀ rest m, (String.length (json.string_loop n s) < m)%nat →
  json.string_body m (json.string_loop n s ++ dq ++ rest) = Some (s, rest).
Proof.
  induction n as [|n IH]; intros s Hlen Hvalid rest m Hm.
  { destruct s as [|c t]; [|cbn [String.length] in Hlen; lia].
    apply string_body_end. lia. }
  destruct s as [|c t]; [apply string_body_end; lia|].
  cbn [String.length] in Hlen.
  cbn [utf8.valid_loop] in Hvalid.
  rewrite string_loop_S in Hm |- *. cbv zeta in Hm |- *.
  pose proof (byte_val_range c) as Hc.
  destruct (Z.ltb_spec (byte_val c) utf8.RuneSelf) as [Hascii|Hmulti]; unfold utf8.RuneSelf in *.
  - rewrite (Decode_eq1 c t) in Hvalid by (apply first_ascii; lia).
    replace ((byte_val c =? utf8.RuneError) && (1 =? 1)%nat) with false in Hvalid
      by (symmetry; apply andb_false_intro1, Z.eqb_neq; unfold utf8.RuneError; lia).
    change (sdrop 1 (String c t)) with t in Hvalid.
    destruct (json.htmlSafeSet (byte_val c)) eqn:Hsafe.
    + cbn [String.length] in Hm. destruct m as [|m]; [lia|].
      rewrite app_cons, string_body_safe by exact Hsafe.
      rewrite (IH t) by (assumption || lia). reflexivity.
    + rewrite !string_length_app in Hm. cbn [String.length] in Hm.
      destruct m as [|m]; [lia|].
      rewrite !string_app_assoc, string_body_escape by assumption.
      rewrite (IH t) by (assumption || lia). reflexivity.
  - destruct (utf8.DecodeRuneInString (String c t)) as [r size] eqn:Hdec.
    destruct ((r =? utf8.RuneError) && (size =? 1)%nat) eqn:Herr; [discriminate|].
    destruct (DecodeRune_good c t r size Hdec Herr)
      as (pre & post & Hs & Hlenpre & Hsz & Henc & Hstable).
    assert (Hdrop : sdrop size (String c t) = post)
      by (rewrite Hs, <- Hlenpre; apply sdrop_app).
    assert (Htake : stake size (String c t) = pre)
      by (rewrite Hs, <- Hlenpre; apply stake_app).
    rewrite Hdrop in Hvalid, Hm |- *. rewrite Htake in Hm |- *.
    assert (Hpost : (String.length post ≤ n)%nat).
    { apply (f_equal String.length) in Hs. rewrite string_length_app in Hs.
      cbn [String.length] in Hs. lia. }
    destruct pre as [|c' pre']; [cbn [String.length] in Hlenpre; lia|].
    assert (c' = c) as -> by (rewrite app_cons in Hs; congruence).
    destruct ((r =? 0x2028) || (r =? 0x2029)) eqn:Hsep.
    + rewrite !string_length_app in Hm. cbn [String.length] in Hm.
      destruct m as [|m]; [lia|].
      rewrite !string_app_assoc, string_body_separator by exact Hsep.
      rewrite (IH post) by (assumption || lia).
      rewrite prepend_Some, Henc, <- Hs. reflexivity.
    + rewrite string_length_app in Hm. cbn [String.length] in Hm.
      destruct m as [|m]; [lia|].
      rewrite string_app_assoc, string_body_multibyte with (r := r);
        [|lia|rewrite Hlenpre; apply Hstable|exact Henc].
      rewrite (IH post) by (assumption || lia).
      rewrite prepend_Some, <- Hs. reflexivity.
Qed.

Lemma encode_string_roundtrip (s rest : string) (m : nat) :
  utf8.ValidString s = true →
  (String.length (json.string_loop (String.length s) s) < m)%nat →
  json.string_body m (json.string_loop (String.length s) s ++ dq ++ rest) = Some (s, rest).
Proof. intros Hv Hm. apply string_loop_roundtrip; [lia|exact Hv|exact Hm]. Qed.

(** ** JSON values: what [render] writes, [parse] reads back *)

Lemma parse_value_S (n : nat) (d : Z) (s : string) :
  json.parse_value (S n) d s
  = match json.skip_ws s with
    | EmptyString => None
    | String c r =>
      let b := byte_val c in
      if b =? 0x22 then
        match json.string_body (String.length r) r with
        | Some (t, r') => Some (json.JString t, r')
        | None => None
        end
      else if b =? 0x5B then
        if json.maxNestingDepth <? d + 1 then None
        else
          match json.skip_ws r with
          | EmptyString => None
          | String c' r' =>
            if byte_val c' =? 0x5D then Some (json.JArray [], r')
            else
              match json.parse_elems n (d + 1) r with
              | Some (l, r'') => Some (json.JArray l, r'')
              | None => None
              end
          end
      else if b =? 0x7B then
        if json.maxNestingDepth <? d + 1 then None
        else
          match json.skip_ws r with
          | EmptyString => None
          | String c' r' =>
            if byte_val c' =? 0x7D then Some (json.JObject [], r')
            else
              match json.parse_members n (d + 1) r with
              | Some (l, r'') => Some (json.JObject l, r'')
              | None => None
              end
          end
      else if b =? 0x74 then
        match json.strip_prefix "rue" r with
        | Some r' => Some (json.JBool true, r')
        | None => None
        end
      else if b =? 0x66 then
        match json.strip_prefix "alse" r with
        | Some r' => Some (json.JBool false, r')
        | None => None
        end
      else if b =? 0x6E then
        match json.strip_prefix "ull" r with
        | Some r' => Some (json.JNull, r')
        | None => None
        end
      else
        match json.scan_number (String c r) with
        | Some (lit, r') => Some (json.JNumber lit, r')
        | None => None
        end
    end.
Proof. reflexivity. Qed.

Lemma parse_elems_S (n : nat) (d : Z) (s : string) :
  json.parse_elems (S n) d s
  = match json.parse_value n d s with
    | None => None
    | Some (v, r) =>
      match json.skip_ws r with
      | EmptyString => None
      | String c r' =>
        if byte_val c =? 0x2C then
          match json.parse_elems n d r' with
          | Some (l, r'') => Some (v :: l, r'')
          | None => None
          end
        else if byte_val c =? 0x5D then Some ([v], r')
        else None
      end
    end.
Proof. reflexivity. Qed.

Lemma parse_members_S (n : nat) (d : Z) (s : string) :
  json.parse_members (S n) d s
  = match json.skip_ws s with
    | EmptyString => None
    | String c r =>
      if negb (byte_val c =? 0x22) then None
      else
        match json.string_body (String.length r) r with
        | None => None
        | Some (k, r1) =>
          match json.skip_ws r1 with
          | EmptyString => None
          | String c1 r2 =>
            if negb (byte_val c1 =? 0x3A) then None
            else
              match json.parse_value n d r2 with
              | None => None
              | Some (v, r3) =>
                match json.skip_ws r3 with
                | EmptyString => None
                | String c3 r4 =>
                  if byte_val c3 =? 0x2C then
                    match json.parse_members n d r4 with
                    | Some (l, r5) => Some ((k, v) :: l, r5)
                    | None => None
                    end
                  else if byte_val c3 =? 0x7D then Some ([(k, v)], r4)
                  else None
                end
              end
          end
        end
    end.
Proof. reflexivity. Qed.

(** Reading a string literal written by the encoder. *)
Lemma parse_encoded_string (s rest : string) :
  utf8.ValidString s = true →
  json.string_body (String.length (json.string_loop (String.length s) s ++ dq ++ rest))
    (json.string_loop (String.length s) s ++ dq ++ rest) = Some (s, rest).
Proof.
  intros Hv. apply encode_string_roundtrip; [exact Hv|].
  rewrite !string_length_app. cbn [String.length dq]. lia.
Qed.

(** The first byte of a rendered value: not white space, not a closing
    bracket. *)
Lemma render_head (d : Z) (j : json.value) :
  value_ok d j = true →
  ∃ c x, json.render j = String c x ∧ json.is_ws c = false
         ∧ (byte_val c =? 0x5D) = false ∧ (byte_val c =? 0x7D) = false.
Proof.
  destruct j as [|[|]|lit|s|l|l]; intros Hok; try discriminate Hok;
    cbn [json.render]; unfold json.encode_string, dq;
    rewrite ?app_cons; eexists _, _; (split; [reflexivity|]);
    repeat split; reflexivity.
Qed.

Lemma join_cons2 (sep x y : string) (l : list string) :
  json.join sep (x :: y :: l) = x ++ sep ++ json.join sep (y :: l).
Proof. reflexivity. Qed.

Lemma join_one (sep x : string) : json.join sep [x] = x.
Proof. reflexivity. Qed.

Lemma value_size_pos (j : json.value) : (1 ≤ value_size j)%nat.
Proof. destruct j; simpl; lia. Qed.

Ltac norm_app := rewrite ?string_app_assoc; rewrite ?app_cons, ?app_nil_l.

Lemma render_array (l : list json.value) :
  json.render (json.JArray l) = "[" ++ json.join "," (List.map json.render l) ++ "]".
Proof. reflexivity. Qed.

Lemma render_object (l : list (string * json.value)) :
  json.render (json.JObject l) = "{" ++ json.join "," (List.map member_text l) ++ "}".
Proof. reflexivity. Qed.

Lemma skip_ws_head (c : ascii) (x : string) :
  json.is_ws c = false → json.skip_ws (String c x) = String c x.
Proof. intros Hc. cbn [json.skip_ws]. rewrite Hc. reflexivity. Qed.

Lemma parse_value_quote (n : nat) (d : Z) (r : string) :
  json.parse_value (S n) d (String dqc r)
  = match json.string_body (String.length r) r with
    | Some (t, r') => Some (json.JString t, r')
    | None => None
    end.
Proof. reflexivity. Qed.

Lemma parse_value_bracket (n : nat) (d : Z) (r : string) :
  json.parse_value (S n) d (String "[" r)
  = if json.maxNestingDepth <? d + 1 then None
    else
      match json.skip_ws r with
      | EmptyString => None
      | String c' r' =>
        if byte_val c' =? 0x5D then Some (json.JArray [], r')
        else
          match json.parse_elems n (d + 1) r with
          | Some (l, r'') => Some (json.JArray l, r'')
          | None => None
          end
      end.
Proof. reflexivity. Qed.

Lemma parse_value_brace (n : nat) (d : Z) (r : string) :
  json.parse_value (S n) d (String "{" r)
  = if json.maxNestingDepth <? d + 1 then None
    else
      match json.skip_ws r with
      | EmptyString => None
      | String c' r' =>
        if byte_val c' =? 0x7D then Some (json.JObject [], r')
        else
          match json.parse_members n (d + 1) r with
          | Some (l, r'') => Some (json.JObject l, r'')
          | None => None
          end
      end.
Proof. reflexivity. Qed.

Lemma parse_elems_step (n : nat) (d : Z) (s : string) (v : json.value) (r : string) :
  json.parse_value n d s = Some (v, r) →
  json.parse_elems (S n) d s
  = match json.skip_ws r with
    | EmptyString => None
    | String c r' =>
      if byte_val c =? 0x2C then
        match json.parse_elems n d r' with
        | Some (l, r'') => Some (v :: l, r'')
        | None => None
        end
      else if byte_val c =? 0x5D then Some ([v], r')
      else None
    end.
Proof. intros Hv. rewrite parse_elems_S, Hv. reflexivity. Qed.

Lemma parse_members_step (n : nat) (d : Z) (k : string) (v : json.value) (r r2 r3 : string) :
  json.string_body (String.length r) r = Some (k, String ":" r2) →
  json.parse_value n d r2 = Some (v, r3) →
  json.parse_members (S n) d (String dqc r)
  = match json.skip_ws r3 with
    | EmptyString => None
    | String c3 r4 =>
      if byte_val c3 =? 0x2C then
        match json.parse_members n d r4 with
        | Some (l, r5) => Some ((k, v) :: l, r5)
        | None => None
        end
      else if byte_val c3 =? 0x7D then Some ([(k, v)], r4)
      else None
    end.
Proof.
  intros Hk Hv. rewrite parse_members_S.
  change (json.skip_ws (String dqc r)) with (String dqc r). cbv iota.
  change (negb (byte_val dqc =? 34)) with false. cbv iota.
  rewrite Hk. change (json.skip_ws (String ":" r2)) with (String ":" r2). cbv iota.
  change (negb (byte_val ":" =? 58)) with false. cbv iota.
  rewrite Hv. reflexivity.
Qed.

Lemma elems_text_head (d : Z) (x : json.value) (l : list json.value) (y : string) :
  value_ok d x = true →
  ∃ c z, json.join "," (List.map json.render (x :: l)) ++ y = String c z
         ∧ json.is_ws c = false ∧ (byte_val c =? 0x5D) = false.
Proof.
  intros Hx. destruct (render_head d x Hx) as (c & x0 & Hr & Hws & Hc & _).
  cbn [List.map]. destruct l as [|x' l].
  - rewrite join_one, Hr, app_cons. eauto.
  - cbn [List.map]. rewrite join_cons2, Hr, !app_cons. eauto.
Qed.

Lemma members_text_head (kv : string * json.value) (l : list (string * json.value))
  (y : string) :
  ∃ z, json.join "," (List.map member_text (kv :: l)) ++ y = String dqc z.
Proof.
  cbn [List.map]. unfold member_text at 1. unfold json.encode_string, dq.
  destruct l as [|kv' l].
  - rewrite join_one. norm_app. eauto.
  - cbn [List.map]. rewrite join_cons2. norm_app. eauto.
Qed.

Lemma parse_render_n (n : nat) :
  (∀ j d rest, value_ok d j = true → (value_size j ≤ n)%nat →
     json.parse_value n d (json.render j ++ rest) = Some (j, rest))
  ∧ (∀ l d rest, l ≠ [] → forallb (value_ok d) l = true →
       (list_sum (List.map (λ x, S (value_size x)) l) ≤ n)%nat →
       json.parse_elems n d (json.join "," (List.map json.render l) ++ "]" ++ rest)
       = Some (l, rest))
  ∧ (∀ l d rest, l ≠ [] →
       forallb (λ kv, utf8.ValidString (fst kv) && value_ok d (snd kv)) l = true →
       (list_sum (List.map (λ kv, S (value_size (snd kv))) l) ≤ n)%nat →
       json.parse_members n d (json.join "," (List.map member_text l) ++ "}" ++ rest)
       = Some (l, rest)).
Proof.
  induction n as [|n (IHv & IHe & IHm)].
  { split; [|split].
    - intros j d rest _ Hsize. pose proof (value_size_pos j). lia.
    - intros [|x l] d rest Hne _ Hsize; [congruence|]. simpl in Hsize. lia.
    - intros [|x l] d rest Hne _ Hsize; [congruence|]. simpl in Hsize. lia. }
  split; [|split].
  - intros j d rest Hok Hsize.
    destruct j as [|[|]|lit|s|l|l]; try discriminate Hok; try reflexivity.
    + (* a string *)
      cbn [value_ok] in Hok. cbn [json.render]. unfold json.encode_string, dq. norm_app.
      rewrite parse_value_quote.
      change (String dqc rest) with (dq ++ rest).
      rewrite parse_encoded_string by exact Hok. reflexivity.
    + (* an array *)
      cbn [value_ok] in Hok. apply andb_prop in Hok as [Hd Hok].
      rewrite render_array. norm_app. rewrite parse_value_bracket.
      replace (json.maxNestingDepth <? d + 1) with false by (symmetry; apply Z.ltb_ge; lia).
      destruct l as [|x l]; [reflexivity|].
      pose proof Hok as Hx. cbn [forallb] in Hx. apply andb_prop in Hx as [Hx _].
      destruct (elems_text_head (d + 1) x l (String "]" rest) Hx) as (c & z & Heq & Hws & Hc).
      set (T := json.join "," (List.map json.render (x :: l)) ++ String "]" rest) in *.
      assert (Hskip : json.skip_ws T = String c z) by (rewrite Heq; apply skip_ws_head, Hws).
      rewrite Hskip, Hc. unfold T. change (String "]" rest) with ("]" ++ rest).
      rewrite IHe; [reflexivity|discriminate|exact Hok|].
      cbn [value_size] in Hsize. lia.
    + (* an object *)
      cbn [value_ok] in Hok. apply andb_prop in Hok as [Hd Hok].
      rewrite render_object. norm_app. rewrite parse_value_brace.
      replace (json.maxNestingDepth <? d + 1) with false by (symmetry; apply Z.ltb_ge; lia).
      destruct l as [|kv l]; [reflexivity|].
      destruct (members_text_head kv l (String "}" rest)) as (z & Heq).
      set (T := json.join "," (List.map member_text (kv :: l)) ++ String "}" rest) in *.
      assert (Hskip : json.skip_ws T = String dqc z) by (rewrite Heq; reflexivity).
      rewrite Hskip. change (byte_val dqc =? 125) with false. cbv iota.
      unfold T. change (String "}" rest) with ("}" ++ rest).
      rewrite IHm; [reflexivity|discriminate|exact Hok|].
      cbn [value_size] in Hsize. lia.
  - (* the elements of an array *)
    intros l d rest Hne Hok Hsize. destruct l as [|x l]; [congruence|]. clear Hne.
    cbn [forallb] in Hok. apply andb_prop in Hok as [Hx Hl].
    destruct l as [|y l].
    + cbn [List.map]. rewrite join_one.
      rewrite (parse_elems_step n d _ x ("]" ++ rest)) by (apply IHv; [exact Hx|simpl in Hsize; lia]).
      reflexivity.
    + cbn [List.map]. rewrite join_cons2. norm_app.
      rewrite (parse_elems_step n d _ x
                 (String "," (json.join "," (json.render y :: List.map json.render l)
                              ++ String "]" rest)))
        by (apply IHv; [exact Hx|simpl in Hsize; lia]).
      change (json.skip_ws (String "," ?z)) with (String "," z). cbv iota.
      change (byte_val "," =? 44) with true. cbv iota.
      change (String "]" rest) with ("]" ++ rest).
      change (json.render y :: List.map json.render l) with (List.map json.render (y :: l)).
      rewrite IHe; [reflexivity|discriminate|exact Hl|simpl in Hsize |- *; lia].
  - (* the members of an object *)
    intros l d rest Hne Hok Hsize. destruct l as [|[k v] l]; [congruence|]. clear Hne.
    cbn [forallb fst snd] in Hok. apply andb_prop in Hok as [Hkv Hl].
    apply andb_prop in Hkv as [Hk Hv].
    assert (Hkey : ∀ tail,
      json.string_body
        (String.length (json.string_loop (String.length k) k ++ String dqc (String ":" tail)))
        (json.string_loop (String.length k) k ++ String dqc (String ":" tail))
      = Some (k, String ":" tail)).
    { intros tail. change (String dqc (String ":" tail)) with (dq ++ String ":" tail).
      apply parse_encoded_string, Hk. }
    destruct l as [|kv' l].
    + cbn [List.map]. rewrite join_one. unfold member_text, json.encode_string, dq.
      cbn [fst snd]. norm_app.
      rewrite (parse_members_step n d k v _ _ (String "}" rest) (Hkey _))
        by (change (String "}" rest) with ("}" ++ rest); apply IHv;
            [exact Hv|simpl in Hsize; lia]).
      reflexivity.
    + cbn [List.map]. rewrite join_cons2. unfold member_text at 1.
      unfold json.encode_string, dq. cbn [fst snd]. norm_app.
      rewrite (parse_members_step n d k v _ _
                 (String "," (json.join "," (member_text kv' :: List.map member_text l)
                              ++ String "}" rest)) (Hkey _))
        by (apply IHv; [exact Hv|simpl in Hsize; lia]).
      change (json.skip_ws (String "," ?z)) with (String "," z). cbv iota.
      change (byte_val "," =? 44) with true. cbv iota.
      change (String "}" rest) with ("}" ++ rest).
      change (member_text kv' :: List.map member_text l) with (List.map member_text (kv' :: l)).
      rewrite IHm; [reflexivity|discriminate|exact Hl|simpl in Hsize |- *; lia].
Qed.

Lemma sum_le_join {A : Type} (sz : A → nat) (f : A → string) (l : list A) :
  Forall (λ x, (sz x ≤ String.length (f x))%nat) l →
  (list_sum (List.map (λ x, S (sz x)) l) ≤ String.length (json.join "," (List.map f l)) + 1)%nat.
Proof.
  induction l as [|x l IH]; intros Hl; [simpl; lia|].
  apply Forall_cons in Hl as [Hx Hl]. specialize (IH Hl).
  destruct l as [|y l].
  - simpl. lia.
  - cbn [List.map] in IH |- *. rewrite join_cons2, !string_length_app.
    cbn [list_sum fold_right String.length] in IH |- *. simpl in IH |- *. lia.
Qed.

Lemma list_sum_elem {A : Type} (sz : A → nat) (l : list A) (x : A) :
  x ∈ l → (S (sz x) ≤ list_sum (List.map (λ x, S (sz x)) l))%nat.
Proof.
  induction l as [|y l IH]; intros Hx; [apply elem_of_nil in Hx; destruct Hx|].
  apply elem_of_cons in Hx as [->|Hx]; simpl; [lia|]. specialize (IH Hx). lia.
Qed.

(** A rendered value is at least as long as the value is big: the recursion
    bound that [parse] takes from the length of its input is enough. *)
Lemma value_size_length (n : nat) :
  ∀ j d, value_ok d j = true → (value_size j ≤ n)%nat →
  (value_size j ≤ String.length (json.render j))%nat.
Proof.
  induction n as [|n IH]; intros j d Hok Hsize.
  { pose proof (value_size_pos j). lia. }
  destruct j as [|[|]|lit|s|l|l]; try discriminate Hok; try (simpl; lia).
  - cbn [value_ok] in Hok. apply andb_prop in Hok as [_ Hok].
    rewrite render_array, !string_length_app. cbn [value_size String.length] in Hsize |- *.
    pose proof (sum_le_join value_size json.render l) as Hsum.
    assert (HF : Forall (λ x, (value_size x ≤ String.length (json.render x))%nat) l).
    { apply Forall_forall. intros x Hx. apply (IH x (d + 1)).
      - rewrite forallb_forall in Hok. apply Hok, list_elem_of_In, Hx.
      - pose proof (list_sum_elem value_size l x Hx). lia. }
    specialize (Hsum HF). lia.
  - cbn [value_ok] in Hok. apply andb_prop in Hok as [_ Hok].
    rewrite render_object, !string_length_app. cbn [value_size String.length] in Hsize |- *.
    pose proof (sum_le_join (λ kv, value_size (snd kv)) member_text l) as Hsum.
    assert (HF : Forall (λ kv, (value_size (snd kv) ≤ String.length (member_text kv))%nat) l).
    { apply Forall_forall. intros kv Hx. unfold member_text. rewrite !string_length_app.
      assert (value_size (snd kv) ≤ String.length (json.render (snd kv)))%nat; [|lia].
      apply (IH (snd kv) (d + 1)).
      - rewrite forallb_forall in Hok. apply list_elem_of_In, Hok in Hx.
        apply andb_prop in Hx as [_ Hx]. exact Hx.
      - pose proof (list_sum_elem (λ kv, value_size (snd kv)) l kv Hx). simpl in *. lia. }
    specialize (Hsum HF). lia.
Qed.

Lemma string_app_nil_r (s : string) : s ++ "" = s.
Proof. induction s as [|c s IH]; [reflexivity|]. rewrite app_cons, IH. reflexivity. Qed.

(** [parse] reads a rendered well-formed value back. *)
Lemma parse_render (j : json.value) :
  value_ok 0 j = true → json.parse (json.render j) = Some j.
Proof.
  intros Hok. unfold json.parse.
  pose proof (value_size_length (value_size j) j 0 Hok (le_n _)) as Hlen.
  destruct (parse_render_n (S (String.length (json.render j)))) as (Hv & _ & _).
  specialize (Hv j 0 "" Hok ltac:(lia)). rewrite string_app_nil_r in Hv.
  rewrite Hv. reflexivity.
Qed.

(** ** Storing a parsed product back *)

Lemma decode_Property_roundtrip (p : Property) :
  json.decode_Property (json.Property_to_json p) json.Property_zero = (p, None).
Proof. destruct p as [n v]. reflexivity. Qed.

Lemma decode_elems_roundtrip (ps : list Property) :
  json.decode_elems (List.map json.Property_to_json ps) [] None = (ps, None).
Proof.
  induction ps as [|p ps IH]; [reflexivity|].
  cbn [List.map json.decode_elems hd tl]. rewrite decode_Property_roundtrip.
  cbn [json.saveError]. rewrite IH. reflexivity.
Qed.

(** The JSON of a product decodes to the product, its empty slice nil. *)
Lemma decode_Product_roundtrip (p : Product) :
  json.decode_Product (json.Product_to_json p) Product.zero = (nil_if_empty_Product p, None).
Proof.
  destruct p as [id ty br na un qu pr ps].
  unfold json.Product_to_json, json.decode_Product, json.omitempty_string,
    nil_if_empty_Product, nil_if_empty.
  cbn [Product.ID Product.Type_ Product.Brand Product.Name Product.Unit Product.Quantity
       Product.Price Product.Properties json.set_Properties].
  destruct un as [|u0 un], qu as [|q0 qu], pr as [|p0 pr], ps as [[|ps0 ps]|];
    cbn [String.eqb app fold_left];
    try reflexivity.
  all: unfold json.decode_Product_member at 1;
    cbn - [json.decode_elems json.Property_to_json];
    pose proof (decode_elems_roundtrip (ps0 :: ps)) as Hr;
    cbn [List.map] in Hr; rewrite Hr; reflexivity.
Qed.

Lemma nil_if_empty_Product_id (p : Product) :
  Product.Properties p ≠ Some [] → nil_if_empty_Product p = p.
Proof.
  destruct p as [id ty br na un qu pr [[|q qs]|]]; intros Hp; try reflexivity.
  exfalso. apply Hp. reflexivity.
Qed.

Lemma nil_if_empty_Product_neq (p : Product) :
  Product.Properties p = Some [] → nil_if_empty_Product p ≠ p.
Proof.
  destruct p as [id ty br na un qu pr ps]. cbn [Product.Properties]. intros ->.
  unfold nil_if_empty_Product, nil_if_empty. cbn [Product.Properties json.set_Properties].
  intros [=].
Qed.

(** ** Products and mappings as well-formed JSON *)

Lemma Property_to_json_ok (d : Z) (p : Property) :
  d + 1 ≤ json.maxNestingDepth → valid_Property p = true →
  value_ok d (json.Property_to_json p) = true.
Proof.
  intros Hd Hp. unfold valid_Property in Hp. apply andb_prop in Hp as [Hn Hv].
  unfold json.Property_to_json. cbn [value_ok forallb fst snd].
  rewrite Hn, Hv. change (utf8.ValidString "name") with true.
  change (utf8.ValidString "value") with true.
  replace (d + 1 <=? json.maxNestingDepth) with true by (symmetry; apply Z.leb_le; lia).
  reflexivity.
Qed.

Lemma omitempty_ok (d : Z) (name s : string) :
  utf8.ValidString name = true → utf8.ValidString s = true →
  forallb (λ kv, utf8.ValidString (fst kv) && value_ok d (snd kv))
    (json.omitempty_string name s) = true.
Proof.
  intros Hn Hs. unfold json.omitempty_string.
  destruct (String.eqb s ""); [reflexivity|].
  cbn [forallb fst snd value_ok]. rewrite Hn, Hs. reflexivity.
Qed.

Lemma Product_to_json_ok (d : Z) (p : Product) :
  d + 3 ≤ json.maxNestingDepth → valid_Product p = true →
  value_ok d (json.Product_to_json p) = true.
Proof.
  intros Hd Hp. unfold valid_Product in Hp.
  repeat (apply andb_prop in Hp as [Hp ?]).
  unfold json.Product_to_json. cbn [value_ok].
  replace (d + 1 <=? json.maxNestingDepth) with true by (symmetry; apply Z.leb_le; lia).
  rewrite !forallb_app, !omitempty_ok by (assumption || reflexivity).
  cbn [forallb fst snd value_ok andb].
  repeat match goal with H : utf8.ValidString _ = true |- _ => rewrite H; clear H end.
  change (utf8.ValidString "id") with true. change (utf8.ValidString "type") with true.
  change (utf8.ValidString "brand") with true. change (utf8.ValidString "name") with true.
  cbn [andb].
  destruct (Product.Properties p) as [[|p0 ps]|] eqn:Hps; [reflexivity| |reflexivity].
  cbn [default] in *.
  cbn [forallb fst snd value_ok]. change (utf8.ValidString "properties") with true.
  replace (d + 1 + 1 <=? json.maxNestingDepth) with true by (symmetry; apply Z.leb_le; lia).
  cbn [andb]. rewrite andb_true_r.
  apply forallb_forall. intros j Hj. apply in_map_iff in Hj as (q & <- & Hq).
  apply Property_to_json_ok; [lia|].
  match goal with H : forallb valid_Property _ = true |- _ =>
    rewrite forallb_forall in H; apply H, Hq end.
Qed.

Lemma map_to_json_ok (m : Products) :
  valid_Products m = true → value_ok 0 (json.map_to_json m) = true.
Proof.
  intros Hm. destruct m as [g|]; [|reflexivity].
  unfold json.map_to_json. cbn [value_ok]. change (0 + 1 <=? json.maxNestingDepth) with true.
  cbn [andb]. apply forallb_forall. intros kv Hkv.
  apply in_map_iff in Hkv as ([k p] & <- & Hkp). cbn [fst snd].
  unfold valid_Products in Hm. rewrite forallb_forall in Hm.
  assert (Hin : In (k, p) (map_to_list (entries (Some g)))).
  { apply list_elem_of_In. apply list_elem_of_In in Hkp.
    unfold json.sorted_entries in Hkp. rewrite merge_sort_Permutation in Hkp. exact Hkp. }
  apply Hm in Hin. cbn [fst snd] in Hin. apply andb_prop in Hin as [Hk Hp].
  rewrite Hk. apply Product_to_json_ok; [unfold json.maxNestingDepth; lia|exact Hp].
Qed.

(** ** Marshal and Unmarshal *)

(** A product with valid strings comes back from its JSON text, its empty
    slice nil. *)
Lemma Unmarshal_Marshal_Product (p : Product) :
  valid_Product p = true →
  json.Unmarshal_Product (fst (json.Marshal_Product p)) Product.zero
  = (nil_if_empty_Product p, None).
Proof.
  intros Hp. unfold json.Unmarshal_Product, json.Unmarshal, json.Marshal_Product. cbn [fst].
  rewrite parse_render
    by (apply Product_to_json_ok; [unfold json.maxNestingDepth; lia|exact Hp]).
  apply decode_Product_roundtrip.
Qed.

Lemma decode_map_members (l : list (string * Product)) (acc : gmap string Product) :
  fold_left json.decode_map_member
    (List.map (λ kp, (fst kp, json.Product_to_json (snd kp))) l) (acc, None)
  = (fold_left (λ m kp, <[fst kp := nil_if_empty_Product (snd kp)]> m) l acc, None).
Proof.
  induction l as [|[k p] l IH] in acc |- *; [reflexivity|].
  cbn [List.map fold_left fst snd]. unfold json.decode_map_member at 2. cbn [fst snd].
  rewrite decode_Product_roundtrip. cbn [json.saveError]. apply IH.
Qed.

Lemma fold_left_insert (l : list (string * Product)) (g : gmap string Product) :
  l ≡ₚ map_to_list g → fold_left (λ m kp, <[fst kp := snd kp]> m) l ∅ = g.
Proof.
  intros Hl.
  rewrite <- (fold_left_rev_right (λ (kp : string * Product) (m : gmap string Product),
                                     <[fst kp := snd kp]> m)).
  assert (Hrev : map_to_list g ≡ₚ rev l) by (rewrite <- Hl; apply Permutation_rev).
  apply list_to_map_flip in Hrev. rewrite Hrev.
  generalize (rev l). intros l'. induction l' as [|[k p] l' IH]; [reflexivity|].
  cbn [fold_right list_to_map fst snd]. rewrite IH. reflexivity.
Qed.

Lemma fold_left_insert_fmap (f : Product → Product) (l : list (string * Product))
  (g : gmap string Product) :
  l ≡ₚ map_to_list g → fold_left (λ m kp, <[fst kp := f (snd kp)]> m) l ∅ = f <$> g.
Proof.
  intros Hl.
  assert (Hmap : ∀ acc : gmap string Product,
             fold_left (λ m kp, <[fst kp := f (snd kp)]> m) l acc
             = fold_left (λ m kp, <[fst kp := snd kp]> m) (prod_map id f <$> l) acc).
  { clear Hl. induction l as [|[k p] l IH]; intros acc; [reflexivity|].
    cbn [fold_left fmap list_fmap prod_map fst snd id]. apply IH. }
  rewrite Hmap. apply fold_left_insert.
  rewrite Hl, map_to_list_fmap. reflexivity.
Qed.

(** A mapping with valid strings comes back from the text of its custom
    codec, whatever the target held, the empty slices of its products
    nil. *)
Lemma UnmarshalJSON_MarshalJSON (m p0 : Products) :
  valid_Products m = true →
  UnmarshalJSON (fst (MarshalJSON m)) p0 = (nil_if_empty_Products m, None).
Proof.
  intros Hm. unfold UnmarshalJSON, MarshalJSON, json.Marshal_map, json.Unmarshal_map,
    json.Unmarshal. cbn [fst].
  rewrite parse_render by (apply map_to_json_ok, Hm).
  destruct m as [g|]; [|reflexivity].
  unfold json.map_to_json, json.decode_map. change (entries None) with (∅ : gmap string Product).
  rewrite decode_map_members, (fold_left_insert_fmap _ _ g); [reflexivity|].
  apply merge_sort_Permutation.
Qed.

Lemma nil_if_empty_Products_id (m : Products) :
  (∀ k p, entries m !! k = Some p → Product.Properties p ≠ Some []) →
  nil_if_empty_Products m = m.
Proof.
  intros Hm. destruct m as [g|]; [|reflexivity].
  unfold nil_if_empty_Products. cbn [fmap option_fmap option_map]. f_equal.
  apply map_eq. intros k. rewrite lookup_fmap.
  destruct (g !! k) as [p|] eqn:Hk; [|reflexivity].
  cbn [fmap option_fmap option_map]. f_equal. apply nil_if_empty_Product_id, (Hm k). exact Hk.
Qed.

(** ** The custom codec of the mapping, and round trips *)

#[local] Instance key_le_total : Total json.key_le.
Proof. intros a b. unfold json.key_le. apply (total String.le). Qed.




Lemma nil_if_empty_Product_fixed (p : Product) :
  nil_if_empty_Product p = p ↔ Product.Properties p ≠ Some [].
Proof.
  split; [|apply nil_if_empty_Product_id].
  intros Hp Hs. exact (nil_if_empty_Product_neq p Hs Hp).
Qed.

Lemma nil_if_empty_Products_fixed (m : Products) :
  nil_if_empty_Products m = m
  ↔ ∀ k q, entries m !! k = Some q → Product.Properties q ≠ Some [].
Proof.
  split; [|apply nil_if_empty_Products_id].
  intros Hm k q Hk. destruct m as [g|]; [|discriminate Hk].
  change (g !! k = Some q) in Hk.
  unfold nil_if_empty_Products in Hm. cbn [fmap option_fmap option_map] in Hm.
  injection Hm as Hm. pose proof (f_equal (λ g', g' !! k) Hm) as Hl. cbv beta in Hl.
  rewrite lookup_fmap, Hk in Hl. cbn [fmap option_fmap option_map] in Hl.
  injection Hl as Hl. apply nil_if_empty_Product_fixed, Hl.
Qed.

Lemma inventory_Properties (id : string) (p : Product) :
  entries inventory !! id = Some p → Product.Properties p ≠ Some [].
Proof.
  intros Hp. apply inventory_lookup in Hp. unfold inventory_entries in Hp.
  repeat (apply elem_of_cons in Hp as [Hp|Hp]; [inversion Hp; discriminate|]).
  apply elem_of_nil in Hp. destruct Hp.
Qed.

(** C7 (amended).  A product whose strings are valid UTF-8 comes back from
    its JSON text equal in every field but one: a slice of properties that
    is empty and not nil comes back nil.  So it comes back equal to the
    original exactly when its slice is nil or has an element; its strings
    and the elements of its slice are the original's in any case.  The same
    holds of a mapping and the text of its custom codec, whatever the
    target held before.  In the JSON of a product the keys [id], [type],
    [brand] and [name] are always there, and [unit], [quantity], [price] and
    [properties] exactly when the field is not empty (of length 0). *)
Theorem C7_roundtrip_valid_utf8 (p : Product) (m p0 : Products) :
  valid_Product p = true → valid_Products m = true →
  json.Unmarshal_Product (fst (json.Marshal_Product p)) Product.zero
  = (nil_if_empty_Product p, None)
  ∧ (nil_if_empty_Product p = p ↔ Product.Properties p ≠ Some [])
  ∧ (let q := nil_if_empty_Product p in
     Product.ID q = Product.ID p ∧ Product.Type_ q = Product.Type_ p
     ∧ Product.Brand q = Product.Brand p ∧ Product.Name q = Product.Name p
     ∧ Product.Unit q = Product.Unit p ∧ Product.Quantity q = Product.Quantity p
     ∧ Product.Price q = Product.Price p
     ∧ default [] (Product.Properties q) = default [] (Product.Properties p))
  ∧ json.parse (fst (json.Marshal_Product p)) = Some (json.Product_to_json p)
  ∧ (let keys := object_keys (json.Product_to_json p) in
     "id" ∈ keys ∧ "type" ∈ keys ∧ "brand" ∈ keys ∧ "name" ∈ keys
     ∧ ("unit" ∈ keys ↔ Product.Unit p ≠ "")
     ∧ ("quantity" ∈ keys ↔ Product.Quantity p ≠ "")
     ∧ ("price" ∈ keys ↔ Product.Price p ≠ "")
     ∧ ("properties" ∈ keys ↔ default [] (Product.Properties p) ≠ []))
  ∧ UnmarshalJSON (fst (MarshalJSON m)) p0 = (nil_if_empty_Products m, None)
  ∧ (nil_if_empty_Products m = m
     ↔ ∀ k q, entries m !! k = Some q → Product.Properties q ≠ Some []).
Proof.
  intros Hp Hm.
  split; [apply Unmarshal_Marshal_Product, Hp|].
  split; [apply nil_if_empty_Product_fixed|].
  split; [destruct p as [id ty br na un qu pr [[|q qs]|]]; repeat split; reflexivity|].
  split; [apply parse_render, Product_to_json_ok;
          [unfold json.maxNestingDepth; lia|exact Hp]|].
  split; [|split; [apply UnmarshalJSON_MarshalJSON, Hm|apply nil_if_empty_Products_fixed]].
  clear. destruct p as [id ty br na un qu pr ps].
  unfold json.Product_to_json, json.omitempty_string, object_keys.
  cbn [Product.ID Product.Type_ Product.Brand Product.Name Product.Unit Product.Quantity
       Product.Price Product.Properties].
  destruct un as [|u0 un], qu as [|q0 qu], pr as [|p0 pr], ps as [[|ps0 ps]|];
    cbn [String.eqb app List.map fst default];
    repeat split; intros; try discriminate; try congruence;
    try (apply list_elem_of_In; cbn [In]; tauto);
    try (exfalso; match goal with H : _ ∈ _ |- _ =>
           apply list_elem_of_In in H; cbn [In] in H; intuition discriminate end).
Qed.

Lemma C7_roundtrip_valid_utf8_witness :
  valid_Product product_1 = true ∧ valid_Products inventory = true
  ∧ json.Unmarshal_Product (fst (json.Marshal_Product product_1)) Product.zero
    = (product_1, None)
  ∧ UnmarshalJSON (fst (MarshalJSON inventory)) None = (inventory, None).
Proof.
  assert (H1 : valid_Product product_1 = true) by (vm_compute; reflexivity).
  assert (H2 : valid_Products inventory = true) by (vm_compute; reflexivity).
  split; [exact H1|]. split; [exact H2|].
  destruct (C7_roundtrip_valid_utf8 product_1 inventory None H1 H2)
    as (Ha & _ & _ & _ & _ & Hb & Hc).
  split; [exact Ha|].
  rewrite Hb, (proj2 Hc inventory_Properties). reflexivity.
Defined.

(** C7 (counterexample).  Two products that do not come back.  A product
    whose identifier is the byte 0xFF: the encoder writes the replacement
    character for the byte, and the identifier that is read back is the
    three bytes of that character.  A product whose strings are valid and
    whose slice of properties is empty and not nil: the key [properties] is
    left out of its JSON, and the slice that is read back is nil. *)
Lemma C7_roundtrip_counterexample :
  (fst (json.Unmarshal_Product (fst (json.Marshal_Product odd_product)) Product.zero)
   = odd_product_back
   ∧ String.eqb (Product.ID odd_product_back) (Product.ID odd_product) = false
   ∧ String.length (Product.ID odd_product) = 1%nat
   ∧ String.length (Product.ID odd_product_back) = 3%nat)
  ∧ (valid_Product empty_slice_product = true
     ∧ Product.Properties empty_slice_product = Some []
     ∧ json.Unmarshal_Product (fst (json.Marshal_Product empty_slice_product)) Product.zero
       = (nil_slice_product, None)
     ∧ Product.Properties nil_slice_product = None
     ∧ nil_slice_product ≠ empty_slice_product).
Proof.
  split; [vm_compute; repeat split; reflexivity|].
  split; [vm_compute; reflexivity|]. split; [reflexivity|].
  split; [vm_compute; reflexivity|]. split; [reflexivity|]. intros [=].
Qed.


(** * Further properties *)

(** ** The store, whatever it holds *)

Lemma GetProduct_lookup (id : string) (ms : MemoryStore) (p : Product) :
  fst (MemoryStore.GetProduct id ms) = (p, None)
  ↔ entries (MemoryStore.Products_ ms) !! id = Some p.
Proof.
  unfold MemoryStore.GetProduct. cbn [fst MemoryStore.withMx MemoryStore.Products_].
  destruct (entries (MemoryStore.Products_ ms) !! id) as [q|]; split; intros Hq; congruence.
Qed.


(** X2.  When every product is stored under its own identifier, as in the seed
    inventory, the products that [GetAll] returns have identifiers that
    differ from one another, and [GetProduct] called with the identifier of
    any of them returns that product. *)
Theorem GetAll_ids_distinct (o : MapOrder) (ms : MemoryStore) :
  (∀ id p, entries (MemoryStore.Products_ ms) !! id = Some p → Product.ID p = id) →
  let l := fst (MemoryStore.GetAll o ms) in
  NoDup (Product.ID <$> l)
  ∧ ∀ p, p ∈ l → fst (MemoryStore.GetProduct (Product.ID p) ms) = (p, None).
Proof.
  intros Hown l.
  assert (Hl : l ≡ₚ (map_to_list (entries (MemoryStore.Products_ ms))).*2)
    by apply maps_Values_perm.
  split.
  - rewrite Hl, <- list_fmap_compose.
    rewrite (list_fmap_ext (Product.ID ∘ snd) fst (map_to_list _) ).
    + apply NoDup_fst_map_to_list.
    + intros i [id p] Hi. cbn. apply Hown, elem_of_map_to_list.
      apply list_elem_of_lookup. exists i. exact Hi.
  - intros p Hp. rewrite Hl in Hp. apply list_elem_of_fmap in Hp as [[id q] [-> Hq]].
    apply elem_of_map_to_list in Hq. cbn [snd]. rewrite (Hown _ _ Hq).
    apply GetProduct_lookup, Hq.
Qed.

Lemma GetAll_ids_distinct_witness :
  (∀ id p, entries (MemoryStore.Products_ seeded_store) !! id = Some p → Product.ID p = id)
  ∧ NoDup (Product.ID <$> fst (MemoryStore.GetAll order_rev seeded_store)).
Proof.
  split; [exact inventory_ID|].
  apply (GetAll_ids_distinct order_rev seeded_store). exact inventory_ID.
Defined.

(** ** Durations: a count and a unit *)

Lemma is_digit_range (c : ascii) : json.is_digit c = true → 0x30 ≤ byte_val c ≤ 0x39.
Proof. unfold json.is_digit. intros Hc. apply andb_prop in Hc as [H1 H2]. lia. Qed.

Lemma decimal_from_ge (s : string) (x : Z) :
  string_forall json.is_digit s = true → 0 ≤ x → x ≤ decimal_from x s.
Proof.
  induction s as [|c s IH] in x |- *; intros Hs Hx; [cbn; lia|].
  cbn [string_forall] in Hs. apply andb_prop in Hs as [Hc Hs].
  apply is_digit_range in Hc. cbn [decimal_from].
  specialize (IH (x * 10 + (byte_val c - 48)) Hs). lia.
Qed.

(** [leadingInt] reads a run of digits to its end when the number stays
    within 2^63. *)
Lemma leadingInt_digits (ds u : string) (x : Z) :
  string_forall json.is_digit ds = true →
  (∀ y, leadingInt y u = Some (y, u)) →
  0 ≤ x → decimal_from x ds ≤ 2 ^ 63 →
  leadingInt x (ds ++ u) = Some (decimal_from x ds, u).
Proof.
  induction ds as [|c ds IH] in x |- *; intros Hs Hu Hx Hv; [apply Hu|].
  cbn [string_forall] in Hs. apply andb_prop in Hs as [Hc Hs].
  pose proof (is_digit_range c Hc) as Hr.
  cbn [decimal_from] in Hv |- *.
  pose proof (decimal_from_ge ds (x * 10 + (byte_val c - 48)) Hs ltac:(lia)) as Hge.
  rewrite app_cons. cbn [leadingInt]. rewrite Hc. cbn [negb].
  replace (2 ^ 63 / 10 <? x) with false
    by (symmetry; apply Z.ltb_ge; Z.div_mod_to_equations; lia).
  replace (2 ^ 63 <? x * 10 + (byte_val c - 48)) with false by (symmetry; apply Z.ltb_ge; lia).
  apply IH; [exact Hs|exact Hu|lia|exact Hv].
Qed.

(** On digits alone [leadingInt] fails or reads them all. *)
Lemma leadingInt_all_digits (ds : string) (x : Z) :
  string_forall json.is_digit ds = true →
  leadingInt x ds = None ∨ ∃ v, leadingInt x ds = Some (v, "").
Proof.
  induction ds as [|c ds IH] in x |- *; intros Hs; [right; exists x; reflexivity|].
  cbn [string_forall] in Hs. apply andb_prop in Hs as [Hc Hs].
  cbn [leadingInt]. rewrite Hc. cbn [negb].
  destruct (2 ^ 63 / 10 <? x); [left; reflexivity|].
  destruct (2 ^ 63 <? x * 10 + (byte_val c - 48)); [left; reflexivity|].
  apply IH, Hs.
Qed.

(** The units of [unitMap]: positive, and written with no digit and no
    point. *)
Lemma unitMap_shape (u : string) (unit : Z) :
  unitMap u = Some unit →
  0 < unit ∧ span_unit u = (u, "") ∧ (∀ y, leadingInt y u = Some (y, u))
  ∧ ∃ c r, u = String c r ∧ (byte_val c =? 0x2E) = false.
Proof.
  unfold unitMap.
  repeat match goal with
         | |- context [String.eqb u ?k] => destruct (String.eqb_spec u k) as [->|?]
         end; intros [= <-] || discriminate.
  all: split; [reflexivity|]; split; [reflexivity|]; split; [reflexivity|];
       eexists _, _; split; reflexivity.
Qed.

Section DurationProps.

Variable float_frac : Z → Z → Z → Z.

Lemma duration_loop_S (n : nat) (orig : string) (d : Z) (c0 : ascii) (r0 : string) :
  duration_loop float_frac (S n) orig d (String c0 r0)
  = let s := String c0 r0 in
    if negb ((byte_val c0 =? 0x2E) || json.is_digit c0) then inr (time_InvalidDuration orig)
    else
      match leadingInt 0 s with
      | None => inr (time_InvalidDuration orig)
      | Some (v, s1) =>
        let pre := negb (String.length s =? String.length s1)%nat in
        let '(f, scale, s2, post) :=
          match s1 with
          | String c1 r1 =>
            if byte_val c1 =? 0x2E then
              let '(f, scale, s2) := leadingFraction 0 1 false r1 in
              (f, scale, s2, negb (String.length r1 =? String.length s2)%nat)
            else (0, 1, s1, false)
          | EmptyString => (0, 1, s1, false)
          end in
        if negb pre && negb post then inr (time_InvalidDuration orig)
        else
          let '(u, s3) := span_unit s2 in
          if String.eqb u "" then inr (time_MissingUnit orig)
          else
            match unitMap u with
            | None => inr (time_UnknownUnit u orig)
            | Some unit =>
              if 2 ^ 63 / unit <? v then inr (time_InvalidDuration orig)
              else
                let v := v * unit in
                let v' := if 0 <? f then uint64 (v + float_frac f unit scale) else v in
                if (0 <? f) && (2 ^ 63 <? v') then inr (time_InvalidDuration orig)
                else
                  let d' := uint64 (d + v') in
                  if 2 ^ 63 <? d' then inr (time_InvalidDuration orig)
                  else duration_loop float_frac n orig d' s3
            end
      end.
Proof. reflexivity. Qed.

(** The loop of [ParseDuration] on a count and a unit. *)
Lemma duration_loop_count_unit (count u orig : string) (unit : Z) (n : nat) :
  count ≠ "" → string_forall json.is_digit count = true →
  unitMap u = Some unit → decimal_value count * unit ≤ 2 ^ 63 →
  duration_loop float_frac (S n) orig 0 (count ++ u) = inl (decimal_value count * unit).
Proof.
  intros Hne Hdig Hu Hv.
  destruct (unitMap_shape u unit Hu) as (Hpos & Hspan & Hlead & c1 & r1 & Hu1 & Hpt).
  assert (Hv0 : 0 ≤ decimal_value count) by (apply decimal_from_ge; [exact Hdig|lia]).
  assert (Hle : decimal_value count ≤ 2 ^ 63) by nia.
  destruct count as [|c0 count']; [congruence|]. clear Hne.
  pose proof Hdig as Hc0. cbn [string_forall] in Hc0. apply andb_prop in Hc0 as [Hc0 _].
  rewrite app_cons, duration_loop_S. cbv zeta. rewrite Hc0, orb_true_r. cbn [negb].
  rewrite <- app_cons.
  rewrite (leadingInt_digits (String c0 count') u 0 Hdig Hlead ltac:(lia) Hle).
  fold (decimal_value (String c0 count')).
  set (v := decimal_value (String c0 count')) in *.
  replace (String.length (String c0 count' ++ u) =? String.length u)%nat with false
    by (symmetry; apply Nat.eqb_neq; rewrite string_length_app; cbn [String.length]; lia).
  cbn [negb andb]. rewrite Hu1, Hpt, <- Hu1, Hspan.
  replace (String.eqb u "") with false by (rewrite Hu1; reflexivity).
  rewrite Hu.
  replace (2 ^ 63 / unit <? v) with false
    by (symmetry; apply Z.ltb_ge, Z.div_le_lower_bound; lia).
  change (0 <? 0) with false. cbn [andb]. rewrite Z.add_0_l.
  unfold uint64. rewrite Z.mod_small by lia.
  replace (2 ^ 63 <? v * unit) with false by (symmetry; apply Z.ltb_ge; lia).
  destruct n; reflexivity.
Qed.

Lemma ParseDuration_count_unit (count u : string) (unit : Z) :
  count ≠ "" → string_forall json.is_digit count = true →
  unitMap u = Some unit → decimal_value count * unit < 2 ^ 63 →
  ParseDuration float_frac (count ++ u) = (decimal_value count * unit, None)
  ∧ ParseDuration float_frac ("-" ++ count ++ u) = (- (decimal_value count * unit), None).
Proof.
  intros Hne Hdig Hu Hv.
  destruct (unitMap_shape u unit Hu) as (_ & _ & _ & c1 & r1 & Hu1 & _).
  assert (Hlen : ∃ m, String.length (count ++ u) = S (S m)).
  { rewrite string_length_app, Hu1. destruct count as [|c0 count']; [congruence|].
    cbn [String.length]. eexists. rewrite Nat.add_succ_r. reflexivity. }
  destruct Hlen as [m Hm].
  assert (Hz : String.eqb (count ++ u) "0" = false).
  { destruct (count ++ u) as [|a [|b t]]; try discriminate Hm.
    cbn [String.eqb]. apply andb_false_r. }
  assert (He : String.eqb (count ++ u) "" = false)
    by (destruct (count ++ u); [discriminate Hm|reflexivity]).
  assert (Hloop : ∀ orig,
    duration_loop float_frac (String.length (count ++ u)) orig 0 (count ++ u)
    = inl (decimal_value count * unit)).
  { intros orig. rewrite Hm. apply duration_loop_count_unit; (assumption || lia). }
  split.
  - unfold ParseDuration.
    destruct count as [|c0 count']; [congruence|]. rewrite app_cons.
    cbn [string_forall] in Hdig. apply andb_prop in Hdig as [Hc0 _].
    apply is_digit_range in Hc0.
    replace ((byte_val c0 =? 45) || (byte_val c0 =? 43)) with false
      by (symmetry; apply orb_false_intro; apply Z.eqb_neq; lia).
    rewrite <- app_cons, Hz, He, Hloop.
    replace (2 ^ 63 - 1 <? _) with false by (symmetry; apply Z.ltb_ge; lia).
    reflexivity.
  - unfold ParseDuration. rewrite app_cons, app_nil_l.
    change ((byte_val "-" =? 45) || (byte_val "-" =? 43)) with true. cbv iota.
    change (byte_val "-" =? 45) with true.
    rewrite Hz, He, Hloop. reflexivity.
Qed.

Lemma ParseDuration_bare_number (value : string) :
  string_forall json.is_digit value = true → value ≠ "0" →
  snd (ParseDuration float_frac value) = Some (time_MissingUnit value)
  ∨ snd (ParseDuration float_frac value) = Some (time_InvalidDuration value).
Proof.
  intros Hdig Hz. destruct value as [|c0 r0]; [right; reflexivity|].
  pose proof Hdig as Hc0. cbn [string_forall] in Hc0. apply andb_prop in Hc0 as [Hc0 _].
  pose proof (is_digit_range c0 Hc0) as Hr.
  unfold ParseDuration.
  replace ((byte_val c0 =? 45) || (byte_val c0 =? 43)) with false
    by (symmetry; apply orb_false_intro; apply Z.eqb_neq; lia).
  replace (String.eqb (String c0 r0) "0") with false
    by (symmetry; apply String.eqb_neq; exact Hz).
  change (String.eqb (String c0 r0) "") with false. cbv iota.
  cbn [String.length]. rewrite duration_loop_S. cbv zeta.
  rewrite Hc0, orb_true_r. cbn [negb].
  destruct (leadingInt_all_digits (String c0 r0) 0 Hdig) as [->|[v ->]]; [right; reflexivity|].
  left. reflexivity.
Qed.

End DurationProps.

(** ** The construction of the server, further *)

Section ConstructionMore.

Variable float_frac : Z → Z → Z → Z.

(** X3.  [WithLatency] given a count in decimal digits and a unit of [unitMap]
    ([ns], [us], [ms], [s], [m], [h]) sets the latency to the count times
    the unit, as long as that is less than 2^63 nanoseconds, and changes
    nothing else of the server; with a minus sign in front it sets the
    negated duration.  It returns no error. *)
Theorem WithLatency_count_and_unit {S : Type} (count u : string) (unit : Z) (srv : Server S) :
  count ≠ "" → string_forall json.is_digit count = true →
  unitMap u = Some unit → decimal_value count * unit < 2 ^ 63 →
  WithLatency float_frac (count ++ u) srv
  = (set_Latency (decimal_value count * unit) srv, None)
  ∧ WithLatency float_frac ("-" ++ count ++ u) srv
    = (set_Latency (- (decimal_value count * unit)) srv, None).
Proof.
  intros Hne Hdig Hu Hv.
  destruct (ParseDuration_count_unit float_frac count u unit Hne Hdig Hu Hv) as [Hp Hn].
  unfold WithLatency. rewrite Hp, Hn. split; reflexivity.
Qed.

(** X4.  A latency written as digits alone, with no unit, is refused unless it
    is the single digit [0]: [time.ParseDuration] reports a missing unit (an
    invalid duration for the empty string and for a number beyond 2^63).
    From the environment variable it makes [New] panic, whatever the
    options; given to [WithLatency] it leaves the server as it was. *)
Theorem latency_without_unit_refused {S : Type} (env : Env) (addr value : string) (store : S)
  (options : list (option_ S)) :
  string_forall json.is_digit value = true → value ≠ "0" →
  (snd (ParseDuration float_frac value) = Some (time_MissingUnit value)
   ∨ snd (ParseDuration float_frac value) = Some (time_InvalidDuration value))
  ∧ (env !! "COFFEESHOP_LATENCY" = Some value →
     ∃ e, New float_frac env addr store options = Panic e)
  ∧ (∀ srv : Server S, fst (WithLatency float_frac value srv) = srv).
Proof.
  intros Hdig Hz.
  pose proof (ParseDuration_bare_number float_frac value Hdig Hz) as Herr.
  split; [exact Herr|]. split.
  - intros Hk. destruct Herr as [He|He]; eexists;
      apply (New_env_invalid_panics float_frac env addr value store options _ Hk He).
  - intros srv. destruct Herr as [He|He];
      rewrite (WithLatency_error float_frac value _ srv He); reflexivity.
Qed.

(** What a list of [WithLatency] options makes of a server: the latency
    of the last one that parses. *)
Lemma fold_WithLatency {S : Type} (latencies : list string) (srv : Server S) :
  fold_left (λ srv (o : option_ S), fst (o srv))
    (List.map (WithLatency float_frac) latencies) srv
  = set_Latency
      (fold_left (λ d s, match ParseDuration float_frac s with
                         | (v, None) => v
                         | (_, Some _) => d
                         end) latencies (Latency srv)) srv.
Proof.
  induction latencies as [|s l IH] in srv |- *; [destruct srv; reflexivity|].
  cbn [List.map fold_left]. rewrite IH. unfold WithLatency.
  destruct (ParseDuration float_frac s) as [v [e|]]; reflexivity.
Qed.

(** X5.  [New] with [WithLatency] options only: the address, the URL
    [http://<addr>/], the two timeouts of 30 seconds and the store are those
    [New] was given, untouched by the options.  The latency is that of the last
    option whose string parses; when none parses, the latency of the
    environment or the default. *)
Theorem New_WithLatency_options {S : Type} (env : Env) (addr : string) (store : S)
  (latencies : list string) (d0 : Z) :
  latencyFromEnv float_frac env "COFFEESHOP_LATENCY" "100ms" = Return d0 →
  ∃ srv, New float_frac env addr store (List.map (WithLatency float_frac) latencies)
         = Return srv
    ∧ HTTPServer_ srv
      = {| Addr := addr; ReadTimeout := 30 * Second; WriteTimeout := 30 * Second |}
    ∧ URL srv = "http://" ++ addr ++ "/"
    ∧ Store_ srv = store
    ∧ (∀ (before : list string) (latency : string) (after : list string) (d : Z),
         latencies = (before ++ latency :: after)%list →
         ParseDuration float_frac latency = (d, None) →
         (∀ s, s ∈ after → snd (ParseDuration float_frac s) ≠ None) →
         Latency srv = d)
    ∧ ((∀ s, s ∈ latencies → snd (ParseDuration float_frac s) ≠ None) → Latency srv = d0).
Proof.
  intros Henv. unfold New. rewrite Henv. eexists. split; [reflexivity|].
  rewrite fold_WithLatency. cbn [set_Latency HTTPServer_ URL Store_ Latency].
  split; [reflexivity|]. split; [reflexivity|]. split; [reflexivity|].
  assert (Hskip : ∀ l d, (∀ s, s ∈ l → snd (ParseDuration float_frac s) ≠ None) →
            fold_left (λ d s, match ParseDuration float_frac s with
                              | (v, None) => v
                              | (_, Some _) => d
                              end) l d = d).
  { induction l as [|s l IH]; intros d Hl; [reflexivity|]. cbn [fold_left].
    assert (Hs : snd (ParseDuration float_frac s) ≠ None)
      by (apply Hl, elem_of_cons; left; reflexivity).
    destruct (ParseDuration float_frac s) as [v [e|]]; [|cbn in Hs; congruence].
    apply IH. intros s' Hs'. apply Hl, elem_of_cons. right. exact Hs'. }
  split.
  - intros before latency after d -> Hd Hafter.
    rewrite fold_left_app. cbn [fold_left]. rewrite Hd. apply Hskip, Hafter.
  - intros Hall. apply Hskip, Hall.
Qed.

(** X6.  [Run]: the server it builds listens on [:8088], has the URL
    [http://:8088/] and the seed inventory as its store.  Its latency is
    100ms when [COFFEESHOP_LATENCY] is not set, and the duration the
    variable holds when that parses; when it does not parse [Run] panics
    with the error of [time.ParseDuration], before any server exists. *)
Theorem Run_builds_or_panics (env : Env) :
  match env !! "COFFEESHOP_LATENCY" with
  | None => Run float_frac env = Return (seeded_server (100 * Millisecond))
  | Some value =>
    match ParseDuration float_frac value with
    | (d, None) => Run float_frac env = Return (seeded_server d)
    | (_, Some e) => Run float_frac env = Panic e
    end
  end.
Proof.
  unfold Run, New, latencyFromEnv.
  destruct (env !! "COFFEESHOP_LATENCY") as [value|].
  - destruct (ParseDuration float_frac value) as [d [e|]]; reflexivity.
  - rewrite ParseDuration_100ms. reflexivity.
Qed.

End ConstructionMore.

Lemma WithLatency_count_and_unit_witness :
  "150" ≠ "" ∧ string_forall json.is_digit "150" = true
  ∧ unitMap "s" = Some Second ∧ decimal_value "150" * Second < 2 ^ 63
  ∧ WithLatency exact_frac ("150" ++ "s") default_server
    = (set_Latency (decimal_value "150" * Second) default_server, None).
Proof.
  split; [discriminate|]. split; [reflexivity|]. split; [reflexivity|]. split; [reflexivity|].
  apply (WithLatency_count_and_unit exact_frac "150" "s" Second default_server);
    [discriminate|reflexivity|reflexivity|reflexivity].
Defined.

Lemma latency_without_unit_refused_witness :
  string_forall json.is_digit "100" = true ∧ "100" ≠ "0"
  ∧ snd (ParseDuration exact_frac "100") = Some (time_MissingUnit "100")
  ∧ ∃ e, New exact_frac {["COFFEESHOP_LATENCY" := "100"]} ":8088" seeded_store [] = Panic e.
Proof.
  assert (Hz : "100" ≠ "0") by discriminate.
  split; [reflexivity|]. split; [exact Hz|].
  destruct (latency_without_unit_refused exact_frac {["COFFEESHOP_LATENCY" := "100"]}
              ":8088" "100" seeded_store [] eq_refl Hz) as (_ & Hp & _).
  split; [vm_compute; reflexivity|]. apply Hp. vm_compute. reflexivity.
Defined.

Lemma New_WithLatency_options_witness :
  latencyFromEnv exact_frac ∅ "COFFEESHOP_LATENCY" "100ms" = Return (100 * Millisecond)
  ∧ ∃ srv, New exact_frac ∅ ":8088" seeded_store
             (List.map (WithLatency exact_frac) ["2s"; "oops"]) = Return srv
           ∧ Latency srv = 2 * Second.
Proof.
  assert (Henv : latencyFromEnv exact_frac ∅ "COFFEESHOP_LATENCY" "100ms"
                 = Return (100 * Millisecond)) by (vm_compute; reflexivity).
  split; [exact Henv|].
  destruct (New_WithLatency_options exact_frac ∅ ":8088" seeded_store ["2s"; "oops"]
              (100 * Millisecond) Henv) as (srv & Hn & _ & _ & _ & Hlast & _).
  exists srv. split; [exact Hn|].
  apply (Hlast [] "2s" ["oops"] (2 * Second)).
  - reflexivity.
  - vm_compute. reflexivity.
  - intros s Hs. apply list_elem_of_singleton in Hs as ->. vm_compute. discriminate.
Defined.

(** ** Every response of the server *)

Section ServingProps.

Context {S : Type} `{Store S}.

Ltac rw_red :=
  cbn [set_w set_now set_store now w conn_ok writeDeadline order store Header_Set WriteHeader Header
       wroteHeader status sentHeader body fst snd negb andb].

(** [http.Error] on a response that has not started. *)
Lemma http_Error_response (msg : string) (code : Z) (t : Z) (h : gmap string (list string))
  (s : Z) (sh : gmap string (list string)) (b : string) (c : bool) (dl : option Z) (o : MapOrder) (sto : S) :
  bodyAllowedForStatus code = true →
  let st := {| now := t;
               w := {| Header := h; wroteHeader := false; status := s; sentHeader := sh;
                       body := b |};
               conn_ok := c; writeDeadline := dl; order := o; store := sto |} in
  let h' := <["X-Content-Type-Options" := ["nosniff"]]>
              (<["Content-Type" := ["text/plain; charset=utf-8"]]> h) in
  http_Error msg code st
  = {| now := t;
       w := {| Header := h'; wroteHeader := true; status := code; sentHeader := h';
               body := b ++ sent c (msg ++ lf) |};
       conn_ok := c; writeDeadline := dl; order := o; store := sto |}.
Proof.
  intros Hb. cbv zeta. unfold http_Error; rw_red. unfold Write; rw_red. rewrite Hb. rw_red.
  destruct c; rw_red; unfold sent; [reflexivity|]. rewrite string_app_nil_r. reflexivity.
Qed.

(** [http.Error] on a response that has started: only the working header
    map changes, and the body when the connection takes it. *)
Lemma http_Error_late (msg : string) (code : Z) (t : Z) (h : gmap string (list string))
  (sh : gmap string (list string)) (b : string) (dl : option Z) (o : MapOrder) (sto : S) :
  let st := {| now := t;
               w := {| Header := h; wroteHeader := true; status := StatusOK; sentHeader := sh;
                       body := b |};
               conn_ok := false; writeDeadline := dl; order := o; store := sto |} in
  let st' := http_Error msg code st in
  response (w st') = (StatusOK, sh, b) ∧ now st' = t ∧ store st' = sto
  ∧ wroteHeader (w st') = true.
Proof.
  cbv zeta. unfold http_Error; rw_red. unfold Write; rw_red.
  change (bodyAllowedForStatus StatusOK) with true. rw_red. repeat split; reflexivity.
Qed.

(** [w.Write] on a response that has not started. *)
Lemma Write_response (data : string) (t : Z) (h : gmap string (list string))
  (s : Z) (sh : gmap string (list string)) (b : string) (c : bool) (dl : option Z) (o : MapOrder) (sto : S) :
  let st := {| now := t;
               w := {| Header := h; wroteHeader := false; status := s; sentHeader := sh;
                       body := b |};
               conn_ok := c; writeDeadline := dl; order := o; store := sto |} in
  Write data st
  = ({| now := t;
        w := {| Header := h; wroteHeader := true; status := StatusOK; sentHeader := h;
                body := b ++ sent c data |};
        conn_ok := c; writeDeadline := dl; order := o; store := sto |},
     if c then None else Some (errors_New "write: broken pipe")).
Proof.
  cbv zeta. unfold Write; rw_red. change (bodyAllowedForStatus StatusOK) with true. rw_red.
  destruct c; rw_red; unfold sent; [reflexivity|]. rewrite string_app_nil_r. reflexivity.
Qed.

Lemma payload_outcome (data : string) (t : Z) (h : gmap string (list string))
  (c : bool) (dl : option Z) (o : MapOrder) (sto : S) :
  let st := {| now := t;
               w := {| Header := h; wroteHeader := false; status := 0; sentHeader := ∅;
                       body := "" |};
               conn_ok := c; writeDeadline := dl; order := o; store := sto |} in
  outcome_is (let '(st, err) := Write data st in
              match err with
              | Some _ => http_Error "internal error" StatusInternalServerError st
              | None => st
              end)
    (StatusOK, h, sent c data) t sto.
Proof.
  cbv zeta. rewrite Write_response. destruct c.
  - repeat split; reflexivity.
  - apply http_Error_late.
Qed.


Lemma started_outcome (st : HState S) (resp : Z * gmap string (list string) * string)
  (t : Z) (sto : S) :
  outcome_is st resp t sto → outcome_is (set_w (WriteHeader StatusOK) st) resp t sto.
Proof.
  intros Ho. pose proof Ho as (_ & _ & _ & Hw).
  destruct st as [t' rw c dl o sto']. cbn [w] in Hw. unfold set_w. cbn [now w conn_ok writeDeadline order store].
  rewrite WriteHeader_started by exact Hw. exact Ho.
Qed.

(** The single-item handler sees the identifier that the router bound
    last. *)
Lemma URLParam_bound (r : Request) (id : string) :
  URLParam {| Method := Method r; Path := Path r; Deadline := Deadline r;
              URLParams := URLParams r ++ [("productID", id)] |} "productID" = id.
Proof. unfold URLParam. cbn [URLParams]. rewrite rev_unit. reflexivity. Qed.

Lemma methodNotAllowed_outcome (r : Request) (t : Z) (h : gmap string (list string))
  (c : bool) (dl : option Z) (o : MapOrder) (sto : S) :
  outcome_is (methodNotAllowedHandler r
                {| now := t;
                   w := {| Header := h; wroteHeader := false; status := 0; sentHeader := ∅;
                           body := "" |};
                   conn_ok := c; writeDeadline := dl; order := o; store := sto |})
    (StatusMethodNotAllowed, h, "") t sto.
Proof.
  unfold methodNotAllowedHandler; rw_red. unfold Write; rw_red.
  change (bodyAllowedForStatus StatusMethodNotAllowed) with true. rw_red.
  destruct c; repeat split; reflexivity.
Qed.

Lemma NotFound_outcome (r : Request) (t : Z) (c : bool) (dl : option Z) (o : MapOrder) (sto : S) :
  outcome_is (http_NotFound r
                {| now := t;
                   w := {| Header := json_headers; wroteHeader := false; status := 0;
                           sentHeader := ∅; body := "" |};
                   conn_ok := c; writeDeadline := dl; order := o; store := sto |})
    (StatusNotFound, error_headers, sent c ("404 page not found" ++ lf)) t sto.
Proof.
  unfold http_NotFound. rewrite http_Error_response by reflexivity.
  repeat split; reflexivity.
Qed.

Lemma GetProducts_outcome (cs : Server S) (r : Request) (t : Z) (h : gmap string (list string))
  (c : bool) (dl : option Z) (o : MapOrder) (sto : S) :
  outcome_is (GetProducts cs r
                {| now := t;
                   w := {| Header := h; wroteHeader := false; status := 0; sentHeader := ∅;
                           body := "" |};
                   conn_ok := c; writeDeadline := dl; order := o; store := sto |})
    (StatusOK, h,
     sent c (json.render_indent "" "  " 0 (json.list_to_json (fst (Store_GetAll o sto)))))
    t (snd (Store_GetAll o sto)).
Proof.
  unfold GetProducts. cbn [order store].
  destruct (Store_GetAll o sto) as [products s']. cbn [fst snd].
  unfold json.MarshalIndent_list, set_store. cbn [now w conn_ok writeDeadline order store].
  apply payload_outcome.
Qed.

Lemma GetProduct_outcome (cs : Server S) (r : Request) (t : Z) (c : bool) (dl : option Z) (o : MapOrder)
  (sto : S) :
  outcome_is (GetProduct cs r
                {| now := t;
                   w := {| Header := json_headers; wroteHeader := false; status := 0;
                           sentHeader := ∅; body := "" |};
                   conn_ok := c; writeDeadline := dl; order := o; store := sto |})
    (match fst (Store_GetProduct (URLParam r "productID") sto) with
     | (_, Some _) => (StatusNotFound, error_headers, sent c ("product not found" ++ lf))
     | (p, None) => (StatusOK, json_headers, sent c (json.render (json.Product_to_json p)))
     end)
    t (snd (Store_GetProduct (URLParam r "productID") sto)).
Proof.
  unfold GetProduct. cbn [order store].
  destruct (Store_GetProduct (URLParam r "productID") sto) as [[p err] s']. cbn [fst snd].
  unfold set_store. cbn [now w conn_ok writeDeadline order store].
  destruct err as [e|].
  - rewrite http_Error_response by reflexivity. repeat split; reflexivity.
  - unfold json.Marshal_Product. apply payload_outcome.
Qed.

(** The whole chain, request by request: the response, the time it is
    complete, and the store afterwards. *)
Lemma serve_outcome (cs : Server S) (r : Request) (t0 : Z) (conn : bool) (o : MapOrder) :
  let st := serve cs r t0 conn o in
  let t := t0 + Z.max (Latency cs) 0 in
  if negb (known_method r)
  then outcome_is st (StatusMethodNotAllowed, json_headers, "") t (Store_ cs)
  else
    match FindRoute (routePath r) with
    | RouteProducts =>
      if String.eqb (Method r) "GET" then
        outcome_is st
          (StatusOK, json_headers,
           sent conn (json.render_indent "" "  " 0
                        (json.list_to_json (fst (Store_GetAll o (Store_ cs))))))
          t (snd (Store_GetAll o (Store_ cs)))
      else outcome_is st (StatusMethodNotAllowed, json_headers, "") t (Store_ cs)
    | RouteProduct id =>
      if String.eqb (Method r) "GET" then
        outcome_is st
          (match fst (Store_GetProduct id (Store_ cs)) with
           | (_, Some _) =>
             (StatusNotFound, error_headers, sent conn ("product not found" ++ lf))
           | (p, None) =>
             (StatusOK, json_headers, sent conn (json.render (json.Product_to_json p)))
           end)
          t (snd (Store_GetProduct id (Store_ cs)))
      else outcome_is st (StatusMethodNotAllowed, json_headers, "") t (Store_ cs)
    | NoRoute =>
      outcome_is st
        (StatusNotFound, error_headers, sent conn ("404 page not found" ++ lf)) t (Store_ cs)
    end.
Proof.
  cbv zeta. rewrite serve_guard_no_effect.
  unfold serve_unguarded, middleware_SetHeader, Delay, time_Sleep, new_ResponseWriter.
  rw_red. unfold routeHTTP. fold (routePath r). fold (known_method r).
  fold json_headers.
  destruct (negb (known_method r)).
  { apply started_outcome, methodNotAllowed_outcome. }
  destruct (FindRoute (routePath r)) as [|id|].
  - destruct (String.eqb (Method r) "GET").
    + apply started_outcome, GetProducts_outcome.
    + apply started_outcome, methodNotAllowed_outcome.
  - destruct (String.eqb (Method r) "GET").
    + apply started_outcome.
      match goal with |- context [GetProduct cs ?r' ?st] =>
        pose proof (GetProduct_outcome cs r' (t0 + Z.max (Latency cs) 0) conn
                      (SetWriteDeadline (HTTPServer_ cs) t0) o (Store_ cs)) as Hg end.
      rewrite URLParam_bound in Hg. exact Hg.
    + apply started_outcome, methodNotAllowed_outcome.
  - apply started_outcome, NotFound_outcome.
Qed.

End ServingProps.

(** ** The routes *)

Lemma strip_prefix_Some (p s rest : string) :
  json.strip_prefix p s = Some rest ↔ s = p ++ rest.
Proof.
  induction p as [|a p IH] in s |- *.
  - cbn. split; [intros [= ->]; reflexivity|intros ->; reflexivity].
  - destruct s as [|b s]; [split; discriminate|].
    cbn [json.strip_prefix]. rewrite app_cons.
    destruct (Ascii.eqb_spec a b) as [->|Hab].
    + rewrite IH. split; [intros ->; reflexivity|intros [= ->]; reflexivity].
    + split; [discriminate|intros [= ? ?]; congruence].
Qed.

Lemma string_app_inv_head (p a b : string) : p ++ a = p ++ b → a = b.
Proof.
  induction p as [|c p IH]; [rewrite !app_nil_l; auto|].
  rewrite !app_cons. intros [= Heq]. apply IH, Heq.
Qed.

Lemma FindRoute_Products (path : string) :
  FindRoute path = RouteProducts ↔ path = "/products".
Proof.
  unfold FindRoute. destruct (String.eqb_spec path "/products") as [->|Hp].
  - split; reflexivity.
  - destruct (json.strip_prefix "/products/" path) as [rest|];
      [destruct (String.eqb rest "" || has_slash rest)|]; split; (discriminate || congruence).
Qed.

Lemma FindRoute_Product_iff (path id : string) :
  FindRoute path = RouteProduct id
  ↔ path = "/products/" ++ id ∧ id ≠ "" ∧ has_slash id = false.
Proof.
  unfold FindRoute. destruct (String.eqb_spec path "/products") as [->|Hp].
  - split; [discriminate|]. intros [Heq _]. destruct id; discriminate Heq.
  - destruct (json.strip_prefix "/products/" path) as [rest|] eqn:Hs.
    + apply strip_prefix_Some in Hs. subst path.
      destruct (String.eqb_spec rest "") as [->|Hne]; cbn [orb].
      * split; [discriminate|]. intros (Heq & Hid & _).
        apply string_app_inv_head in Heq. congruence.
      * destruct (has_slash rest) eqn:Hsl.
        -- split; [discriminate|]. intros (Heq & _ & Hid).
           apply string_app_inv_head in Heq. congruence.
        -- split; [intros [= <-]; auto|].
           intros (Heq & _). apply string_app_inv_head in Heq. congruence.
    + split; [discriminate|]. intros (Heq & _).
      apply strip_prefix_Some in Heq. congruence.
Qed.

Lemma routePath_request (method path : string) :
  path ≠ "" → routePath (request method path) = path.
Proof.
  intros Hp. unfold routePath. cbn [Path request].
  destruct (String.eqb_spec path ""); [congruence|reflexivity].
Qed.

Lemma FindRoute_routePath_Products (r : Request) :
  FindRoute (routePath r) = RouteProducts ↔ Path r = "/products".
Proof.
  rewrite FindRoute_Products. unfold routePath.
  destruct (String.eqb_spec (Path r) "") as [He|_]; [|reflexivity].
  rewrite He. split; discriminate.
Qed.

Lemma FindRoute_routePath_Product (r : Request) (id : string) :
  FindRoute (routePath r) = RouteProduct id
  ↔ Path r = "/products/" ++ id ∧ id ≠ "" ∧ has_slash id = false.
Proof.
  rewrite FindRoute_Product_iff. unfold routePath.
  destruct (String.eqb_spec (Path r) "") as [He|_]; [|reflexivity].
  rewrite He. split; intros [Hp _]; discriminate Hp.
Qed.

(** ** Serving, whatever the store *)

Section ServingMore.

Context {S : Type} `{Store S}.

(** X7.  Every request is answered when the latency has passed, not before and
    not later: whatever its method and its path, routed or not, found or
    not, the answer is complete [Latency] after the request came in.  A
    latency of zero or less adds nothing. *)
Theorem every_answer_takes_the_latency (cs : Server S) (r : Request) (t0 : Z) (conn : bool)
  (o : MapOrder) :
  now (serve cs r t0 conn o) = t0 + Z.max (Latency cs) 0.
Proof.
  pose proof (serve_outcome cs r t0 conn o) as Ho. cbv zeta in Ho.
  destruct (negb (known_method r)); [apply Ho|].
  destruct (FindRoute (routePath r)); [| |apply Ho];
    destruct (String.eqb (Method r) "GET"); apply Ho.
Qed.

(** X8.  The latency and the time of arrival change no answer: status, headers
    and body of the response to a request, and the store afterwards, are the
    same under any latency and at any time.  The latency decides one thing
    only, whether the answer is delivered: on a connection that takes it,
    it is when the latency is under the server's write timeout. *)
Theorem latency_changes_no_answer (cs : Server S) (r : Request) (d t0 t1 : Z) (conn : bool)
  (o : MapOrder) :
  response (w (serve (set_Latency d cs) r t1 conn o)) = response (w (serve cs r t0 conn o))
  ∧ store (serve (set_Latency d cs) r t1 conn o) = store (serve cs r t0 conn o)
  ∧ delivered (serve (set_Latency d cs) r t1 conn o)
    = conn && (negb (0 <? WriteTimeout (HTTPServer_ cs))
               || (Z.max d 0 <? WriteTimeout (HTTPServer_ cs))).
Proof.
  apply and_assoc. split; [|apply (serve_delivered (set_Latency d cs))].
  pose proof (serve_outcome cs r t0 conn o) as H0.
  pose proof (serve_outcome (set_Latency d cs) r t1 conn o) as H1.
  cbv zeta in H0, H1. change (Store_ (set_Latency d cs)) with (Store_ cs) in H1.
  destruct (negb (known_method r)).
  { destruct H0 as (-> & _ & -> & _), H1 as (-> & _ & -> & _). split; reflexivity. }
  destruct (FindRoute (routePath r)); [| |];
    try destruct (String.eqb (Method r) "GET");
    destruct H0 as (-> & _ & -> & _), H1 as (-> & _ & -> & _); split; reflexivity.
Qed.

(** X9.  Whatever error the store returns for an identifier, and whatever
    product comes with it, the client is told [404] in plain text with the
    line [product not found]: nothing of the store's error goes out. *)
Theorem store_error_becomes_404 (cs : Server S) (id : string) (p : Product) (e : error)
  (s' : S) (t0 : Z) (conn : bool) (o : MapOrder) :
  id ≠ "" → has_slash id = false →
  Store_GetProduct id (Store_ cs) = ((p, Some e), s') →
  let st := serve cs (request "GET" ("/products/" ++ id)) t0 conn o in
  response (w st)
  = (StatusNotFound, error_headers, sent conn ("product not found" ++ lf))
  ∧ store st = s'.
Proof.
  intros Hid Hsl Hget. cbv zeta.
  pose proof (serve_outcome cs (request "GET" ("/products/" ++ id)) t0 conn o) as Ho.
  cbv zeta in Ho. change (negb (known_method (request "GET" ("/products/" ++ id)))) with false in Ho.
  cbv iota in Ho.
  rewrite routePath_request in Ho by discriminate.
  replace (FindRoute ("/products/" ++ id)) with (RouteProduct id) in Ho
    by (symmetry; apply FindRoute_Product_iff; auto).
  cbn [Method request] in Ho. change (String.eqb "GET" "GET") with true in Ho. cbv iota in Ho.
  rewrite Hget in Ho. destruct Ho as (Hr & _ & Hs & _). split; assumption.
Qed.

End ServingMore.

Lemma store_error_becomes_404_witness :
  "999" ≠ "" ∧ has_slash "999" = false
  ∧ Store_GetProduct "999" (Store_ default_server)
    = ((Product.zero, Some (errors_New "product not found")), seeded_store)
  ∧ response (w (serve default_server (request "GET" ("/products/" ++ "999")) 0 true order_id))
    = (StatusNotFound, error_headers, sent true ("product not found" ++ lf)).
Proof.
  split; [discriminate|]. split; [reflexivity|]. split; [vm_compute; reflexivity|].
  apply (store_error_becomes_404 default_server "999" Product.zero
           (errors_New "product not found") seeded_store 0 true order_id);
    [discriminate|reflexivity|vm_compute; reflexivity].
Defined.

(** ** Round trips of strings that are not UTF-8 *)

Lemma coerce_loop_S (n : nat) (c : ascii) (t : string) :
  coerce_loop (S n) (String c t)
  = let s := String c t in
    let '(r, size) := utf8.DecodeRuneInString s in
    if (r =? utf8.RuneError) && (size =? 1)%nat
    then utf8.EncodeRune utf8.RuneError ++ coerce_loop n (sdrop 1 s)
    else stake size s ++ coerce_loop n (sdrop size s).
Proof. reflexivity. Qed.

(** The escape that the encoder writes for a byte that is not UTF-8 reads
    back as U+FFFD. *)
Lemma string_body_replacement (m : nat) (x : string) :
  json.string_body (S m) ("\uff" ++ "fd" ++ x)
  = json.prepend (utf8.EncodeRune utf8.RuneError) (json.string_body m x).
Proof. rewrite string_body_S. generalize (json.string_body m). intros f. reflexivity. Qed.

(** What the encoder writes between the quotes for any string, the decoder
    reads back as the string coerced to UTF-8. *)
Lemma string_loop_coerce (n : nat) :
  ∀ s rest m, (String.length (json.string_loop n s) < m)%nat →
  json.string_body m (json.string_loop n s ++ dq ++ rest) = Some (coerce_loop n s, rest).
Proof.
  induction n as [|n IH]; intros s rest m Hm.
  { destruct s; apply string_body_end; lia. }
  destruct s as [|c t]; [apply string_body_end; lia|].
  rewrite string_loop_S in Hm |- *. rewrite coerce_loop_S. cbv zeta in Hm |- *.
  pose proof (byte_val_range c) as Hc.
  destruct (Z.ltb_spec (byte_val c) utf8.RuneSelf) as [Hascii|Hmulti]; unfold utf8.RuneSelf in *.
  - rewrite (Decode_eq1 c t) by (apply first_ascii; lia).
    replace ((byte_val c =? utf8.RuneError) && (1 =? 1)%nat) with false
      by (symmetry; apply andb_false_intro1, Z.eqb_neq; unfold utf8.RuneError; lia).
    change (sdrop 1 (String c t)) with t. change (stake 1 (String c t)) with (String c "").
    destruct (json.htmlSafeSet (byte_val c)) eqn:Hsafe.
    + cbn [String.length] in Hm. destruct m as [|m]; [lia|].
      rewrite app_cons, string_body_safe by exact Hsafe.
      rewrite (IH t) by lia. reflexivity.
    + rewrite !string_length_app in Hm. cbn [String.length] in Hm.
      destruct m as [|m]; [lia|].
      rewrite !string_app_assoc, string_body_escape by assumption.
      rewrite (IH t) by lia. reflexivity.
  - destruct (utf8.DecodeRuneInString (String c t)) as [r size] eqn:Hdec.
    destruct ((r =? utf8.RuneError) && (size =? 1)%nat) eqn:Herr.
    + apply andb_prop in Herr as [_ Hsize]. apply Nat.eqb_eq in Hsize. subst size.
      rewrite !string_length_app in Hm. cbn [String.length] in Hm.
      destruct m as [|m]; [lia|].
      rewrite !string_app_assoc, string_body_replacement.
      rewrite (IH (sdrop 1 (String c t))) by lia. reflexivity.
    + destruct (DecodeRune_good c t r size Hdec Herr)
        as (pre & post & Hs & Hlenpre & Hsz & Henc & Hstable).
      assert (Hdrop : sdrop size (String c t) = post)
        by (rewrite Hs, <- Hlenpre; apply sdrop_app).
      assert (Htake : stake size (String c t) = pre)
        by (rewrite Hs, <- Hlenpre; apply stake_app).
      rewrite Hdrop in Hm |- *. rewrite Htake in Hm |- *.
      destruct pre as [|c' pre']; [cbn [String.length] in Hlenpre; lia|].
      assert (c' = c) as -> by (rewrite app_cons in Hs; congruence).
      destruct ((r =? 0x2028) || (r =? 0x2029)) eqn:Hsep.
      * rewrite !string_length_app in Hm. cbn [String.length] in Hm.
        destruct m as [|m]; [lia|].
        rewrite !string_app_assoc, string_body_separator by exact Hsep.
        rewrite (IH post) by lia.
        rewrite prepend_Some, Henc. reflexivity.
      * rewrite string_length_app in Hm. cbn [String.length] in Hm.
        destruct m as [|m]; [lia|].
        rewrite string_app_assoc, string_body_multibyte with (r := r);
          [|lia|rewrite Hlenpre; apply Hstable|exact Henc].
        rewrite (IH post) by lia.
        rewrite prepend_Some. reflexivity.
Qed.

Lemma parse_encoded_any (s rest : string) :
  json.string_body (String.length (json.string_loop (String.length s) s ++ dq ++ rest))
    (json.string_loop (String.length s) s ++ dq ++ rest) = Some (coerce_utf8 s, rest).
Proof.
  apply string_loop_coerce. rewrite !string_length_app. cbn [String.length dq]. lia.
Qed.

Lemma render_head_any (d : Z) (j : json.value) :
  shape_ok d j = true →
  ∃ c x, json.render j = String c x ∧ json.is_ws c = false
         ∧ (byte_val c =? 0x5D) = false ∧ (byte_val c =? 0x7D) = false.
Proof.
  destruct j as [|[|]|lit|s|l|l]; intros Hok; try discriminate Hok;
    cbn [json.render]; unfold json.encode_string, dq;
    rewrite ?app_cons; eexists _, _; (split; [reflexivity|]);
    repeat split; reflexivity.
Qed.

Lemma elems_text_head_any (d : Z) (x : json.value) (l : list json.value) (y : string) :
  shape_ok d x = true →
  ∃ c z, json.join "," (List.map json.render (x :: l)) ++ y = String c z
         ∧ json.is_ws c = false ∧ (byte_val c =? 0x5D) = false.
Proof.
  intros Hx. destruct (render_head_any d x Hx) as (c & x0 & Hr & Hws & Hc & _).
  cbn [List.map]. destruct l as [|x' l].
  - rewrite join_one, Hr, app_cons. eauto.
  - cbn [List.map]. rewrite join_cons2, Hr, !app_cons. eauto.
Qed.

(** [parse] reads any rendered value without numbers back, its strings
    coerced to UTF-8. *)
Lemma parse_render_any_n (n : nat) :
  (∀ j d rest, shape_ok d j = true → (value_size j ≤ n)%nat →
     json.parse_value n d (json.render j ++ rest) = Some (coerce_value j, rest))
  ∧ (∀ l d rest, l ≠ [] → forallb (shape_ok d) l = true →
       (list_sum (List.map (λ x, S (value_size x)) l) ≤ n)%nat →
       json.parse_elems n d (json.join "," (List.map json.render l) ++ "]" ++ rest)
       = Some (List.map coerce_value l, rest))
  ∧ (∀ l d rest, l ≠ [] →
       forallb (λ kv, shape_ok d (snd kv)) l = true →
       (list_sum (List.map (λ kv, S (value_size (snd kv))) l) ≤ n)%nat →
       json.parse_members n d (json.join "," (List.map member_text l) ++ "}" ++ rest)
       = Some (List.map (λ kv, (coerce_utf8 (fst kv), coerce_value (snd kv))) l, rest)).
Proof.
  induction n as [|n (IHv & IHe & IHm)].
  { split; [|split].
    - intros j d rest _ Hsize. pose proof (value_size_pos j). lia.
    - intros [|x l] d rest Hne _ Hsize; [congruence|]. simpl in Hsize. lia.
    - intros [|x l] d rest Hne _ Hsize; [congruence|]. simpl in Hsize. lia. }
  split; [|split].
  - intros j d rest Hok Hsize.
    destruct j as [|[|]|lit|s|l|l]; try discriminate Hok; try reflexivity.
    + cbn [json.render coerce_value]. unfold json.encode_string, dq. norm_app.
      rewrite parse_value_quote.
      change (String dqc rest) with (dq ++ rest).
      rewrite parse_encoded_any. reflexivity.
    + cbn [shape_ok] in Hok. apply andb_prop in Hok as [Hd Hok].
      rewrite render_array. norm_app. rewrite parse_value_bracket.
      replace (json.maxNestingDepth <? d + 1) with false by (symmetry; apply Z.ltb_ge; lia).
      destruct l as [|x l]; [reflexivity|].
      pose proof Hok as Hx. cbn [forallb] in Hx. apply andb_prop in Hx as [Hx _].
      destruct (elems_text_head_any (d + 1) x l (String "]" rest) Hx)
        as (c & z & Heq & Hws & Hc).
      set (T := json.join "," (List.map json.render (x :: l)) ++ String "]" rest) in *.
      assert (Hskip : json.skip_ws T = String c z) by (rewrite Heq; apply skip_ws_head, Hws).
      rewrite Hskip, Hc. unfold T. change (String "]" rest) with ("]" ++ rest).
      rewrite IHe; [reflexivity|discriminate|exact Hok|].
      cbn [value_size] in Hsize. lia.
    + cbn [shape_ok] in Hok. apply andb_prop in Hok as [Hd Hok].
      rewrite render_object. norm_app. rewrite parse_value_brace.
      replace (json.maxNestingDepth <? d + 1) with false by (symmetry; apply Z.ltb_ge; lia).
      destruct l as [|kv l]; [reflexivity|].
      destruct (members_text_head kv l (String "}" rest)) as (z & Heq).
      set (T := json.join "," (List.map member_text (kv :: l)) ++ String "}" rest) in *.
      assert (Hskip : json.skip_ws T = String dqc z) by (rewrite Heq; reflexivity).
      rewrite Hskip. change (byte_val dqc =? 125) with false. cbv iota.
      unfold T. change (String "}" rest) with ("}" ++ rest).
      rewrite IHm; [reflexivity|discriminate|exact Hok|].
      cbn [value_size] in Hsize. lia.
  - intros l d rest Hne Hok Hsize. destruct l as [|x l]; [congruence|]. clear Hne.
    cbn [forallb] in Hok. apply andb_prop in Hok as [Hx Hl].
    destruct l as [|y l].
    + cbn [List.map]. rewrite join_one.
      rewrite (parse_elems_step n d _ (coerce_value x) ("]" ++ rest))
        by (apply IHv; [exact Hx|simpl in Hsize; lia]).
      reflexivity.
    + cbn [List.map]. rewrite join_cons2. norm_app.
      rewrite (parse_elems_step n d _ (coerce_value x)
                 (String "," (json.join "," (json.render y :: List.map json.render l)
                              ++ String "]" rest)))
        by (apply IHv; [exact Hx|simpl in Hsize; lia]).
      change (json.skip_ws (String "," ?z)) with (String "," z). cbv iota.
      change (byte_val "," =? 44) with true. cbv iota.
      change (String "]" rest) with ("]" ++ rest).
      change (json.render y :: List.map json.render l) with (List.map json.render (y :: l)).
      rewrite IHe; [reflexivity|discriminate|exact Hl|simpl in Hsize |- *; lia].
  - intros l d rest Hne Hok Hsize. destruct l as [|[k v] l]; [congruence|]. clear Hne.
    cbn [forallb fst snd] in Hok. apply andb_prop in Hok as [Hv Hl].
    assert (Hkey : ∀ tail,
      json.string_body
        (String.length (json.string_loop (String.length k) k ++ String dqc (String ":" tail)))
        (json.string_loop (String.length k) k ++ String dqc (String ":" tail))
      = Some (coerce_utf8 k, String ":" tail)).
    { intros tail. change (String dqc (String ":" tail)) with (dq ++ String ":" tail).
      apply parse_encoded_any. }
    destruct l as [|kv' l].
    + cbn [List.map]. rewrite join_one. unfold member_text, json.encode_string, dq.
      cbn [fst snd]. norm_app.
      rewrite (parse_members_step n d (coerce_utf8 k) (coerce_value v) _ _
                 (String "}" rest) (Hkey _))
        by (change (String "}" rest) with ("}" ++ rest); apply IHv;
            [exact Hv|simpl in Hsize; lia]).
      reflexivity.
    + cbn [List.map]. rewrite join_cons2. unfold member_text at 1.
      unfold json.encode_string, dq. cbn [fst snd]. norm_app.
      rewrite (parse_members_step n d (coerce_utf8 k) (coerce_value v) _ _
                 (String "," (json.join "," (member_text kv' :: List.map member_text l)
                              ++ String "}" rest)) (Hkey _))
        by (apply IHv; [exact Hv|simpl in Hsize; lia]).
      change (json.skip_ws (String "," ?z)) with (String "," z). cbv iota.
      change (byte_val "," =? 44) with true. cbv iota.
      change (String "}" rest) with ("}" ++ rest).
      change (member_text kv' :: List.map member_text l) with (List.map member_text (kv' :: l)).
      rewrite IHm; [reflexivity|discriminate|exact Hl|simpl in Hsize |- *; lia].
Qed.

Lemma value_size_length_any (n : nat) :
  ∀ j d, shape_ok d j = true → (value_size j ≤ n)%nat →
  (value_size j ≤ String.length (json.render j))%nat.
Proof.
  induction n as [|n IH]; intros j d Hok Hsize.
  { pose proof (value_size_pos j). lia. }
  destruct j as [|[|]|lit|s|l|l]; try discriminate Hok; try (simpl; lia).
  - cbn [shape_ok] in Hok. apply andb_prop in Hok as [_ Hok].
    rewrite render_array, !string_length_app. cbn [value_size String.length] in Hsize |- *.
    pose proof (sum_le_join value_size json.render l) as Hsum.
    assert (HF : Forall (λ x, (value_size x ≤ String.length (json.render x))%nat) l).
    { apply Forall_forall. intros x Hx. apply (IH x (d + 1)).
      - rewrite forallb_forall in Hok. apply Hok, list_elem_of_In, Hx.
      - pose proof (list_sum_elem value_size l x Hx). lia. }
    specialize (Hsum HF). lia.
  - cbn [shape_ok] in Hok. apply andb_prop in Hok as [_ Hok].
    rewrite render_object, !string_length_app. cbn [value_size String.length] in Hsize |- *.
    pose proof (sum_le_join (λ kv, value_size (snd kv)) member_text l) as Hsum.
    assert (HF : Forall (λ kv, (value_size (snd kv) ≤ String.length (member_text kv))%nat) l).
    { apply Forall_forall. intros kv Hx. unfold member_text. rewrite !string_length_app.
      assert (value_size (snd kv) ≤ String.length (json.render (snd kv)))%nat; [|lia].
      apply (IH (snd kv) (d + 1)).
      - rewrite forallb_forall in Hok. apply list_elem_of_In, Hok in Hx. exact Hx.
      - pose proof (list_sum_elem (λ kv, value_size (snd kv)) l kv Hx). simpl in *. lia. }
    specialize (Hsum HF). lia.
Qed.

Lemma parse_render_any (j : json.value) :
  shape_ok 0 j = true → json.parse (json.render j) = Some (coerce_value j).
Proof.
  intros Hok. unfold json.parse.
  pose proof (value_size_length_any (value_size j) j 0 Hok (le_n _)) as Hlen.
  destruct (parse_render_any_n (S (String.length (json.render j)))) as (Hv & _ & _).
  specialize (Hv j 0 "" Hok ltac:(lia)). rewrite string_app_nil_r in Hv.
  rewrite Hv. reflexivity.
Qed.


Lemma stake_sdrop (k : nat) (s : string) : stake k s ++ sdrop k s = s.
Proof.
  induction k as [|k IH] in s |- *; [destruct s; reflexivity|].
  destruct s as [|c s]; [reflexivity|]. cbn [stake sdrop]. rewrite app_cons, IH. reflexivity.
Qed.

(** A valid string is left as it is. *)
Lemma coerce_loop_valid (n : nat) (s : string) :
  utf8.valid_loop n s = true → coerce_loop n s = s.
Proof.
  induction n as [|n IH] in s |- *; destruct s as [|c t]; try reflexivity; try discriminate.
  cbn [utf8.valid_loop]. rewrite coerce_loop_S. cbv zeta.
  destruct (utf8.DecodeRuneInString (String c t)) as [r size].
  destruct ((r =? utf8.RuneError) && (size =? 1)%nat); [discriminate|].
  intros Hv. rewrite (IH _ Hv). apply stake_sdrop.
Qed.

Lemma coerce_utf8_valid (s : string) : utf8.ValidString s = true → coerce_utf8 s = s.
Proof. apply coerce_loop_valid. Qed.

Lemma EncodeRune_RuneError :
  utf8.EncodeRune utf8.RuneError = String "239" (String "191" (String "189" "")).
Proof. vm_compute. reflexivity. Qed.

Lemma Decode_replacement (rest : string) :
  ∃ r, utf8.DecodeRuneInString (utf8.EncodeRune utf8.RuneError ++ rest) = (r, 3%nat).
Proof.
  rewrite EncodeRune_RuneError, !app_cons, app_nil_l.
  rewrite (Decode_eq3 "239" _ utf8.s3 utf8.locb utf8.hicb);
    [|reflexivity|reflexivity|reflexivity|reflexivity].
  eexists. reflexivity.
Qed.

(** A coerced string is valid. *)
Lemma coerce_loop_is_valid (n : nat) :
  ∀ s m, (String.length (coerce_loop n s) ≤ m)%nat →
  utf8.valid_loop m (coerce_loop n s) = true.
Proof.
  induction n as [|n IH]; intros s m Hm; [destruct s, m; reflexivity|].
  destruct s as [|c t]; [destruct m; reflexivity|].
  rewrite coerce_loop_S in Hm |- *. cbv zeta in Hm |- *.
  destruct (utf8.DecodeRuneInString (String c t)) as [r size] eqn:Hdec.
  destruct ((r =? utf8.RuneError) && (size =? 1)%nat) eqn:Herr.
  - destruct (Decode_replacement (coerce_loop n (sdrop 1 (String c t)))) as [r' Hr'].
    rewrite string_length_app, EncodeRune_RuneError in Hm. cbn [String.length] in Hm.
    destruct m as [|m]; [lia|].
    remember (utf8.EncodeRune utf8.RuneError ++ coerce_loop n (sdrop 1 (String c t))) as X
      eqn:HX.
    assert (HXs : ∃ a b, X = String a b)
      by (rewrite HX, EncodeRune_RuneError, app_cons; eauto).
    destruct HXs as (a & b & Hab). rewrite Hab. cbn [utf8.valid_loop]. rewrite <- Hab, Hr'.
    rewrite andb_false_r. rewrite HX.
    replace 3%nat with (String.length (utf8.EncodeRune utf8.RuneError))
      by (rewrite EncodeRune_RuneError; reflexivity).
    rewrite sdrop_app. apply IH. lia.
  - destruct (DecodeRune_good c t r size Hdec Herr)
      as (pre & post & Hs & Hlenpre & Hsz & Henc & Hstable).
    assert (Htake : stake size (String c t) = pre)
      by (rewrite Hs, <- Hlenpre; apply stake_app).
    assert (Hdrop : sdrop size (String c t) = post)
      by (rewrite Hs, <- Hlenpre; apply sdrop_app).
    rewrite Htake, Hdrop in Hm |- *. rewrite string_length_app in Hm.
    destruct m as [|m]; [lia|].
    destruct pre as [|c' pre']; [cbn [String.length] in Hlenpre; lia|].
    rewrite app_cons. cbn [utf8.valid_loop]. rewrite <- app_cons, Hstable, Herr.
    rewrite <- Hlenpre, sdrop_app. apply IH. cbn [String.length] in Hm. lia.
Qed.

Lemma coerce_utf8_is_valid (s : string) : utf8.ValidString (coerce_utf8 s) = true.
Proof. apply coerce_loop_is_valid. apply le_n. Qed.

Lemma coerce_utf8_empty (s : string) : String.eqb (coerce_utf8 s) "" = String.eqb s "".
Proof.
  destruct s as [|c t]; [reflexivity|].
  unfold coerce_utf8. cbn [String.length]. rewrite coerce_loop_S. cbv zeta.
  destruct (utf8.DecodeRuneInString (String c t)) as [r size] eqn:Hdec.
  destruct ((r =? utf8.RuneError) && (size =? 1)%nat) eqn:Herr.
  - rewrite EncodeRune_RuneError, app_cons. reflexivity.
  - destruct (DecodeRune_good c t r size Hdec Herr)
      as (pre & post & Hs & Hlenpre & Hsz & _).
    assert (Htake : stake size (String c t) = pre)
      by (rewrite Hs, <- Hlenpre; apply stake_app).
    rewrite Htake. destruct pre as [|c' pre']; [cbn [String.length] in Hlenpre; lia|].
    rewrite app_cons. reflexivity.
Qed.

Lemma coerce_Property_json (q : Property) :
  coerce_value (json.Property_to_json q) = json.Property_to_json (coerce_Property q).
Proof. reflexivity. Qed.

Lemma coerce_omitempty (name s : string) :
  coerce_utf8 name = name →
  List.map (λ kv, (coerce_utf8 (fst kv), coerce_value (snd kv))) (json.omitempty_string name s)
  = json.omitempty_string name (coerce_utf8 s).
Proof.
  intros Hn. unfold json.omitempty_string. rewrite coerce_utf8_empty.
  destruct (String.eqb s ""); [reflexivity|]. cbn [List.map fst snd coerce_value].
  rewrite Hn. reflexivity.
Qed.

Lemma coerce_Product_json (p : Product) :
  coerce_value (json.Product_to_json p) = json.Product_to_json (coerce_Product p).
Proof.
  destruct p as [id ty br na un qu pr ps].
  unfold json.Product_to_json, coerce_Product.
  cbn [Product.ID Product.Type_ Product.Brand Product.Name Product.Unit Product.Quantity
       Product.Price Product.Properties coerce_value].
  rewrite !List.map_app, !coerce_omitempty by reflexivity.
  destruct ps as [[|q qs]|]; [reflexivity| |reflexivity].
  cbn [List.map fst snd coerce_value nil_if_empty fmap option_fmap option_map].
  replace (List.map coerce_value (List.map json.Property_to_json qs))
    with (List.map json.Property_to_json (List.map coerce_Property qs))
    by (rewrite !List.map_map; reflexivity).
  reflexivity.
Qed.

Lemma omitempty_shape_ok (d : Z) (name s : string) :
  forallb (λ kv, shape_ok d (snd kv)) (json.omitempty_string name s) = true.
Proof. unfold json.omitempty_string. destruct (String.eqb s ""); reflexivity. Qed.

Lemma Product_shape_ok (p : Product) : shape_ok 0 (json.Product_to_json p) = true.
Proof.
  unfold json.Product_to_json. cbn [shape_ok].
  change (0 + 1 <=? json.maxNestingDepth) with true. cbn [andb].
  rewrite !forallb_app, !omitempty_shape_ok. cbn [forallb snd shape_ok andb].
  destruct (Product.Properties p) as [[|q qs]|]; [reflexivity| |reflexivity].
  cbn [forallb snd shape_ok]. change (0 + 1 + 1 <=? json.maxNestingDepth) with true.
  cbn [andb]. rewrite andb_true_r.
  apply forallb_forall. intros j Hj. apply in_map_iff in Hj as (q' & <- & _). reflexivity.
Qed.

Lemma coerce_Property_valid (q : Property) : valid_Property (coerce_Property q) = true.
Proof.
  unfold valid_Property, coerce_Property. cbn [Property.Name Property.Value].
  rewrite !coerce_utf8_is_valid. reflexivity.
Qed.

Lemma coerce_Product_valid (p : Product) : valid_Product (coerce_Product p) = true.
Proof.
  unfold valid_Product, coerce_Product.
  cbn [Product.ID Product.Type_ Product.Brand Product.Name Product.Unit Product.Quantity
       Product.Price Product.Properties].
  rewrite !coerce_utf8_is_valid. cbn [andb].
  apply forallb_forall. intros q Hq.
  destruct (Product.Properties p) as [[|q0 qs]|];
    cbn [nil_if_empty fmap option_fmap option_map default] in Hq;
    try (destruct Hq; fail).
  apply in_map_iff in Hq as (q' & <- & _).
  apply coerce_Property_valid.
Qed.

(** The slice of a product that has gone through JSON is nil or has an
    element. *)
Lemma coerce_Product_slice (p : Product) : Product.Properties (coerce_Product p) ≠ Some [].
Proof. destruct p as [id ty br na un qu pr [[|q qs]|]]; discriminate. Qed.

Lemma coerce_Properties_valid (ps : list Property) :
  forallb valid_Property ps = true → List.map coerce_Property ps = ps.
Proof.
  intros Hps. induction ps as [|q qs IH]; [reflexivity|].
  cbn [forallb] in Hps. apply andb_prop in Hps as [Hq Hqs].
  cbn [List.map]. rewrite (IH Hqs). f_equal.
  destruct q as [n v]. unfold valid_Property in Hq. cbn [Property.Name Property.Value] in Hq.
  apply andb_prop in Hq as [Hn Hv]. unfold coerce_Property.
  cbn [Property.Name Property.Value]. rewrite !coerce_utf8_valid by assumption. reflexivity.
Qed.

(** On a product with valid strings, going through JSON only makes the
    empty slice nil. *)
Lemma coerce_Product_valid_eq (p : Product) :
  valid_Product p = true → coerce_Product p = nil_if_empty_Product p.
Proof.
  intros Hp. destruct p as [id ty br na un qu pr ps]. unfold valid_Product in Hp.
  cbn [Product.ID Product.Type_ Product.Brand Product.Name Product.Unit Product.Quantity
       Product.Price Product.Properties] in Hp.
  repeat (apply andb_prop in Hp as [Hp ?]).
  unfold coerce_Product, nil_if_empty_Product.
  cbn [Product.ID Product.Type_ Product.Brand Product.Name Product.Unit Product.Quantity
       Product.Price Product.Properties json.set_Properties].
  rewrite !coerce_utf8_valid by assumption. f_equal.
  destruct ps as [[|q qs]|]; try reflexivity.
  cbn [nil_if_empty fmap option_fmap option_map default] in *.
  f_equal. apply coerce_Properties_valid. assumption.
Qed.

(** A product goes through JSON unchanged exactly when its strings are
    valid UTF-8 and its slice is nil or has an element. *)
Lemma coerce_Product_fixed (p : Product) :
  coerce_Product p = p ↔ valid_Product p = true ∧ Product.Properties p ≠ Some [].
Proof.
  split.
  - intros Hp. split.
    + rewrite <- Hp. apply coerce_Product_valid.
    + rewrite <- Hp. apply coerce_Product_slice.
  - intros [Hv Hs]. rewrite coerce_Product_valid_eq by exact Hv.
    apply nil_if_empty_Product_id, Hs.
Qed.

(** Any product comes back from its JSON text coerced to UTF-8. *)
Lemma Unmarshal_Marshal_any (p : Product) :
  json.Unmarshal_Product (fst (json.Marshal_Product p)) Product.zero
  = (coerce_Product p, None).
Proof.
  unfold json.Unmarshal_Product, json.Unmarshal, json.Marshal_Product. cbn [fst].
  rewrite parse_render_any by apply Product_shape_ok.
  rewrite coerce_Product_json, decode_Product_roundtrip.
  rewrite nil_if_empty_Product_id by apply coerce_Product_slice. reflexivity.
Qed.

(** X10.  The round trip of any product: the JSON of a product, whatever bytes its
    strings hold, decodes without error to the product with every string
    coerced to UTF-8, each byte that starts no valid sequence replaced by
    U+FFFD, and with a slice of properties that is empty made nil.  The
    result has valid strings and a slice that is nil or has an element, so a
    second round trip returns it unchanged.  A product is its own result
    exactly when its strings are valid UTF-8 and its slice is not the empty
    slice that is not nil. *)
Theorem roundtrip_coerces_to_UTF8 (p : Product) :
  json.Unmarshal_Product (fst (json.Marshal_Product p)) Product.zero
  = (coerce_Product p, None)
  ∧ valid_Product (coerce_Product p) = true
  ∧ Product.Properties (coerce_Product p) ≠ Some []
  ∧ json.Unmarshal_Product (fst (json.Marshal_Product (coerce_Product p))) Product.zero
    = (coerce_Product p, None)
  ∧ (coerce_Product p = p ↔ valid_Product p = true ∧ Product.Properties p ≠ Some []).
Proof.
  split; [apply Unmarshal_Marshal_any|].
  split; [apply coerce_Product_valid|].
  split; [apply coerce_Product_slice|].
  split; [|apply coerce_Product_fixed].
  rewrite Unmarshal_Marshal_Product by apply coerce_Product_valid.
  rewrite nil_if_empty_Product_id by apply coerce_Product_slice. reflexivity.
Qed.

Lemma outcome_parts {S : Type} (st : HState S) (a : Z) (b : gmap string (list string))
  (c : string) (t : Z) (sto : S) :
  outcome_is st (a, b, c) t sto →
  status (w st) = a ∧ sentHeader (w st) = b ∧ body (w st) = c ∧ store st = sto.
Proof.
  intros (Hr & _ & Hs & _). unfold response in Hr.
  injection Hr as Ha Hb Hc. auto.
Qed.

Section ServingHeaders.

Context {S : Type} `{Store S}.

(** X11.  The header [X-Content-Type-Options: nosniff] goes out with the 404
    answers, which [http.Error] writes, and with no other answer. *)
Theorem nosniff_exactly_on_404 (cs : Server S) (r : Request) (t0 : Z) (conn : bool)
  (o : MapOrder) :
  let rw := w (serve cs r t0 conn o) in
  response_header "X-Content-Type-Options" rw
  = (if status rw =? StatusNotFound then "nosniff" else "").
Proof.
  cbv zeta. pose proof (serve_outcome cs r t0 conn o) as Ho. cbv zeta in Ho.
  assert (Hcase :
    (status (w (serve cs r t0 conn o)) = StatusNotFound
     ∧ sentHeader (w (serve cs r t0 conn o)) = error_headers)
    ∨ ((status (w (serve cs r t0 conn o)) = StatusOK
        ∨ status (w (serve cs r t0 conn o)) = StatusMethodNotAllowed)
       ∧ sentHeader (w (serve cs r t0 conn o)) = json_headers)).
  { destruct (negb (known_method r));
      [apply outcome_parts in Ho as (-> & -> & _); auto|].
    destruct (FindRoute (routePath r)) as [|id|];
      [destruct (String.eqb (Method r) "GET")|destruct (String.eqb (Method r) "GET")|];
      try (apply outcome_parts in Ho as (-> & -> & _); auto; fail).
    destruct (Store_GetProduct id (Store_ cs)) as [[p [e|]] s']; cbn [fst] in Ho;
      apply outcome_parts in Ho as (-> & -> & _); auto. }
  unfold response_header.
  destruct Hcase as [[-> ->]|[[-> | ->] ->]]; reflexivity.
Qed.

End ServingHeaders.

(** ** Serving from a [MemoryStore] *)

Lemma MemoryStore_GetAll_snd (o : MapOrder) (ms : MemoryStore) :
  snd (MemoryStore.GetAll o ms) = ms.
Proof. apply (run_call_id ms (Call_GetAll o)). Qed.

Lemma MemoryStore_GetProduct_snd (id : string) (ms : MemoryStore) :
  snd (MemoryStore.GetProduct id ms) = ms.
Proof. apply (run_call_id ms (Call_GetProduct id)). Qed.

Lemma MemoryStore_GetProduct_fst (id : string) (ms : MemoryStore) :
  fst (MemoryStore.GetProduct id ms)
  = match entries (MemoryStore.Products_ ms) !! id with
    | Some p => (p, None)
    | None => (Product.zero, Some (errors_New "product not found"))
    end.
Proof.
  unfold MemoryStore.GetProduct. cbn [fst MemoryStore.withMx MemoryStore.Products_].
  destruct (entries (MemoryStore.Products_ ms) !! id); reflexivity.
Qed.

(** The status of every answer of a server over a [MemoryStore]. *)
Lemma serve_status (cs : Server MemoryStore) (r : Request) (t0 : Z) (conn : bool)
  (o : MapOrder) :
  let st := serve cs r t0 conn o in
  store st = Store_ cs
  ∧ status (w st)
    = (if negb (known_method r) then StatusMethodNotAllowed
       else match FindRoute (routePath r) with
            | RouteProducts =>
              if String.eqb (Method r) "GET" then StatusOK else StatusMethodNotAllowed
            | RouteProduct id =>
              if String.eqb (Method r) "GET" then
                match entries (MemoryStore.Products_ (Store_ cs)) !! id with
                | Some _ => StatusOK
                | None => StatusNotFound
                end
              else StatusMethodNotAllowed
            | NoRoute => StatusNotFound
            end)
  ∧ (status (w st) = StatusMethodNotAllowed → body (w st) = "").
Proof.
  cbv zeta. pose proof (serve_outcome cs r t0 conn o) as Ho. cbv zeta in Ho.
  change (@Store_GetAll MemoryStore _) with MemoryStore.GetAll in Ho.
  change (@Store_GetProduct MemoryStore _) with MemoryStore.GetProduct in Ho.
  destruct (negb (known_method r));
    [apply outcome_parts in Ho as (-> & _ & -> & ->); auto|].
  destruct (FindRoute (routePath r)) as [|id|];
    [destruct (String.eqb (Method r) "GET")|destruct (String.eqb (Method r) "GET")|].
  - rewrite MemoryStore_GetAll_snd in Ho.
    apply outcome_parts in Ho as (-> & _ & _ & ->).
    split; [reflexivity|]. split; [reflexivity|discriminate].
  - apply outcome_parts in Ho as (-> & _ & -> & ->); auto.
  - rewrite MemoryStore_GetProduct_snd, MemoryStore_GetProduct_fst in Ho.
    destruct (entries (MemoryStore.Products_ (Store_ cs)) !! id);
      apply outcome_parts in Ho as (-> & _ & _ & ->);
      (split; [reflexivity|]); (split; [reflexivity|discriminate]).
  - apply outcome_parts in Ho as (-> & _ & -> & ->); auto.
  - apply outcome_parts in Ho as (-> & _ & _ & ->).
    split; [reflexivity|]. split; [reflexivity|discriminate].
Qed.

(** X12.  No request changes the store: after any request, of any method and
    path, the server's [MemoryStore] holds the same mapping and its lock is
    free again. *)
Theorem serving_leaves_the_store (cs : Server MemoryStore) (r : Request) (t0 : Z)
  (conn : bool) (o : MapOrder) :
  store (serve cs r t0 conn o) = Store_ cs.
Proof. apply serve_status. Qed.

Lemma GET_is_known (r : Request) : Method r = "GET" → known_method r = true.
Proof. intros Hm. unfold known_method. rewrite Hm. reflexivity. Qed.

(** X13.  The answers with status 200 are exactly those to a [GET] of
    [/products], and to a [GET] of [/products/<id>] where [<id>] is one path
    segment (not empty, no slash) and the identifier of a product in the
    store.  Every other request (another method, [HEAD] included, another
    path, an identifier the store does not hold) gets another status. *)
Theorem ok_exactly_for_what_exists (cs : Server MemoryStore) (r : Request) (t0 : Z)
  (conn : bool) (o : MapOrder) :
  status (w (serve cs r t0 conn o)) = StatusOK
  ↔ Method r = "GET"
    ∧ (Path r = "/products"
       ∨ ∃ id p, Path r = "/products/" ++ id ∧ id ≠ "" ∧ has_slash id = false
                 ∧ entries (MemoryStore.Products_ (Store_ cs)) !! id = Some p).
Proof.
  destruct (serve_status cs r t0 conn o) as (_ & -> & _).
  destruct (known_method r) eqn:Hk; cbn [negb].
  2: { split; [discriminate|]. intros [Hm _]. apply GET_is_known in Hm. congruence. }
  destruct (FindRoute (routePath r)) as [|id|] eqn:Hroute.
  - apply FindRoute_routePath_Products in Hroute.
    destruct (String.eqb_spec (Method r) "GET") as [Hm|Hm].
    + split; auto.
    + split; [discriminate|]. intros [? _]. congruence.
  - pose proof Hroute as Hr. apply FindRoute_routePath_Product in Hr as (Hp & Hid & Hsl).
    destruct (String.eqb_spec (Method r) "GET") as [Hm|Hm].
    + destruct (entries (MemoryStore.Products_ (Store_ cs)) !! id) as [p|] eqn:Hl.
      * split; [|reflexivity]. intros _. split; [exact Hm|]. right. exists id, p. auto.
      * split; [discriminate|]. intros [_ [Hq|(id' & p' & Hq & Hid' & Hsl' & Hl')]].
        -- apply FindRoute_routePath_Products in Hq. congruence.
        -- assert (FindRoute (routePath r) = RouteProduct id')
             by (apply FindRoute_routePath_Product; auto).
           congruence.
    + split; [discriminate|]. intros [? _]. congruence.
  - split; [discriminate|]. intros [_ [Hq|(id' & p' & Hq & Hid' & Hsl' & Hl')]].
    + apply FindRoute_routePath_Products in Hq. congruence.
    + assert (FindRoute (routePath r) = RouteProduct id')
        by (apply FindRoute_routePath_Product; auto).
      congruence.
Qed.

(** X14.  The answers with status 405 are exactly those to a request whose method
    chi does not know (its list has the nine standard methods, in capitals),
    and to a request with a known method other than [GET] on one of the two
    routes.  Such an answer has no body. *)
Theorem method_not_allowed_exactly (cs : Server MemoryStore) (r : Request) (t0 : Z)
  (conn : bool) (o : MapOrder) :
  let st := serve cs r t0 conn o in
  (status (w st) = StatusMethodNotAllowed
   ↔ known_method r = false
     ∨ (Method r ≠ "GET"
        ∧ (Path r = "/products"
           ∨ ∃ id, Path r = "/products/" ++ id ∧ id ≠ "" ∧ has_slash id = false)))
  ∧ (status (w st) = StatusMethodNotAllowed → body (w st) = "").
Proof.
  cbv zeta. destruct (serve_status cs r t0 conn o) as (_ & Hs & Hb).
  split; [|exact Hb]. rewrite Hs. clear Hs Hb.
  destruct (known_method r) eqn:Hk; cbn [negb]; [|split; auto].
  destruct (FindRoute (routePath r)) as [|id|] eqn:Hroute.
  - apply FindRoute_routePath_Products in Hroute.
    destruct (String.eqb_spec (Method r) "GET") as [Hm|Hm].
    + split; [discriminate|]. intros [?|[? _]]; congruence.
    + split; auto.
  - pose proof Hroute as Hr. apply FindRoute_routePath_Product in Hr as (Hp & Hid & Hsl).
    destruct (String.eqb_spec (Method r) "GET") as [Hm|Hm].
    + destruct (entries (MemoryStore.Products_ (Store_ cs)) !! id);
        (split; [discriminate|]); intros [?|[? _]]; congruence.
    + split; [|reflexivity]. intros _. right. split; [exact Hm|]. right. exists id. auto.
  - split; [discriminate|]. intros [?|[_ [Hq|(id' & Hq & Hid' & Hsl')]]]; [congruence| |].
    + apply FindRoute_routePath_Products in Hq. congruence.
    + assert (FindRoute (routePath r) = RouteProduct id')
        by (apply FindRoute_routePath_Product; auto).
      congruence.
Qed.

(** X15.  A product of the store is served under its key: for a key that is one
    path segment, [GET /products/<key>] is answered 200 with the JSON
    content type as the only header of the handler chain and the compact JSON
    of the product as body.  The body decodes, without error, to the product
    with its strings coerced to UTF-8 and its slice of properties, if empty,
    nil; that is the product itself exactly when its strings are valid UTF-8
    and its slice is nil or has an element. *)
Theorem product_is_served (cs : Server MemoryStore) (id : string) (p : Product) (t0 : Z)
  (o : MapOrder) :
  id ≠ "" → has_slash id = false →
  entries (MemoryStore.Products_ (Store_ cs)) !! id = Some p →
  let st := serve cs (request "GET" ("/products/" ++ id)) t0 true o in
  response (w st) = (StatusOK, json_headers, fst (json.Marshal_Product p))
  ∧ json.Unmarshal_Product (body (w st)) Product.zero = (coerce_Product p, None)
  ∧ (json.Unmarshal_Product (body (w st)) Product.zero = (p, None)
     ↔ valid_Product p = true ∧ Product.Properties p ≠ Some []).
Proof.
  intros Hid Hsl Hp. cbv zeta.
  pose proof (serve_outcome cs (request "GET" ("/products/" ++ id)) t0 true o) as Ho.
  cbv zeta in Ho.
  change (negb (known_method (request "GET" ("/products/" ++ id)))) with false in Ho.
  cbv iota in Ho. rewrite routePath_request in Ho by discriminate.
  replace (FindRoute ("/products/" ++ id)) with (RouteProduct id) in Ho
    by (symmetry; apply FindRoute_Product_iff; auto).
  cbn [Method request] in Ho. change (String.eqb "GET" "GET") with true in Ho. cbv iota in Ho.
  change (@Store_GetProduct MemoryStore _) with MemoryStore.GetProduct in Ho.
  rewrite MemoryStore_GetProduct_fst, Hp in Ho.
  apply outcome_parts in Ho as (Hs & Hh & Hb & _).
  split; [unfold response; rewrite Hs, Hh, Hb; reflexivity|].
  rewrite Hb. change (sent true ?d) with d.
  change (json.render (json.Product_to_json p)) with (fst (json.Marshal_Product p)).
  rewrite Unmarshal_Marshal_any. split; [reflexivity|].
  rewrite <- coerce_Product_fixed. split; [intros [= ->]; reflexivity|intros ->; reflexivity].
Qed.

Lemma product_is_served_witness :
  "1" ≠ "" ∧ has_slash "1" = false
  ∧ entries (MemoryStore.Products_ (Store_ default_server)) !! "1" = Some product_1
  ∧ response (w (serve default_server (request "GET" ("/products/" ++ "1")) 0 true order_id))
    = (StatusOK, json_headers, fst (json.Marshal_Product product_1)).
Proof.
  split; [discriminate|]. split; [reflexivity|]. split; [vm_compute; reflexivity|].
  apply (product_is_served default_server "1" product_1 0 order_id);
    [discriminate|reflexivity|vm_compute; reflexivity].
Defined.

(** The seed inventory: every key is one path segment, and every product
    has valid UTF-8 strings. *)
Lemma inventory_reachable (id : string) (p : Product) :
  entries inventory !! id = Some p →
  id ≠ "" ∧ has_slash id = false ∧ valid_Product p = true.
Proof.
  intros Hp. apply inventory_lookup in Hp. unfold inventory_entries in Hp.
  repeat (apply elem_of_cons in Hp as [Hp|Hp];
          [inversion Hp; split; [discriminate|]; split; vm_compute; reflexivity|]).
  apply elem_of_nil in Hp. destruct Hp.
Qed.

(** X16.  From [Run] to the client: whatever the environment, if [Run] builds a
    server, then for every product of the seed inventory the handler chain
    answers [GET /products/<id>] with status 200, the JSON content type and
    a body that decodes to the product, whose [id] is [<id>], when the
    server's latency has passed.  On a connection that takes it, this
    answer reaches the client exactly when the latency is less than the 30
    seconds of the write timeout that [New] sets: with a latency of 30
    seconds or more the client gets nothing. *)
Theorem every_seed_product_is_served (float_frac : Z → Z → Z → Z) (env : Env)
  (srv : Server MemoryStore) (id : string) (p : Product) (t0 : Z) (o : MapOrder) :
  Run float_frac env = Return srv →
  entries inventory !! id = Some p →
  let st := serve srv (request "GET" ("/products/" ++ id)) t0 true o in
  status (w st) = StatusOK
  ∧ response_header "Content-Type" (w st) = "application/json; charset=utf-8"
  ∧ now st = t0 + Z.max (Latency srv) 0
  ∧ json.Unmarshal_Product (body (w st)) Product.zero = (p, None)
  ∧ Product.ID p = id
  ∧ delivered st = (Latency srv <? 30 * Second).
Proof.
  intros Hrun Hp. cbv zeta.
  assert (Hstore : Store_ srv = seeded_store ∧ WriteTimeout (HTTPServer_ srv) = 30 * Second).
  { unfold Run, New in Hrun.
    destruct (latencyFromEnv float_frac env "COFFEESHOP_LATENCY" "100ms"); [|discriminate].
    cbn [fold_left] in Hrun. injection Hrun as <-. split; reflexivity. }
  destruct Hstore as [Hstore Hwt].
  destruct (inventory_reachable id p Hp) as (Hid & Hsl & Hv).
  pose proof (serve_outcome srv (request "GET" ("/products/" ++ id)) t0 true o) as Ho.
  cbv zeta in Ho.
  change (negb (known_method (request "GET" ("/products/" ++ id)))) with false in Ho.
  cbv iota in Ho. rewrite routePath_request in Ho by discriminate.
  replace (FindRoute ("/products/" ++ id)) with (RouteProduct id) in Ho
    by (symmetry; apply FindRoute_Product_iff; auto).
  cbn [Method request] in Ho. change (String.eqb "GET" "GET") with true in Ho. cbv iota in Ho.
  change (@Store_GetProduct MemoryStore _) with MemoryStore.GetProduct in Ho.
  rewrite MemoryStore_GetProduct_fst, Hstore in Ho.
  change (MemoryStore.Products_ seeded_store) with inventory in Ho. rewrite Hp in Ho.
  pose proof Ho as (_ & Hn & _).
  apply outcome_parts in Ho as (Hs & Hh & Hb & _).
  split; [exact Hs|].
  split; [unfold response_header; rewrite Hh; reflexivity|].
  split; [exact Hn|].
  split.
  { rewrite Hb. change (sent true ?d) with d.
    change (json.render (json.Product_to_json p)) with (fst (json.Marshal_Product p)).
    rewrite Unmarshal_Marshal_Product by exact Hv.
    rewrite nil_if_empty_Product_id by (apply (inventory_Properties id), Hp). reflexivity. }
  split; [apply inventory_ID, Hp|].
  rewrite serve_delivered, Hwt. cbn [andb].
  change (0 <? 30 * Second) with true. cbn [negb orb].
  apply eq_true_iff_eq. rewrite !Z.ltb_lt. unfold Second, Millisecond, Microsecond, Nanosecond.
  lia.
Qed.

Lemma every_seed_product_is_served_witness :
  Run exact_frac ∅ = Return default_server
  ∧ entries inventory !! "1" = Some product_1
  ∧ json.Unmarshal_Product
      (body (w (serve default_server (request "GET" ("/products/" ++ "1")) 0 true order_id)))
      Product.zero
    = (product_1, None)
  ∧ delivered (serve default_server (request "GET" ("/products/" ++ "1")) 0 true order_id)
    = (Latency default_server <? 30 * Second).
Proof.
  assert (Hrun : Run exact_frac ∅ = Return default_server) by (vm_compute; reflexivity).
  assert (Hp : entries inventory !! "1" = Some product_1) by (vm_compute; reflexivity).
  split; [exact Hrun|]. split; [exact Hp|].
  destruct (every_seed_product_is_served exact_frac ∅ default_server "1" product_1 0 order_id
              Hrun Hp) as (_ & _ & _ & Hb & _ & Hd).
  split; [exact Hb|exact Hd].
Defined.

(** ** Indented JSON: what [MarshalIndent] writes, [parse] reads back *)

Lemma skip_ws_space (s : string) : json.skip_ws (String " " s) = json.skip_ws s.
Proof. reflexivity. Qed.

Lemma skip_ws_indentation (k : nat) (s : string) :
  json.skip_ws (json.repeat_string k "  " ++ s) = json.skip_ws s.
Proof.
  induction k as [|k IH]; [reflexivity|].
  cbn [json.repeat_string]. rewrite string_app_assoc, !app_cons, app_nil_l.
  rewrite !skip_ws_space. exact IH.
Qed.

Lemma skip_ws_newline (k : nat) (s : string) :
  json.skip_ws (json.newline "" "  " k ++ s) = json.skip_ws s.
Proof.
  unfold json.newline, lf. rewrite app_nil_l, !app_cons, app_nil_l.
  change (json.skip_ws (String "010" ?x)) with (json.skip_ws x).
  apply skip_ws_indentation.
Qed.

(** The parser looks at its input past the leading white space only. *)
Lemma parse_value_skip (n : nat) (d : Z) (a b : string) :
  json.skip_ws a = json.skip_ws b → json.parse_value n d a = json.parse_value n d b.
Proof.
  intros Hab. destruct n as [|n]; [reflexivity|].
  rewrite !parse_value_S, Hab. reflexivity.
Qed.

Lemma parse_elems_skip (n : nat) (d : Z) (a b : string) :
  json.skip_ws a = json.skip_ws b → json.parse_elems n d a = json.parse_elems n d b.
Proof.
  intros Hab. destruct n as [|n]; [reflexivity|].
  rewrite !parse_elems_S, (parse_value_skip n d a b Hab). reflexivity.
Qed.

Lemma parse_members_skip (n : nat) (d : Z) (a b : string) :
  json.skip_ws a = json.skip_ws b → json.parse_members n d a = json.parse_members n d b.
Proof.
  intros Hab. destruct n as [|n]; [reflexivity|].
  rewrite !parse_members_S, Hab. reflexivity.
Qed.

Lemma render_indent_array (k : nat) (x : json.value) (l : list json.value) :
  json.render_indent "" "  " k (json.JArray (x :: l))
  = "[" ++ json.newline "" "  " (S k)
    ++ json.join ("," ++ json.newline "" "  " (S k))
         (List.map (json.render_indent "" "  " (S k)) (x :: l))
    ++ json.newline "" "  " k ++ "]".
Proof. reflexivity. Qed.

Lemma render_indent_object (k : nat) (kv : string * json.value)
  (l : list (string * json.value)) :
  json.render_indent "" "  " k (json.JObject (kv :: l))
  = "{" ++ json.newline "" "  " (S k)
    ++ json.join ("," ++ json.newline "" "  " (S k))
         (List.map (λ kv, json.encode_string (fst kv) ++ ": "
                          ++ json.render_indent "" "  " (S k) (snd kv)) (kv :: l))
    ++ json.newline "" "  " k ++ "}".
Proof. reflexivity. Qed.

(** The first byte of an indented value: not white space, not a closing
    bracket. *)
Lemma render_indent_head (d : Z) (k : nat) (j : json.value) :
  value_ok d j = true →
  ∃ c x, json.render_indent "" "  " k j = String c x ∧ json.is_ws c = false
         ∧ (byte_val c =? 0x5D) = false ∧ (byte_val c =? 0x7D) = false.
Proof.
  destruct j as [|[|]|lit|s|[|y l]|[|kv l]]; intros Hok; try discriminate Hok;
    rewrite ?render_indent_array, ?render_indent_object;
    cbn [json.render_indent json.render]; unfold json.encode_string, dq;
    rewrite ?app_cons; eexists _, _; (split; [reflexivity|]);
    repeat split; reflexivity.
Qed.

Lemma join_sep_cons2 (sep x y : string) (l : list string) :
  json.join sep (x :: y :: l) = x ++ sep ++ json.join sep (y :: l).
Proof. reflexivity. Qed.

Lemma join_sep_one (sep x : string) : json.join sep [x] = x.
Proof. reflexivity. Qed.

Lemma render_indent_array_app (k : nat) (x : json.value) (l : list json.value)
  (rest : string) :
  json.render_indent "" "  " k (json.JArray (x :: l)) ++ rest
  = String "["
      (json.newline "" "  " (S k)
       ++ (json.join ("," ++ json.newline "" "  " (S k))
             (List.map (json.render_indent "" "  " (S k)) (x :: l))
           ++ (json.newline "" "  " k ++ String "]" rest))).
Proof. rewrite render_indent_array, !string_app_assoc. reflexivity. Qed.

(** The text of one member of an indented object. *)
Lemma render_indent_object_app (k : nat) (kv : string * json.value)
  (l : list (string * json.value)) (rest : string) :
  json.render_indent "" "  " k (json.JObject (kv :: l)) ++ rest
  = String "{"
      (json.newline "" "  " (S k)
       ++ (json.join ("," ++ json.newline "" "  " (S k))
             (List.map (λ kv, json.encode_string (fst kv) ++ ": "
                              ++ json.render_indent "" "  " (S k) (snd kv)) (kv :: l))
           ++ (json.newline "" "  " k ++ String "}" rest))).
Proof. rewrite render_indent_object, !string_app_assoc. reflexivity. Qed.

Lemma join_sep_cons2_app (k : nat) (x y : string) (l : list string) (tail : string) :
  json.join ("," ++ json.newline "" "  " k) (x :: y :: l) ++ tail
  = x ++ String "," (json.newline "" "  " k
                     ++ (json.join ("," ++ json.newline "" "  " k) (y :: l) ++ tail)).
Proof. rewrite join_sep_cons2, !string_app_assoc. reflexivity. Qed.

Lemma indent_member_app (k : nat) (key : string) (v : json.value) (R : string) :
  (json.encode_string key ++ ": " ++ json.render_indent "" "  " k v) ++ R
  = String dqc (json.string_loop (String.length key) key
                ++ String dqc (String ":" (String " " (json.render_indent "" "  " k v ++ R)))).
Proof. unfold json.encode_string, dq. rewrite !string_app_assoc. reflexivity. Qed.

Lemma parse_indent_n (n : nat) :
  (∀ j d k rest, value_ok d j = true → (value_size j ≤ n)%nat →
     json.parse_value n d (json.render_indent "" "  " k j ++ rest) = Some (j, rest))
  ∧ (∀ l d k tail rest, l ≠ [] → forallb (value_ok d) l = true →
       (list_sum (List.map (λ x, S (value_size x)) l) ≤ n)%nat →
       json.skip_ws tail = String "]" rest →
       json.parse_elems n d
         (json.join ("," ++ json.newline "" "  " k)
            (List.map (json.render_indent "" "  " k) l) ++ tail)
       = Some (l, rest))
  ∧ (∀ l d k tail rest, l ≠ [] →
       forallb (λ kv, utf8.ValidString (fst kv) && value_ok d (snd kv)) l = true →
       (list_sum (List.map (λ kv, S (value_size (snd kv))) l) ≤ n)%nat →
       json.skip_ws tail = String "}" rest →
       json.parse_members n d
         (json.join ("," ++ json.newline "" "  " k)
            (List.map (λ kv, json.encode_string (fst kv) ++ ": "
                             ++ json.render_indent "" "  " k (snd kv)) l) ++ tail)
       = Some (l, rest)).
Proof.
  induction n as [|n (IHv & IHe & IHm)].
  { split; [|split].
    - intros j d k rest _ Hsize. pose proof (value_size_pos j). lia.
    - intros [|x l] d k tail rest Hne _ Hsize; [congruence|]. simpl in Hsize. lia.
    - intros [|x l] d k tail rest Hne _ Hsize; [congruence|]. simpl in Hsize. lia. }
  split; [|split].
  - intros j d k rest Hok Hsize.
    destruct j as [|[|]|lit|s|l|l]; try discriminate Hok; try reflexivity.
    + (* a string *)
      cbn [value_ok] in Hok. cbn [json.render_indent json.render].
      unfold json.encode_string, dq. norm_app.
      rewrite parse_value_quote.
      change (String dqc rest) with (dq ++ rest).
      rewrite parse_encoded_string by exact Hok. reflexivity.
    + (* an array *)
      cbn [value_ok] in Hok. apply andb_prop in Hok as [Hd Hok].
      assert (Hdepth : (json.maxNestingDepth <? d + 1) = false) by (apply Z.ltb_ge; lia).
      destruct l as [|x l].
      { cbn [json.render_indent]. norm_app. rewrite parse_value_bracket, Hdepth. reflexivity. }
      rewrite render_indent_array_app, parse_value_bracket, Hdepth.
      pose proof Hok as Hx. cbn [forallb] in Hx. apply andb_prop in Hx as [Hx _].
      destruct (render_indent_head (d + 1) (S k) x Hx) as (c & z & Heq & Hws & Hc & _).
      set (tail := json.newline "" "  " k ++ String "]" rest).
      assert (Htail : json.skip_ws tail = String "]" rest) by apply skip_ws_newline.
      set (T := json.join ("," ++ json.newline "" "  " (S k))
                  (List.map (json.render_indent "" "  " (S k)) (x :: l)) ++ tail).
      assert (Hskip : json.skip_ws (json.newline "" "  " (S k) ++ T) = json.skip_ws T)
        by apply skip_ws_newline.
      assert (Hhead : ∃ z', json.skip_ws T = String c z').
      { unfold T. cbn [List.map]. destruct l as [|y l].
        - rewrite join_sep_one, Heq, app_cons. eexists. apply skip_ws_head, Hws.
        - cbn [List.map]. rewrite join_sep_cons2_app, Heq, app_cons.
          eexists. apply skip_ws_head, Hws. }
      destruct Hhead as [z' Hz]. rewrite Hskip, Hz, Hc.
      rewrite (parse_elems_skip n (d + 1) _ T Hskip). unfold T.
      rewrite (IHe (x :: l) (d + 1) (S k) tail rest);
        [reflexivity|discriminate|exact Hok| |exact Htail].
      cbn [value_size] in Hsize. lia.
    + (* an object *)
      cbn [value_ok] in Hok. apply andb_prop in Hok as [Hd Hok].
      assert (Hdepth : (json.maxNestingDepth <? d + 1) = false) by (apply Z.ltb_ge; lia).
      destruct l as [|kv l].
      { cbn [json.render_indent]. norm_app. rewrite parse_value_brace, Hdepth. reflexivity. }
      rewrite render_indent_object_app, parse_value_brace, Hdepth.
      set (tail := json.newline "" "  " k ++ String "}" rest).
      assert (Htail : json.skip_ws tail = String "}" rest) by apply skip_ws_newline.
      set (T := json.join ("," ++ json.newline "" "  " (S k))
                  (List.map (λ kv, json.encode_string (fst kv) ++ ": "
                                   ++ json.render_indent "" "  " (S k) (snd kv)) (kv :: l))
                ++ tail).
      assert (Hskip : json.skip_ws (json.newline "" "  " (S k) ++ T) = json.skip_ws T)
        by apply skip_ws_newline.
      assert (Hhead : ∃ z', json.skip_ws T = String dqc z').
      { unfold T. cbn [List.map]. destruct l as [|kv' l].
        - rewrite join_sep_one, indent_member_app. eexists. reflexivity.
        - cbn [List.map]. rewrite join_sep_cons2_app, indent_member_app.
          eexists. reflexivity. }
      destruct Hhead as [z' Hz]. rewrite Hskip, Hz.
      change (byte_val dqc =? 125) with false. cbv iota.
      rewrite (parse_members_skip n (d + 1) _ T Hskip). unfold T.
      rewrite (IHm (kv :: l) (d + 1) (S k) tail rest);
        [reflexivity|discriminate|exact Hok| |exact Htail].
      cbn [value_size] in Hsize. lia.
  - (* the elements of an array *)
    intros l d k tail rest Hne Hok Hsize Htail. destruct l as [|x l]; [congruence|]. clear Hne.
    cbn [forallb] in Hok. apply andb_prop in Hok as [Hx Hl].
    destruct l as [|y l].
    + cbn [List.map]. rewrite join_sep_one.
      rewrite (parse_elems_step n d _ x tail) by (apply IHv; [exact Hx|simpl in Hsize; lia]).
      rewrite Htail. reflexivity.
    + cbn [List.map]. rewrite join_sep_cons2_app.
      match goal with
      | |- json.parse_elems _ _ (_ ++ ?R) = _ =>
        rewrite (parse_elems_step n d _ x R) by (apply IHv; [exact Hx|simpl in Hsize; lia])
      end.
      change (json.skip_ws (String "," ?z)) with (String "," z). cbv iota.
      change (byte_val "," =? 44) with true. cbv iota.
      rewrite (parse_elems_skip n d _ _ (skip_ws_newline k _)).
      change (json.render_indent "" "  " k y :: List.map (json.render_indent "" "  " k) l)
        with (List.map (json.render_indent "" "  " k) (y :: l)).
      rewrite (IHe (y :: l) d k tail rest);
        [reflexivity|discriminate|exact Hl|simpl in Hsize |- *; lia|exact Htail].
  - (* the members of an object *)
    intros l d k tail rest Hne Hok Hsize Htail.
    destruct l as [|[key v] l]; [congruence|]. clear Hne.
    cbn [forallb fst snd] in Hok. apply andb_prop in Hok as [Hkv Hl].
    apply andb_prop in Hkv as [Hk Hv].
    assert (Hkey : ∀ tl,
      json.string_body
        (String.length (json.string_loop (String.length key) key
                        ++ String dqc (String ":" tl)))
        (json.string_loop (String.length key) key ++ String dqc (String ":" tl))
      = Some (key, String ":" tl)).
    { intros tl. change (String dqc (String ":" tl)) with (dq ++ String ":" tl).
      apply parse_encoded_string, Hk. }
    assert (Hval : ∀ R, json.parse_value n d
                          (String " " (json.render_indent "" "  " k v ++ R)) = Some (v, R)).
    { intros R. rewrite (parse_value_skip n d _ (json.render_indent "" "  " k v ++ R))
        by apply skip_ws_space.
      apply IHv; [exact Hv|simpl in Hsize; lia]. }
    destruct l as [|kv' l].
    + cbn [List.map fst snd]. rewrite join_sep_one, indent_member_app.
      rewrite (parse_members_step n d key v _ _ tail (Hkey _) (Hval _)).
      rewrite Htail. reflexivity.
    + cbn [List.map fst snd]. rewrite join_sep_cons2_app, indent_member_app.
      match goal with
      | |- context [String " " (json.render_indent "" "  " k v ++ ?Y)] =>
        rewrite (parse_members_step n d key v _ _ Y (Hkey _) (Hval _))
      end.
      change (json.skip_ws (String "," ?z)) with (String "," z). cbv iota.
      change (byte_val "," =? 44) with true. cbv iota.
      rewrite (parse_members_skip n d _ _ (skip_ws_newline k _)).
      match goal with
      | |- context [json.join _ ?L ++ tail] =>
        change L with (List.map (λ kv, json.encode_string (fst kv) ++ ": "
                                       ++ json.render_indent "" "  " k (snd kv)) (kv' :: l))
      end.
      rewrite (IHm (kv' :: l) d k tail rest);
        [reflexivity|discriminate|exact Hl|simpl in Hsize |- *; lia|exact Htail].
Qed.


Lemma sum_le_join_sep {A : Type} (sep : string) (sz : A → nat) (f : A → string) (l : list A) :
  (1 ≤ String.length sep)%nat →
  Forall (λ x, (sz x ≤ String.length (f x))%nat) l →
  (list_sum (List.map (λ x, S (sz x)) l) ≤ String.length (json.join sep (List.map f l)) + 1)%nat.
Proof.
  intros Hsep. induction l as [|x l IH]; intros Hl; [simpl; lia|].
  apply Forall_cons in Hl as [Hx Hl]. specialize (IH Hl).
  destruct l as [|y l].
  - simpl. lia.
  - cbn [List.map] in IH |- *. rewrite join_sep_cons2, !string_length_app.
    cbn [list_sum fold_right] in IH |- *. simpl in IH |- *. lia.
Qed.

Lemma value_size_length_indent (n : nat) :
  ∀ j d k, value_ok d j = true → (value_size j ≤ n)%nat →
  (value_size j ≤ String.length (json.render_indent "" "  " k j))%nat.
Proof.
  induction n as [|n IH]; intros j d k Hok Hsize.
  { pose proof (value_size_pos j). lia. }
  assert (Hsep : ∀ k', (1 ≤ String.length ("," ++ json.newline "" "  " k'))%nat)
    by (intros k'; rewrite string_length_app; cbn [String.length]; lia).
  destruct j as [|[|]|lit|s|[|x l]|[|kv l]]; try discriminate Hok; try (simpl; lia).
  - cbn [value_ok] in Hok. apply andb_prop in Hok as [_ Hok].
    rewrite render_indent_array, !string_length_app.
    cbn [value_size String.length] in Hsize |- *.
    pose proof (sum_le_join_sep ("," ++ json.newline "" "  " (S k)) value_size
                  (json.render_indent "" "  " (S k)) (x :: l) (Hsep _)) as Hsum.
    assert (HF : Forall (λ x, (value_size x
                               ≤ String.length (json.render_indent "" "  " (S k) x))%nat)
                   (x :: l)).
    { apply Forall_forall. intros y Hy. apply (IH y (d + 1)).
      - rewrite forallb_forall in Hok. apply Hok, list_elem_of_In, Hy.
      - pose proof (list_sum_elem value_size (x :: l) y Hy). lia. }
    specialize (Hsum HF). lia.
  - cbn [value_ok] in Hok. apply andb_prop in Hok as [_ Hok].
    rewrite render_indent_object, !string_length_app.
    cbn [value_size String.length] in Hsize |- *.
    pose proof (sum_le_join_sep ("," ++ json.newline "" "  " (S k))
                  (λ kv, value_size (snd kv))
                  (λ kv, json.encode_string (fst kv) ++ ": "
                         ++ json.render_indent "" "  " (S k) (snd kv))
                  (kv :: l) (Hsep _)) as Hsum.
    assert (HF : Forall (λ kv : string * json.value,
                           (value_size (snd kv)
                            ≤ String.length (json.encode_string (fst kv) ++ ": "
                                             ++ json.render_indent "" "  " (S k) (snd kv)))%nat)
                   (kv :: l)).
    { apply Forall_forall. intros kv' Hx. rewrite !string_length_app.
      assert (value_size (snd kv')
              ≤ String.length (json.render_indent "" "  " (S k) (snd kv')))%nat; [|lia].
      apply (IH (snd kv') (d + 1)).
      - rewrite forallb_forall in Hok. apply list_elem_of_In, Hok in Hx.
        apply andb_prop in Hx as [_ Hx]. exact Hx.
      - pose proof (list_sum_elem (λ kv, value_size (snd kv)) (kv :: l) kv' Hx).
        simpl in *. lia. }
    specialize (Hsum HF). lia.
Qed.

(** [parse] reads an indented well-formed value back. *)
Lemma parse_render_indent (j : json.value) :
  value_ok 0 j = true → json.parse (json.render_indent "" "  " 0 j) = Some j.
Proof.
  intros Hok. unfold json.parse.
  pose proof (value_size_length_indent (value_size j) j 0 0%nat Hok (le_n _)) as Hlen.
  destruct (parse_indent_n (S (String.length (json.render_indent "" "  " 0 j))))
    as (Hv & _ & _).
  specialize (Hv j 0 0%nat "" Hok ltac:(lia)). rewrite string_app_nil_r in Hv.
  rewrite Hv. reflexivity.
Qed.

Lemma list_to_json_ok (l : list Product) :
  forallb valid_Product l = true → value_ok 0 (json.list_to_json l) = true.
Proof.
  intros Hl. unfold json.list_to_json. cbn [value_ok].
  change (0 + 1 <=? json.maxNestingDepth) with true. cbn [andb].
  apply forallb_forall. intros j Hj. apply in_map_iff in Hj as (p & <- & Hp).
  apply Product_to_json_ok; [unfold json.maxNestingDepth; lia|].
  rewrite forallb_forall in Hl. apply Hl, Hp.
Qed.


(** The answer to [GET /products] from a [MemoryStore]. *)
Lemma GetProducts_response (cs : Server MemoryStore) (t0 : Z) (o : MapOrder) :
  response (w (serve cs (request "GET" "/products") t0 true o))
  = (StatusOK, json_headers,
     json.render_indent "" "  " 0
       (json.list_to_json (fst (MemoryStore.GetAll o (Store_ cs))))).
Proof.
  pose proof (serve_outcome cs (request "GET" "/products") t0 true o) as Ho.
  cbv zeta in Ho.
  change (negb (known_method (request "GET" "/products"))) with false in Ho.
  change (FindRoute (routePath (request "GET" "/products"))) with RouteProducts in Ho.
  cbn [Method request] in Ho. change (String.eqb "GET" "GET") with true in Ho. cbv iota in Ho.
  change (@Store_GetAll MemoryStore _) with MemoryStore.GetAll in Ho.
  apply Ho.
Qed.

Lemma response_parts (rw : ResponseWriter) (a : Z) (b : gmap string (list string))
  (c : string) :
  response rw = (a, b, c) → status rw = a ∧ sentHeader rw = b ∧ body rw = c.
Proof. unfold response. intros [= Ha Hb Hc]. auto. Qed.

Lemma GetAll_valid (o : MapOrder) (ms : MemoryStore) :
  (∀ id p, entries (MemoryStore.Products_ ms) !! id = Some p → valid_Product p = true) →
  forallb valid_Product (fst (MemoryStore.GetAll o ms)) = true.
Proof.
  intros Hvalid. apply forallb_forall. intros p Hp. apply list_elem_of_In in Hp.
  change (fst (MemoryStore.GetAll o ms)) with (maps_Values o (MemoryStore.Products_ ms)) in Hp.
  rewrite maps_Values_perm in Hp.
  apply list_elem_of_fmap in Hp as [[id q] [-> Hq]].
  apply elem_of_map_to_list in Hq. apply (Hvalid id), Hq.
Qed.

Lemma parse_list (l : list Product) :
  forallb valid_Product l = true →
  json.parse (json.render_indent "" "  " 0 (json.list_to_json l))
  = Some (json.JArray (List.map json.Product_to_json l)).
Proof. intros Hl. apply (parse_render_indent (json.list_to_json l)), list_to_json_ok, Hl. Qed.

(** X17.  The list of products is served whole: [GET /products] is answered 200
    with the JSON content type, and when the strings of the stored products
    are valid UTF-8 the body is a JSON array with one object for every entry
    of the store, in the order in which [GetAll] ranged over the mapping, each
    object decoding to its product, with the product's slice of properties
    nil if it was empty (so to the product itself when its slice is nil or
    has an element).  A store with no entry, the nil mapping included, is
    listed as [[]], never as [null]. *)
Theorem products_are_listed (cs : Server MemoryStore) (t0 : Z) (o : MapOrder) :
  (∀ id p, entries (MemoryStore.Products_ (Store_ cs)) !! id = Some p →
           valid_Product p = true) →
  let st := serve cs (request "GET" "/products") t0 true o in
  let l := fst (MemoryStore.GetAll o (Store_ cs)) in
  status (w st) = StatusOK
  ∧ sentHeader (w st) = json_headers
  ∧ (∃ js, json.parse (body (w st)) = Some (json.JArray js)
           ∧ Forall2 (λ j p, json.decode_Product j Product.zero
                             = (nil_if_empty_Product p, None)
                             ∧ (Product.Properties p ≠ Some [] →
                                json.decode_Product j Product.zero = (p, None))) js l)
  ∧ length l = size (entries (MemoryStore.Products_ (Store_ cs)))
  ∧ (entries (MemoryStore.Products_ (Store_ cs)) = ∅ → body (w st) = "[]").
Proof.
  intros Hvalid. cbv zeta.
  destruct (response_parts _ _ _ _ (GetProducts_response cs t0 o)) as (Hs & Hh & Hb).
  set (l := fst (MemoryStore.GetAll o (Store_ cs))) in *.
  assert (Hl : l ≡ₚ (map_to_list (entries (MemoryStore.Products_ (Store_ cs)))).*2)
    by apply maps_Values_perm.
  split; [exact Hs|]. split; [exact Hh|]. split; [|split].
  - exists (List.map json.Product_to_json l). split.
    + rewrite Hb. apply parse_list, GetAll_valid, Hvalid.
    + clear. induction l as [|p l IH]; [constructor|].
      cbn [List.map]. constructor; [|exact IH].
      split; [apply decode_Product_roundtrip|].
      intros Hp. rewrite decode_Product_roundtrip, nil_if_empty_Product_id by exact Hp.
      reflexivity.
  - rewrite Hl, length_fmap. apply length_map_to_list.
  - intros Hempty. rewrite Hb.
    assert (Hnil : l = []).
    { apply Permutation_nil_r. rewrite Hl, Hempty, map_to_list_empty. reflexivity. }
    rewrite Hnil. reflexivity.
Qed.

Lemma products_are_listed_witness :
  (∀ id p, entries (MemoryStore.Products_ (Store_ default_server)) !! id = Some p →
           valid_Product p = true)
  ∧ status (w (serve default_server (request "GET" "/products") 0 true order_rev)) = StatusOK
  ∧ length (fst (MemoryStore.GetAll order_rev (Store_ default_server))) = 6%nat.
Proof.
  assert (Hv : ∀ id p, entries (MemoryStore.Products_ (Store_ default_server)) !! id = Some p →
                       valid_Product p = true)
    by (intros id p Hp; apply (inventory_reachable id p Hp)).
  split; [exact Hv|].
  destruct (products_are_listed default_server 0 order_rev Hv) as (Hs & _ & _ & Hlen & _).
  split; [exact Hs|]. rewrite Hlen. vm_compute. reflexivity.
Defined.

(** X18.  The order of the listing is that of the range over the mapping, which
    Go leaves open: two answers to [GET /products] list the same products,
    each as often as the other, but not always in the same order. *)
Theorem listing_is_the_same_up_to_order (cs : Server MemoryStore) (t0 t1 : Z)
  (o1 o2 : MapOrder) :
  (∀ id p, entries (MemoryStore.Products_ (Store_ cs)) !! id = Some p →
           valid_Product p = true) →
  ∃ js1 js2,
    json.parse (body (w (serve cs (request "GET" "/products") t0 true o1)))
    = Some (json.JArray js1)
    ∧ json.parse (body (w (serve cs (request "GET" "/products") t1 true o2)))
      = Some (json.JArray js2)
    ∧ js1 ≡ₚ js2.
Proof.
  intros Hvalid.
  destruct (response_parts _ _ _ _ (GetProducts_response cs t0 o1)) as (_ & _ & Hb1).
  destruct (response_parts _ _ _ _ (GetProducts_response cs t1 o2)) as (_ & _ & Hb2).
  exists (List.map json.Product_to_json (fst (MemoryStore.GetAll o1 (Store_ cs)))),
         (List.map json.Product_to_json (fst (MemoryStore.GetAll o2 (Store_ cs)))).
  split; [rewrite Hb1; apply parse_list, GetAll_valid, Hvalid|].
  split; [rewrite Hb2; apply parse_list, GetAll_valid, Hvalid|].
  apply Permutation_map.
  change (maps_Values o1 (MemoryStore.Products_ (Store_ cs))
          ≡ₚ maps_Values o2 (MemoryStore.Products_ (Store_ cs))).
  rewrite !maps_Values_perm. reflexivity.
Qed.

Lemma listing_is_the_same_up_to_order_witness :
  (∀ id p, entries (MemoryStore.Products_ (Store_ default_server)) !! id = Some p →
           valid_Product p = true)
  ∧ String.eqb (body (w (serve default_server (request "GET" "/products") 0 true order_id)))
               (body (w (serve default_server (request "GET" "/products") 0 true order_rev)))
    = false
  ∧ ∃ js1 js2,
      json.parse (body (w (serve default_server (request "GET" "/products") 0 true order_id)))
      = Some (json.JArray js1)
      ∧ json.parse (body (w (serve default_server (request "GET" "/products") 0 true
                               order_rev)))
        = Some (json.JArray js2)
      ∧ js1 ≡ₚ js2.
Proof.
  assert (Hv : ∀ id p, entries (MemoryStore.Products_ (Store_ default_server)) !! id = Some p →
                       valid_Product p = true)
    by (intros id p Hp; apply (inventory_reachable id p Hp)).
  split; [exact Hv|]. split; [vm_compute; reflexivity|].
  apply (listing_is_the_same_up_to_order default_server 0 0 order_id order_rev Hv).
Defined.

(** ** No markup in what the encoder writes *)

Lemma string_forall_app (f : ascii → bool) (a b : string) :
  string_forall f (a ++ b) = string_forall f a && string_forall f b.
Proof.
  induction a as [|c a IH]; [reflexivity|].
  rewrite app_cons. cbn [string_forall]. rewrite IH, andb_assoc. reflexivity.
Qed.

Lemma string_forall_impl (f g : ascii → bool) (s : string) :
  (∀ c, f c = true → g c = true) → string_forall f s = true → string_forall g s = true.
Proof.
  intros Hfg. induction s as [|c s IH]; [reflexivity|].
  cbn [string_forall]. intros Hs. apply andb_prop in Hs as [Hc Hs].
  rewrite (Hfg c Hc), (IH Hs). reflexivity.
Qed.

Lemma high_byte_plain (c : ascii) : 0x80 ≤ byte_val c → plain_byte c = true.
Proof.
  intros Hc. unfold plain_byte, html_free. cbv zeta.
  repeat (apply andb_true_intro; split); try (apply negb_true_iff, Z.eqb_neq; lia).
  apply Z.leb_le. lia.
Qed.

Lemma safe_byte_plain (c : ascii) : json.htmlSafeSet (byte_val c) = true → plain_byte c = true.
Proof.
  unfold json.htmlSafeSet, plain_byte, html_free. cbv zeta. intros Hs.
  repeat (apply andb_prop in Hs as [Hs ?]).
  repeat (apply andb_true_intro; split); assumption.
Qed.

Lemma escape_byte_plain (c : ascii) : string_forall plain_byte (json.escape_byte c) = true.
Proof.
  destruct c as [b0 b1 b2 b3 b4 b5 b6 b7].
  destruct b0, b1, b2, b3, b4, b5, b6, b7; vm_compute; reflexivity.
Qed.

(** The bytes of a sequence that decodes to a rune and starts with a byte
    from 0x80 up are all from 0x80 up. *)
Lemma Decode_high (c0 : ascii) (t : string) (r : Z) (size : nat) :
  0x80 ≤ byte_val c0 →
  utf8.DecodeRuneInString (String c0 t) = (r, size) →
  (r =? utf8.RuneError) && (size =? 1)%nat = false →
  string_forall plain_byte (stake size (String c0 t)) = true.
Proof.
  intros Hhigh. pose proof (byte_val_range c0) as Hc0.
  assert (Htwo : ∀ x lo hi,
    utf8.first (byte_val c0) = x → (utf8.as_ <=? x) = false → Z.land x 7 = 2 →
    utf8.acceptRanges (Z.shiftr x 4) = (lo, hi) → 0x80 ≤ lo →
    utf8.DecodeRuneInString (String c0 t) = (r, size) →
    (r =? utf8.RuneError) && (size =? 1)%nat = false →
    string_forall plain_byte (stake size (String c0 t)) = true).
  { intros x lo hi Hx Has Hsz Hacc Hlo.
    rewrite (Decode_eq2 c0 t x lo hi Hx Has Hsz Hacc).
    destruct t as [|c1 t1]; [intros [= <- <-]; discriminate|].
    destruct (out_of lo hi c1) eqn:Ho1; [intros [= <- <-]; discriminate|].
    pose proof (out_of_false _ _ _ Ho1) as Hb1. intros [= <- <-] _.
    cbn [stake string_forall]. rewrite !high_byte_plain by lia. reflexivity. }
  assert (Hthree : ∀ x lo hi,
    utf8.first (byte_val c0) = x → (utf8.as_ <=? x) = false → Z.land x 7 = 3 →
    utf8.acceptRanges (Z.shiftr x 4) = (lo, hi) → 0x80 ≤ lo →
    utf8.DecodeRuneInString (String c0 t) = (r, size) →
    (r =? utf8.RuneError) && (size =? 1)%nat = false →
    string_forall plain_byte (stake size (String c0 t)) = true).
  { intros x lo hi Hx Has Hsz Hacc Hlo.
    rewrite (Decode_eq3 c0 t x lo hi Hx Has Hsz Hacc).
    destruct t as [|c1 [|c2 t2]]; try (intros [= <- <-]; discriminate).
    destruct (out_of lo hi c1) eqn:Ho1; [intros [= <- <-]; discriminate|].
    destruct (out_of utf8.locb utf8.hicb c2) eqn:Ho2; [intros [= <- <-]; discriminate|].
    pose proof (out_of_false _ _ _ Ho1) as Hb1.
    pose proof (out_of_false _ _ _ Ho2) as Hb2. unfold utf8.locb, utf8.hicb in Hb2.
    intros [= <- <-] _.
    cbn [stake string_forall]. rewrite !high_byte_plain by lia. reflexivity. }
  assert (Hfour : ∀ x lo hi,
    utf8.first (byte_val c0) = x → (utf8.as_ <=? x) = false → Z.land x 7 = 4 →
    utf8.acceptRanges (Z.shiftr x 4) = (lo, hi) → 0x80 ≤ lo →
    utf8.DecodeRuneInString (String c0 t) = (r, size) →
    (r =? utf8.RuneError) && (size =? 1)%nat = false →
    string_forall plain_byte (stake size (String c0 t)) = true).
  { intros x lo hi Hx Has Hsz Hacc Hlo.
    rewrite (Decode_eq4 c0 t x lo hi Hx Has Hsz Hacc).
    destruct t as [|c1 [|c2 [|c3 t3]]]; try (intros [= <- <-]; discriminate).
    destruct (out_of lo hi c1) eqn:Ho1; [intros [= <- <-]; discriminate|].
    destruct (out_of utf8.locb utf8.hicb c2) eqn:Ho2; [intros [= <- <-]; discriminate|].
    destruct (out_of utf8.locb utf8.hicb c3) eqn:Ho3; [intros [= <- <-]; discriminate|].
    pose proof (out_of_false _ _ _ Ho1) as Hb1.
    pose proof (out_of_false _ _ _ Ho2) as Hb2. unfold utf8.locb, utf8.hicb in Hb2.
    pose proof (out_of_false _ _ _ Ho3) as Hb3. unfold utf8.locb, utf8.hicb in Hb3.
    intros [= <- <-] _.
    cbn [stake string_forall]. rewrite !high_byte_plain by lia. reflexivity. }
  destruct (first_class (byte_val c0) Hc0)
    as [[H0 Hx]|[Hx|[[H0 Hx]|[[H0 Hx]|[(H0 & H0' & Hx)|[[H0 Hx]|[[H0 Hx]|[[H0 Hx]|[H0 Hx]]]]]]]]].
  - lia.
  - rewrite (Decode_eqxx _ _ Hx). intros [= <- <-]. discriminate.
  - apply (Htwo _ 0x80 0xBF Hx eq_refl eq_refl eq_refl); lia.
  - apply (Hthree _ 0xA0 0xBF Hx eq_refl eq_refl eq_refl); lia.
  - apply (Hthree _ 0x80 0xBF Hx eq_refl eq_refl eq_refl); lia.
  - apply (Hthree _ 0x80 0x9F Hx eq_refl eq_refl eq_refl); lia.
  - apply (Hfour _ 0x90 0xBF Hx eq_refl eq_refl eq_refl); lia.
  - apply (Hfour _ 0x80 0xBF Hx eq_refl eq_refl eq_refl); lia.
  - apply (Hfour _ 0x80 0x8F Hx eq_refl eq_refl eq_refl); lia.
Qed.

(** What the encoder writes between the quotes of a string, whatever the
    string holds. *)
Lemma string_loop_plain (n : nat) (s : string) :
  string_forall plain_byte (json.string_loop n s) = true.
Proof.
  induction n as [|n IH] in s |- *; [destruct s; reflexivity|].
  destruct s as [|c t]; [reflexivity|].
  rewrite string_loop_S. cbv zeta.
  destruct (Z.ltb_spec (byte_val c) utf8.RuneSelf) as [Hascii|Hmulti]; unfold utf8.RuneSelf in *.
  - destruct (json.htmlSafeSet (byte_val c)) eqn:Hsafe.
    + cbn [string_forall]. rewrite (safe_byte_plain c Hsafe), IH. reflexivity.
    + rewrite !string_forall_app, escape_byte_plain, IH. reflexivity.
  - destruct (utf8.DecodeRuneInString (String c t)) as [r size] eqn:Hdec.
    destruct ((r =? utf8.RuneError) && (size =? 1)%nat) eqn:Herr.
    + rewrite !string_forall_app, IH. reflexivity.
    + destruct ((r =? 0x2028) || (r =? 0x2029)) eqn:Hsep.
      * rewrite !string_forall_app, IH.
        apply orb_true_iff in Hsep as [Hr|Hr]; apply Z.eqb_eq in Hr; subst r; reflexivity.
      * rewrite string_forall_app, IH, (Decode_high c t r size) by (assumption || lia).
        reflexivity.
Qed.

Lemma encode_string_plain (s : string) : string_forall plain_byte (json.encode_string s) = true.
Proof.
  unfold json.encode_string. rewrite !string_forall_app, string_loop_plain. reflexivity.
Qed.

Lemma join_forall (f : ascii → bool) (sep : string) (l : list string) :
  string_forall f sep = true → Forall (λ x, string_forall f x = true) l →
  string_forall f (json.join sep l) = true.
Proof.
  intros Hsep. induction l as [|x l IH]; intros Hl; [reflexivity|].
  apply Forall_cons in Hl as [Hx Hl]. destruct l as [|y l].
  - rewrite join_one. exact Hx.
  - rewrite join_cons2, !string_forall_app, Hx, Hsep, (IH Hl). reflexivity.
Qed.

(** The compact text of a value without numbers: plain bytes only. *)
Lemma render_plain (n : nat) :
  ∀ j, (value_size j ≤ n)%nat → no_number j = true →
  string_forall plain_byte (json.render j) = true.
Proof.
  induction n as [|n IH]; intros j Hsize Hj.
  { pose proof (value_size_pos j). lia. }
  destruct j as [|[|]|lit|s|l|l]; try discriminate Hj; try reflexivity.
  - apply encode_string_plain.
  - cbn [no_number] in Hj. rewrite render_array, !string_forall_app.
    rewrite join_forall; [reflexivity|reflexivity|].
    apply Forall_forall. intros x Hx. apply list_elem_of_In, in_map_iff in Hx as (y & <- & Hy).
    apply IH.
    + pose proof (list_sum_elem value_size l y (proj2 (list_elem_of_In _ _) Hy)).
      cbn [value_size] in Hsize. lia.
    + rewrite forallb_forall in Hj. apply Hj, Hy.
  - cbn [no_number] in Hj. rewrite render_object, !string_forall_app.
    rewrite join_forall; [reflexivity|reflexivity|].
    apply Forall_forall. intros x Hx. apply list_elem_of_In, in_map_iff in Hx as (kv & <- & Hy).
    unfold member_text. rewrite !string_forall_app, encode_string_plain.
    rewrite IH; [reflexivity| |].
    + pose proof (list_sum_elem (λ kv, value_size (snd kv)) l kv
                    (proj2 (list_elem_of_In _ _) Hy)).
      cbn [value_size] in Hsize. simpl in *. lia.
    + rewrite forallb_forall in Hj. apply Hj, Hy.
Qed.

Lemma repeat_string_forall (f : ascii → bool) (k : nat) (s : string) :
  string_forall f s = true → string_forall f (json.repeat_string k s) = true.
Proof.
  intros Hs. induction k as [|k IH]; [reflexivity|].
  cbn [json.repeat_string]. rewrite string_forall_app, Hs, IH. reflexivity.
Qed.

Lemma newline_html_free (k : nat) : string_forall html_free (json.newline "" "  " k) = true.
Proof.
  unfold json.newline. rewrite !string_forall_app, repeat_string_forall; reflexivity.
Qed.

Lemma plain_html_free (s : string) :
  string_forall plain_byte s = true → string_forall html_free s = true.
Proof.
  apply string_forall_impl. intros c Hc. unfold plain_byte in Hc.
  apply andb_prop in Hc as [Hc _]. exact Hc.
Qed.

(** The indented text of a value without numbers: no angle bracket and no
    ampersand (it has line feeds). *)
Lemma render_indent_html_free (n : nat) :
  ∀ j k, (value_size j ≤ n)%nat → no_number j = true →
  string_forall html_free (json.render_indent "" "  " k j) = true.
Proof.
  induction n as [|n IH]; intros j k Hsize Hj.
  { pose proof (value_size_pos j). lia. }
  assert (Hsep : ∀ k', string_forall html_free ("," ++ json.newline "" "  " k') = true)
    by (intros k'; rewrite string_forall_app, newline_html_free; reflexivity).
  destruct j as [|[|]|lit|s|[|x l]|[|kv l]]; try discriminate Hj; try reflexivity.
  - apply plain_html_free, encode_string_plain.
  - cbn [no_number] in Hj. rewrite render_indent_array, !string_forall_app.
    rewrite !newline_html_free, join_forall; [reflexivity|apply Hsep|].
    apply Forall_forall. intros y Hy. apply list_elem_of_In, in_map_iff in Hy as (z & <- & Hz).
    apply IH.
    + pose proof (list_sum_elem value_size (x :: l) z (proj2 (list_elem_of_In _ _) Hz)).
      cbn [value_size] in Hsize. lia.
    + rewrite forallb_forall in Hj. apply Hj, Hz.
  - cbn [no_number] in Hj. rewrite render_indent_object, !string_forall_app.
    rewrite !newline_html_free, join_forall; [reflexivity|apply Hsep|].
    apply Forall_forall. intros y Hy. apply list_elem_of_In, in_map_iff in Hy as (z & <- & Hz).
    rewrite !string_forall_app, (plain_html_free _ (encode_string_plain _)).
    rewrite IH; [reflexivity| |].
    + pose proof (list_sum_elem (λ kv, value_size (snd kv)) (kv :: l) z
                    (proj2 (list_elem_of_In _ _) Hz)).
      cbn [value_size] in Hsize. simpl in *. lia.
    + rewrite forallb_forall in Hj. apply Hj, Hz.
Qed.

Lemma Property_no_number (p : Property) : no_number (json.Property_to_json p) = true.
Proof. reflexivity. Qed.

Lemma Properties_no_number (ps : list Property) :
  forallb no_number (List.map json.Property_to_json ps) = true.
Proof. induction ps as [|q ps IH]; [reflexivity|]. cbn [List.map forallb]. exact IH. Qed.

Lemma Product_no_number (p : Product) : no_number (json.Product_to_json p) = true.
Proof.
  unfold json.Product_to_json, json.omitempty_string. cbn [no_number].
  rewrite !forallb_app.
  destruct (String.eqb (Product.Unit p) ""), (String.eqb (Product.Quantity p) ""),
    (String.eqb (Product.Price p) ""), (Product.Properties p) as [[|q qs]|];
    cbn [forallb snd no_number andb]; rewrite ?Properties_no_number; reflexivity.
Qed.

Lemma list_no_number (l : list Product) : no_number (json.list_to_json l) = true.
Proof.
  unfold json.list_to_json. cbn [no_number]. apply forallb_forall. intros j Hj.
  apply in_map_iff in Hj as (p & <- & _). apply Product_no_number.
Qed.

Lemma map_no_number (m : Products) : no_number (json.map_to_json m) = true.
Proof.
  destruct m as [g|]; [|reflexivity]. unfold json.map_to_json. cbn [no_number].
  apply forallb_forall. intros kv Hkv. apply in_map_iff in Hkv as ([k p] & <- & _).
  apply Product_no_number.
Qed.


(** X19.  The encoders write plain bytes, whatever the strings of the products
    hold (markup, control bytes, bytes that are not UTF-8): the text of
    [MarshalJSON] for a mapping and the JSON of a product have no angle
    bracket, no ampersand and no byte below 0x20, the control bytes that
    JSON does not allow in a string (DEL, 0x7F, is not one of them: it is
    written as it is); the indented JSON of a list of products has no angle
    bracket and no ampersand. *)
Theorem encoders_write_plain_bytes (p : Product) (m : Products) (l : list Product) :
  string_forall plain_byte (fst (MarshalJSON m)) = true
  ∧ string_forall plain_byte (fst (json.Marshal_Product p)) = true
  ∧ string_forall html_free (fst (json.MarshalIndent_list l "" "  ")) = true.
Proof.
  split; [|split].
  - apply (render_plain _ _ (le_n _)), map_no_number.
  - apply (render_plain _ _ (le_n _)), Product_no_number.
  - apply (render_indent_html_free _ _ _ (le_n _)), list_no_number.
Qed.

Section BodyBytes.

Context {S : Type} `{Store S}.

(** X20.  No body that the server sends has an angle bracket or an ampersand in
    it, whatever the request and whatever the store returns: the JSON
    encoder escapes them in every string, and the two plain-text messages
    have none. *)
Theorem no_markup_in_any_body (cs : Server S) (r : Request) (t0 : Z) (conn : bool)
  (o : MapOrder) :
  string_forall html_free (body (w (serve cs r t0 conn o))) = true.
Proof.
  pose proof (serve_outcome cs r t0 conn o) as Ho. cbv zeta in Ho.
  assert (Hsent : ∀ data, string_forall html_free data = true →
                          string_forall html_free (sent conn data) = true)
    by (intros data Hd; destruct conn; [exact Hd|reflexivity]).
  destruct (negb (known_method r));
    [apply outcome_parts in Ho as (_ & _ & -> & _); reflexivity|].
  destruct (FindRoute (routePath r)) as [|id|];
    [destruct (String.eqb (Method r) "GET")|destruct (String.eqb (Method r) "GET")|].
  - apply outcome_parts in Ho as (_ & _ & -> & _). apply Hsent.
    apply (render_indent_html_free _ _ _ (le_n _)), list_no_number.
  - apply outcome_parts in Ho as (_ & _ & -> & _). reflexivity.
  - destruct (Store_GetProduct id (Store_ cs)) as [[p [e|]] s']; cbn [fst] in Ho;
      apply outcome_parts in Ho as (_ & _ & -> & _); apply Hsent; [reflexivity|].
    apply plain_html_free, (render_plain _ _ (le_n _)), Product_no_number.
  - apply outcome_parts in Ho as (_ & _ & -> & _). reflexivity.
  - apply outcome_parts in Ho as (_ & _ & -> & _). apply Hsent. reflexivity.
Qed.

End BodyBytes.

(** ** [UnmarshalJSON]: what it stores, and when it stores nothing *)

Lemma decode_members_fold (ms : list (string * json.value)) (acc : gmap string Product)
  (err : option error) :
  fst (fold_left json.decode_map_member ms (acc, err))
  = fold_left (λ m kv, <[fst kv := fst (json.decode_Product (snd kv) Product.zero)]> m) ms acc.
Proof.
  induction ms as [|[k v] ms IH] in acc, err |- *; [reflexivity|].
  cbn [fold_left]. unfold json.decode_map_member at 2. cbn [fst snd].
  destruct (json.decode_Product v Product.zero) as [p e]. apply IH.
Qed.

Lemma decode_members_error (ms : list (string * json.value)) (acc : gmap string Product)
  (err : option error) :
  snd (fold_left json.decode_map_member ms (acc, err))
  = match err with
    | Some e => Some e
    | None => match List.find (λ kv, bool_decide
                                       (snd (json.decode_Product (snd kv) Product.zero) ≠ None))
                      ms with
              | Some kv => snd (json.decode_Product (snd kv) Product.zero)
              | None => None
              end
    end.
Proof.
  induction ms as [|[k v] ms IH] in acc, err |- *; [destruct err; reflexivity|].
  cbn [fold_left List.find]. unfold json.decode_map_member at 2. cbn [fst snd].
  destruct (json.decode_Product v Product.zero) as [p e] eqn:Hdec. rewrite IH. cbn [snd].
  destruct err as [e0|]; [reflexivity|].
  destruct e as [e|]; cbn [json.saveError].
  - rewrite bool_decide_true by discriminate. cbn [snd]. rewrite Hdec. reflexivity.
  - rewrite bool_decide_false by (intros Hn; apply Hn; reflexivity). reflexivity.
Qed.

Lemma fold_insert_lookup_last {V W : Type} (f : W → V) (ms1 ms2 : list (string * W))
  (k : string) (v : W) (acc : gmap string V) :
  k ∉ ms2.*1 →
  fold_left (λ m kv, <[fst kv := f (snd kv)]> m) (ms1 ++ (k, v) :: ms2)%list acc !! k
  = Some (f v).
Proof.
  intros Hk. rewrite fold_left_app. cbn [fold_left fst snd].
  generalize (fold_left (λ m kv, <[fst kv := f (snd kv)]> m) ms1 acc). intros g.
  assert (Hg : <[k := f v]> g !! k = Some (f v)) by apply lookup_insert_eq.
  revert Hg. generalize (<[k := f v]> g). clear g.
  induction ms2 as [|[k' v'] ms2 IH]; intros g Hg; [exact Hg|].
  cbn [fold_left fst snd]. apply IH.
  - intros Hin. apply Hk. cbn [fmap list_fmap fst]. apply elem_of_cons. right. exact Hin.
  - rewrite lookup_insert_ne; [exact Hg|].
    intros ->. apply Hk. cbn. apply elem_of_cons. left. reflexivity.
Qed.

Lemma fold_insert_lookup_dom {V W : Type} (f : W → V) (ms : list (string * W)) (k : string)
  (acc : gmap string V) :
  is_Some (fold_left (λ m kv, <[fst kv := f (snd kv)]> m) ms acc !! k)
  ↔ k ∈ ms.*1 ∨ is_Some (acc !! k).
Proof.
  induction ms as [|[k' v'] ms IH] in acc |- *.
  - cbn. split; [auto|]. intros [Hk|Hk]; [apply elem_of_nil in Hk; destruct Hk|exact Hk].
  - cbn [fold_left fst snd]. rewrite IH. cbn [fmap list_fmap fst]. rewrite elem_of_cons.
    destruct (decide (k = k')) as [->|Hne].
    + rewrite lookup_insert_eq. split; [auto|]. intros _. right. eexists. reflexivity.
    + rewrite lookup_insert_ne by congruence. tauto.
Qed.

(** X21.  [UnmarshalJSON] on a JSON object replaces the mapping: when every
    member decodes without a type error the receiver becomes a mapping with
    exactly the keys of the object, nothing of what it held before is kept,
    and of several members with the same key the last one decides; each
    product is decoded from its member alone, into a zero [Product].  On
    [null] the receiver becomes the nil mapping. *)
Theorem UnmarshalJSON_replaces (data : string) (ms : list (string * json.value))
  (p : Products) :
  json.parse data = Some (json.JObject ms) →
  (∀ kv, kv ∈ ms → snd (json.decode_Product (snd kv) Product.zero) = None) →
  ∃ g, UnmarshalJSON data p = (Some g, None)
       ∧ (∀ k, is_Some (g !! k) ↔ k ∈ ms.*1)
       ∧ (∀ (ms1 : list (string * json.value)) k v ms2,
            ms = (ms1 ++ (k, v) :: ms2)%list → k ∉ ms2.*1 →
            g !! k = Some (fst (json.decode_Product v Product.zero))).
Proof.
  intros Hparse Hok.
  unfold UnmarshalJSON, json.Unmarshal_map, json.Unmarshal. rewrite Hparse.
  unfold json.decode_map. change (entries None) with (∅ : gmap string Product).
  pose proof (decode_members_fold ms ∅ None) as Hfst.
  pose proof (decode_members_error ms ∅ None) as Hsnd.
  destruct (fold_left json.decode_map_member ms (∅, None)) as [g err].
  cbn [fst snd] in Hfst, Hsnd.
  assert (Herr : err = None).
  { rewrite Hsnd. destruct (List.find _ ms) as [kv|] eqn:Hfind; [|reflexivity].
    apply find_some in Hfind as [Hin _]. apply Hok, list_elem_of_In, Hin. }
  clear Hsnd. subst err. exists g. split; [reflexivity|]. rewrite Hfst. split.
  - intros k.
    pose proof (fold_insert_lookup_dom (λ v, fst (json.decode_Product v Product.zero))
                  ms k ∅) as Hdom.
    cbv beta in Hdom. rewrite Hdom, lookup_empty.
    split; [intros [Hk|[x Hx]]; [exact Hk|discriminate Hx]|auto].
  - intros ms1 k v ms2 -> Hk.
    apply (fold_insert_lookup_last (λ v, fst (json.decode_Product v Product.zero))
             ms1 ms2 k v ∅ Hk).
Qed.

(** The decoder of a product reports nothing but type errors. *)
Lemma saveError_type (saved e : option error) :
  (saved = None ∨ saved = Some json_UnmarshalTypeError) →
  (e = None ∨ e = Some json_UnmarshalTypeError) →
  json.saveError saved e = None ∨ json.saveError saved e = Some json_UnmarshalTypeError.
Proof. intros [->| ->] He; cbn [json.saveError]; auto. Qed.

Lemma decode_string_type (v : json.value) (old : string) :
  snd (json.decode_string v old) = None
  ∨ snd (json.decode_string v old) = Some json_UnmarshalTypeError.
Proof. destruct v; cbn; auto. Qed.

Lemma decode_Property_type (v : json.value) (old : Property) :
  snd (json.decode_Property v old) = None
  ∨ snd (json.decode_Property v old) = Some json_UnmarshalTypeError.
Proof.
  destruct v as [| | | |l|ms]; cbn [json.decode_Property snd]; auto.
  assert (Hfold : ∀ acc : Property * option error,
             (snd acc = None ∨ snd acc = Some json_UnmarshalTypeError) →
             snd (fold_left json.decode_Property_member ms acc) = None
             ∨ snd (fold_left json.decode_Property_member ms acc)
               = Some json_UnmarshalTypeError).
  { induction ms as [|kv ms IH]; intros acc Hacc; [exact Hacc|].
    cbn [fold_left]. apply IH. destruct acc as [q err]. cbn [snd] in Hacc.
    unfold json.decode_Property_member.
    destruct (json.find_field json.Property_fields (fst kv)) as [[|]|]; [| |exact Hacc].
    - pose proof (decode_string_type (snd kv) (Property.Name q)) as Hs.
      destruct (json.decode_string (snd kv) (Property.Name q)) as [s e]. cbn [snd] in Hs |- *.
      apply saveError_type; assumption.
    - pose proof (decode_string_type (snd kv) (Property.Value q)) as Hs.
      destruct (json.decode_string (snd kv) (Property.Value q)) as [s e]. cbn [snd] in Hs |- *.
      apply saveError_type; assumption. }
  apply Hfold. left. reflexivity.
Qed.

Lemma decode_elems_type (l : list json.value) (backing : list Property) (err : option error) :
  (err = None ∨ err = Some json_UnmarshalTypeError) →
  snd (json.decode_elems l backing err) = None
  ∨ snd (json.decode_elems l backing err) = Some json_UnmarshalTypeError.
Proof.
  induction l as [|v l IH] in backing, err |- *; intros Herr; [exact Herr|].
  cbn [json.decode_elems].
  pose proof (decode_Property_type v (hd json.Property_zero backing)) as Hp.
  destruct (json.decode_Property v (hd json.Property_zero backing)) as [q e]. cbn [snd] in Hp.
  pose proof (IH (tl backing) (json.saveError err e) (saveError_type _ _ Herr Hp)) as Hl.
  destruct (json.decode_elems l (tl backing) (json.saveError err e)) as [qs err'].
  exact Hl.
Qed.

Lemma decode_Product_type (v : json.value) (old : Product) :
  snd (json.decode_Product v old) = None
  ∨ snd (json.decode_Product v old) = Some json_UnmarshalTypeError.
Proof.
  destruct v as [| | | |l|ms]; cbn [json.decode_Product snd]; auto.
  assert (Hfold : ∀ acc : Product * list Property * option error,
             (snd acc = None ∨ snd acc = Some json_UnmarshalTypeError) →
             snd (fold_left json.decode_Product_member ms acc) = None
             ∨ snd (fold_left json.decode_Product_member ms acc)
               = Some json_UnmarshalTypeError).
  { induction ms as [|kv ms IH]; intros acc Hacc; [exact Hacc|].
    cbn [fold_left]. apply IH. destruct acc as [[q spare] err]. cbn [snd] in Hacc.
    unfold json.decode_Product_member.
    destruct (json.find_field json.Product_fields (fst kv)) as [f|]; [|exact Hacc].
    assert (Hstr : ∀ f', snd (let '(s, e) := json.decode_string (snd kv)
                                                (json.get_string_field f' q) in
                              (json.set_string_field f' s q, spare, json.saveError err e))
                         = None
                         ∨ snd (let '(s, e) := json.decode_string (snd kv)
                                                  (json.get_string_field f' q) in
                                (json.set_string_field f' s q, spare, json.saveError err e))
                           = Some json_UnmarshalTypeError).
    { intros f'. pose proof (decode_string_type (snd kv) (json.get_string_field f' q)) as Hs.
      destruct (json.decode_string (snd kv) (json.get_string_field f' q)) as [s e].
      cbn [snd] in Hs |- *. apply saveError_type; assumption. }
    destruct f; try apply Hstr.
    assert (Hps : snd (json.decode_Properties (snd kv) (Product.Properties q) spare) = None
                  ∨ snd (json.decode_Properties (snd kv) (Product.Properties q) spare)
                    = Some json_UnmarshalTypeError).
    { unfold json.decode_Properties. destruct (snd kv) as [| | | |[|j js]|]; cbn [snd]; auto.
      pose proof (decode_elems_type (j :: js)
                    (default [] (Product.Properties q) ++ spare)%list None) as He.
      destruct (json.decode_elems (j :: js) _ None) as [ps e]. cbn [snd] in He |- *.
      apply He. left. reflexivity. }
    destruct (json.decode_Properties (snd kv) (Product.Properties q) spare) as [[l' sp'] e].
    cbn [snd] in Hps |- *. apply saveError_type; assumption. }
  pose proof (Hfold (old, [], None) (or_introl eq_refl)) as Hf.
  destruct (fold_left json.decode_Product_member ms (old, [], None)) as [[q sp] err].
  exact Hf.
Qed.

(** X22.  When [UnmarshalJSON] returns an error the receiver is what it was.  It
    returns a syntax error when the data is not one JSON value, and a type
    error when the value is an array, a string, a number or a boolean, or an
    object with a member that does not decode to a [Product]. *)
Theorem UnmarshalJSON_failure_keeps_receiver (data : string) (p : Products) :
  (∀ p' e, UnmarshalJSON data p = (p', Some e) → p' = p)
  ∧ (json.parse data = None → UnmarshalJSON data p = (p, Some json_SyntaxError))
  ∧ (json.parse data = Some json.JNull → UnmarshalJSON data p = (None, None))
  ∧ (∀ v, json.parse data = Some v →
          match v with json.JObject _ | json.JNull => False | _ => True end →
          UnmarshalJSON data p = (p, Some json_UnmarshalTypeError))
  ∧ (∀ ms kv e, json.parse data = Some (json.JObject ms) → kv ∈ ms →
                snd (json.decode_Product (snd kv) Product.zero) = Some e →
                e = json_UnmarshalTypeError
                ∧ UnmarshalJSON data p = (p, Some json_UnmarshalTypeError)).
Proof.
  unfold UnmarshalJSON, json.Unmarshal_map, json.Unmarshal.
  split; [|split; [|split; [|split]]].
  - intros p' e. destruct (json.parse data) as [v|]; [|intros [= <- _]; reflexivity].
    destruct (json.decode_map v None) as [pa [e'|]]; intros [= <- _] || intros [=]; reflexivity.
  - intros ->. reflexivity.
  - intros ->. reflexivity.
  - intros v -> Hv. destruct v; try (destruct Hv); reflexivity.
  - intros ms kv e -> Hin He. unfold json.decode_map.
    change (entries None) with (∅ : gmap string Product).
    pose proof (decode_members_error ms ∅ None) as Hsnd.
    destruct (fold_left json.decode_map_member ms (∅, None)) as [g err]. cbn [snd] in Hsnd.
    destruct (List.find _ ms) as [kv'|] eqn:Hfind.
    + apply find_some in Hfind as [_ Hdec]. apply bool_decide_eq_true in Hdec.
      split.
      { destruct (decode_Product_type (snd kv) Product.zero) as [Hn|Ht]; congruence. }
      rewrite Hsnd.
      destruct (decode_Product_type (snd kv') Product.zero) as [Hn|Ht]; [congruence|].
      rewrite Ht. reflexivity.
    + exfalso. apply list_elem_of_In in Hin.
      apply (find_none _ _ Hfind) in Hin. apply bool_decide_eq_false in Hin.
      apply Hin. rewrite He. discriminate.
Qed.

Lemma UnmarshalJSON_replaces_witness :
  json.parse duplicate_members
  = Some (json.JObject [("7", json.JObject []);
                        ("7", json.JObject [("id", json.JString "x")])])
  ∧ ∃ g, UnmarshalJSON duplicate_members inventory = (Some g, None)
         ∧ g !! "7" = Some (Product.mk "x" "" "" "" "" "" "" None)
         ∧ g !! "1" = None.
Proof.
  assert (Hparse : json.parse duplicate_members
                   = Some (json.JObject [("7", json.JObject []);
                                         ("7", json.JObject [("id", json.JString "x")])]))
    by (vm_compute; reflexivity).
  split; [exact Hparse|].
  destruct (UnmarshalJSON_replaces duplicate_members _ inventory Hparse) as (g & Hg & Hdom & Hlast).
  { intros kv Hkv.
    repeat (apply elem_of_cons in Hkv as [->|Hkv]; [vm_compute; reflexivity|]).
    apply elem_of_nil in Hkv. destruct Hkv. }
  exists g. split; [exact Hg|]. split.
  - apply (Hlast [("7", json.JObject [])] "7" (json.JObject [("id", json.JString "x")]) []);
      [reflexivity|apply not_elem_of_nil].
  - destruct (g !! "1") as [q|] eqn:Hq; [|reflexivity]. exfalso.
    assert (Hin : "1" ∈ [("7", json.JObject []);
                         ("7", json.JObject [("id", json.JString "x")])].*1)
      by (apply Hdom; exists q; exact Hq).
    cbn in Hin. repeat (apply elem_of_cons in Hin as [Hin|Hin]; [discriminate Hin|]).
    apply elem_of_nil in Hin. exact Hin.
Defined.

(** ** Failed writes, and the two kinds of 404 *)

Section FailedWrites.

Context {S : Type} `{Store S}.

(** X23.  When the connection takes no write, the status and the headers that go
    out are those of the same request on a sound connection, and the body is
    empty: the handlers' fallback, [http.Error] with status 500 after a write
    has failed, comes after the status line and changes nothing that is
    sent. *)
Theorem failed_write_changes_nothing (cs : Server S) (r : Request) (t0 : Z) (o : MapOrder) :
  let good := serve cs r t0 true o in
  let bad := serve cs r t0 false o in
  status (w bad) = status (w good)
  ∧ sentHeader (w bad) = sentHeader (w good)
  ∧ body (w bad) = ""
  ∧ store bad = store good
  ∧ now bad = now good.
Proof.
  cbv zeta.
  pose proof (serve_outcome cs r t0 true o) as Hg.
  pose proof (serve_outcome cs r t0 false o) as Hb.
  cbv zeta in Hg, Hb.
  assert (Hparts : ∀ (sa sb : HState S) a h ca cb t sto,
    outcome_is sa (a, h, sent true ca) t sto → outcome_is sb (a, h, sent false cb) t sto →
    status (w sb) = status (w sa) ∧ sentHeader (w sb) = sentHeader (w sa)
    ∧ body (w sb) = "" ∧ store sb = store sa ∧ now sb = now sa).
  { intros sa sb a h ca cb t sto Ha Hb'.
    pose proof Ha as (_ & Hna & _). pose proof Hb' as (_ & Hnb & _).
    apply outcome_parts in Ha as (-> & -> & _ & ->).
    apply outcome_parts in Hb' as (-> & -> & -> & ->).
    rewrite Hna, Hnb. repeat split; reflexivity. }
  destruct (negb (known_method r)); [apply (Hparts _ _ _ _ "" "" _ _ Hg Hb)|].
  destruct (FindRoute (routePath r)) as [|id|];
    [destruct (String.eqb (Method r) "GET")|destruct (String.eqb (Method r) "GET")|].
  - apply (Hparts _ _ _ _ _ _ _ _ Hg Hb).
  - apply (Hparts _ _ _ _ "" "" _ _ Hg Hb).
  - destruct (Store_GetProduct id (Store_ cs)) as [[p [e|]] s']; cbn [fst snd] in Hg, Hb;
      apply (Hparts _ _ _ _ _ _ _ _ Hg Hb).
  - apply (Hparts _ _ _ _ "" "" _ _ Hg Hb).
  - apply (Hparts _ _ _ _ _ _ _ _ Hg Hb).
Qed.

End FailedWrites.

(** X24.  A 404 is one of two: for a [GET] of [/products/<id>] with an identifier
    that the store does not hold, the body is the line [product not found];
    for a path that matches neither route (with a method that chi knows) it
    is the line [404 page not found].  Both are plain text. *)
Theorem two_kinds_of_404 (cs : Server MemoryStore) (r : Request) (t0 : Z) (o : MapOrder) :
  let st := serve cs r t0 true o in
  status (w st) = StatusNotFound →
  (Method r = "GET"
   ∧ (∃ id, Path r = "/products/" ++ id ∧ id ≠ "" ∧ has_slash id = false
            ∧ entries (MemoryStore.Products_ (Store_ cs)) !! id = None)
   ∧ body (w st) = "product not found" ++ lf)
  ∨ (Path r ≠ "/products"
     ∧ (∀ id, Path r = "/products/" ++ id → id = "" ∨ has_slash id = true)
     ∧ body (w st) = "404 page not found" ++ lf).
Proof.
  cbv zeta. pose proof (serve_outcome cs r t0 true o) as Ho. cbv zeta in Ho.
  change (@Store_GetProduct MemoryStore _) with MemoryStore.GetProduct in Ho.
  destruct (negb (known_method r));
    [apply outcome_parts in Ho as (-> & _); discriminate|].
  destruct (FindRoute (routePath r)) as [|id|] eqn:Hroute;
    [destruct (String.eqb_spec (Method r) "GET") as [Hm|Hm]
    |destruct (String.eqb_spec (Method r) "GET") as [Hm|Hm]|].
  - apply outcome_parts in Ho as (-> & _); discriminate.
  - apply outcome_parts in Ho as (-> & _); discriminate.
  - rewrite MemoryStore_GetProduct_fst in Ho.
    apply FindRoute_routePath_Product in Hroute as (Hp & Hid & Hsl).
    destruct (entries (MemoryStore.Products_ (Store_ cs)) !! id) eqn:Hl;
      apply outcome_parts in Ho as (-> & _ & Hb & _); [discriminate|].
    intros _. left. split; [exact Hm|]. split; [exists id; auto|exact Hb].
  - apply outcome_parts in Ho as (-> & _); discriminate.
  - apply outcome_parts in Ho as (_ & _ & Hb & _). intros _. right.
    split; [|split; [|exact Hb]].
    + intros Hp. apply FindRoute_routePath_Products in Hp. congruence.
    + intros id Hp. destruct (String.eqb_spec id "") as [?|Hne]; [left; assumption|].
      destruct (has_slash id) eqn:Hsl; [right; reflexivity|].
      assert (FindRoute (routePath r) = RouteProduct id)
        by (apply FindRoute_routePath_Product; auto).
      congruence.
Qed.

Lemma two_kinds_of_404_witness :
  status (w (serve default_server (request "GET" "/products/") 0 true order_id)) = StatusNotFound
  ∧ body (w (serve default_server (request "GET" "/products/") 0 true order_id))
    = "404 page not found" ++ lf.
Proof.
  assert (Hs : status (w (serve default_server (request "GET" "/products/") 0 true order_id))
               = StatusNotFound) by (vm_compute; reflexivity).
  split; [exact Hs|].
  destruct (two_kinds_of_404 default_server (request "GET" "/products/") 0 order_id Hs)
    as [(_ & (id & Hp & Hid & _) & _)|(_ & _ & Hb)]; [|exact Hb].
  exfalso. cbn [Path request] in Hp. apply Hid.
  apply (string_app_inv_head "/products/"). rewrite <- Hp. reflexivity.
Defined.

(** ** The request-timeout guard and the write timeout *)

Section GuardProps.

Context {S : Type} `{Store S}.

(** X25.  The request-timeout guard never acts, at any latency: every answer is
    the one the chain gives without the guard, and no answer has the
    guard's status 504, nor the status 500 that the handlers fall back to. *)
Theorem timeout_guard_never_acts (cs : Server S) (r : Request) (t0 : Z) (conn : bool)
  (o : MapOrder) :
  serve cs r t0 conn o = serve_unguarded cs r t0 conn o
  ∧ (status (w (serve cs r t0 conn o)) =? StatusGatewayTimeout) = false
  ∧ (status (w (serve cs r t0 conn o)) =? StatusInternalServerError) = false.
Proof.
  split; [apply serve_guard_no_effect|].
  rewrite serve_guard_no_effect.
  destruct (serve_unguarded_spec cs r t0 conn o) as (_ & Hs & _).
  destruct Hs as [-> | [-> | ->]]; split; reflexivity.
Qed.

(** X26.  What the handler chain has written reaches the client when the
    connection takes it and, if the server has a write timeout, the latency
    is less than it: net/http sets the write deadline of the connection
    when it has read the request, and sends the response when the handler
    has returned, the latency later.  With the write timeout of 30 seconds
    that [New] sets, a latency of 30 seconds or more means that no request
    is ever answered, whatever the handler chain has written. *)
Theorem delivered_within_write_timeout (cs : Server S) (r : Request) (t0 : Z) (conn : bool)
  (o : MapOrder) :
  delivered (serve cs r t0 conn o)
  = conn && (negb (0 <? WriteTimeout (HTTPServer_ cs))
             || (Z.max (Latency cs) 0 <? WriteTimeout (HTTPServer_ cs)))
  ∧ (WriteTimeout (HTTPServer_ cs) = 30 * Second →
     delivered (serve cs r t0 conn o) = conn && (Latency cs <? 30 * Second))
  ∧ (WriteTimeout (HTTPServer_ cs) = 30 * Second → 30 * Second ≤ Latency cs →
     delivered (serve cs r t0 conn o) = false).
Proof.
  split; [apply serve_delivered|].
  assert (H30 : WriteTimeout (HTTPServer_ cs) = 30 * Second →
                delivered (serve cs r t0 conn o) = conn && (Latency cs <? 30 * Second)).
  { intros Hwt. rewrite serve_delivered, Hwt.
    change (0 <? 30 * Second) with true. cbn [negb orb]. f_equal.
    apply eq_true_iff_eq. rewrite !Z.ltb_lt.
    unfold Second, Millisecond, Microsecond, Nanosecond. lia. }
  split; [exact H30|].
  intros Hwt Hlat. rewrite (H30 Hwt).
  replace (Latency cs <? 30 * Second) with false by (symmetry; apply Z.ltb_ge; exact Hlat).
  apply andb_false_r.
Qed.

End GuardProps.
